(** * User-creation saga: the Step Functions state machine of
      [lib/state-machine-stack.ts]

    The construct [SampleStateMachine] assembles an Amazon States Language
    graph out of five [CallAwsService] tasks, a [Pass] and a [Fail] state.
    This development embeds

    - the construct objects and the builder methods ([buildFindLastId],
      [buildCreateDynamoDBUser], [buildCorrectLastId], [buildRollbackUser],
      [buildCreateCognitoUser], [buildStateMachine]) with their parameter
      trees kept verbatim as JSON values;
    - the part of the States Language that the graph uses (payload
      templates, JSONPath reads, the intrinsics [States.Format],
      [States.MathAdd], [States.StringToJson], ResultSelector, ResultPath,
      Catch and Next);
    - the service operations the tasks call (DynamoDB getItem, updateItem,
      deleteItem, transactWriteItems and Cognito adminCreateUser) over a
      table modelled as a finite map;

    and proves the properties of the saga over that embedding. *)

From Stdlib Require Import ZArith Ascii String List Lia Bool.
From Stdlib Require Import Decimal DecimalString DecimalZ DecimalPos.
From stdpp Require Import base option gmap strings list fin_maps.

Set Warnings "-register-all".

Open Scope string_scope.
Open Scope Z_scope.

(* ===================================================================== *)
(** * JSON values *)
(* ===================================================================== *)

Module Json.

Inductive json : Type :=
| JNull
| JBool (b : bool)
| JNum  (n : Z)
| JStr  (s : string)
| JArr  (xs : list json)
| JObj  (kvs : list (string * json)).

(** Object member access: the first binding of the name. *)
Fixpoint assoc {A : Type} (k : string) (kvs : list (string * A)) : option A :=
  match kvs with
  | [] => None
  | (k', v) :: rest => if String.eqb k k' then Some v else assoc k rest
  end.

(** Object member update: replace in place, or append when absent. *)
Fixpoint assoc_set {A : Type} (k : string) (v : A) (kvs : list (string * A))
  : list (string * A) :=
  match kvs with
  | [] => [(k, v)]
  | (k', v') :: rest =>
      if String.eqb k k' then (k, v) :: rest else (k', v') :: assoc_set k v rest
  end.

Definition field (k : string) (j : json) : option json :=
  match j with
  | JObj kvs => assoc k kvs
  | _ => None
  end.

(** [$.a.b.c] read as the list of member names. *)
Fixpoint get_path (p : list string) (j : json) : option json :=
  match p with
  | [] => Some j
  | k :: rest =>
      match field k j with
      | Some j' => get_path rest j'
      | None => None
      end
  end.

(** Writing at a path: every prefix must be an object (a missing member is
    created as an empty object on the way down). *)
Fixpoint set_path (p : list string) (v : json) (j : json) : option json :=
  match p with
  | [] => Some v
  | k :: rest =>
      match j with
      | JObj kvs =>
          let child := match assoc k kvs with Some c => c | None => JObj [] end in
          match set_path rest v child with
          | Some c' => Some (JObj (assoc_set k c' kvs))
          | None => None
          end
      | _ => None
      end
  end.

Definition as_string (j : json) : option string :=
  match j with JStr s => Some s | _ => None end.

Definition as_list (j : json) : option (list json) :=
  match j with JArr xs => Some xs | _ => None end.

Definition is_object (j : json) : bool :=
  match j with JObj _ => true | _ => false end.

End Json.
Export Json.

(* ===================================================================== *)
(** * Decimal text of integers *)
(* ===================================================================== *)

Module Dec.

(** The decimal text of an integer, as [States.Format('{}', n)] prints it
    and as DynamoDB returns a number attribute. *)
Definition show (z : Z) : string := NilZero.string_of_int (Z.to_int z).

(** Reading a decimal text back ([States.StringToJson] on a number, and the
    [N] member of a DynamoDB attribute value in a request). *)
Definition read (s : string) : option Z :=
  match NilZero.int_of_string s with
  | Some d => Some (Z.of_int d)
  | None => None
  end.

End Dec.

(* ===================================================================== *)
(** * Text helpers *)
(* ===================================================================== *)

Module Text.

Fixpoint strip_prefix (p s : string) : option string :=
  match p, s with
  | EmptyString, _ => Some s
  | String a p', String b s' => if Ascii.eqb a b then strip_prefix p' s' else None
  | String _ _, EmptyString => None
  end.

Fixpoint rev_string (acc s : string) : string :=
  match s with
  | EmptyString => acc
  | String a s' => rev_string (String a acc) s'
  end.

Definition strip_suffix (suf s : string) : option string :=
  match strip_prefix (rev_string EmptyString suf) (rev_string EmptyString s) with
  | Some r => Some (rev_string EmptyString r)
  | None => None
  end.

(** Split at every occurrence of the separator character. *)
Fixpoint split_on (sep : ascii) (cur : string) (s : string) : list string :=
  match s with
  | EmptyString => [rev_string EmptyString cur]
  | String a s' =>
      if Ascii.eqb a sep then rev_string EmptyString cur :: split_on sep EmptyString s'
      else split_on sep (String a cur) s'
  end.

Definition words (s : string) : list string :=
  filter (fun w => w <> EmptyString) (split_on " " EmptyString s).

End Text.

(* ===================================================================== *)
(** * States Language: paths, intrinsic functions, payload templates *)
(* ===================================================================== *)

Module Asl.

(** The expressions a [".$"] member of a payload template may hold: a
    JSONPath into the state input, or an intrinsic call whose arguments are
    paths, quoted strings, integers or further calls. *)
Inductive expr : Type :=
| EPath (p : list string)
| EStr  (s : string)
| ENum  (n : Z)
| ECall (f : string) (args : list expr).

Inductive token : Type :=
| TWord (w : string)
| TQuoted (s : string)
| TLParen
| TRParen
| TComma.

(** What the lexer is in the middle of. *)
Inductive pending : Type :=
| PIdle
| PWord (acc : string)
| PQuote (acc : string).

Definition flush (p : pending) : option (list token) :=
  match p with
  | PIdle => Some []
  | PWord acc => Some [TWord (Text.rev_string EmptyString acc)]
  | PQuote _ => None
  end.

Definition is_punct (a : ascii) : option token :=
  if Ascii.eqb a "(" then Some TLParen
  else if Ascii.eqb a ")" then Some TRParen
  else if Ascii.eqb a "," then Some TComma
  else None.

Fixpoint lex (p : pending) (s : string) : option (list token) :=
  match s with
  | EmptyString => flush p
  | String a s' =>
      match p with
      | PQuote acc =>
          if Ascii.eqb a "'"
          then cons (TQuoted (Text.rev_string EmptyString acc)) <$> lex PIdle s'
          else lex (PQuote (String a acc)) s'
      | _ =>
          if Ascii.eqb a "'" then
            match flush p with
            | Some ts => app ts <$> lex (PQuote EmptyString) s'
            | None => None
            end
          else if Ascii.eqb a " " then
            match flush p with
            | Some ts => app ts <$> lex PIdle s'
            | None => None
            end
          else match is_punct a with
               | Some t =>
                   match flush p with
                   | Some ts => (fun r => (ts ++ t :: r)%list) <$> lex PIdle s'
                   | None => None
                   end
               | None =>
                   match p with
                   | PWord acc => lex (PWord (String a acc)) s'
                   | _ => lex (PWord (String a EmptyString)) s'
                   end
               end
      end
  end.

(** A bare word is a path ([$], [$.a.b]), an integer, or a function name. *)
Definition path_of_word (w : string) : option (list string) :=
  match Text.split_on "." EmptyString w with
  | "$" :: segs => if forallb (fun s => negb (String.eqb s EmptyString)) segs then Some segs else None
  | _ => None
  end.

Definition atom_of_word (w : string) : option expr :=
  match path_of_word w with
  | Some p => Some (EPath p)
  | None =>
      match Dec.read w with
      | Some n => Some (ENum n)
      | None => None
      end
  end.

(** Recursive descent over the tokens; [fuel] bounds the nesting and the
    argument count, the token count is always enough. *)
Fixpoint parse_expr (fuel : nat) (ts : list token) : option (expr * list token) :=
  match fuel with
  | O => None
  | S fuel' =>
      match ts with
      | TQuoted s :: rest => Some (EStr s, rest)
      | TWord f :: TLParen :: TRParen :: rest => Some (ECall f [], rest)
      | TWord f :: TLParen :: rest =>
          match parse_args fuel' rest with
          | Some (args, rest') => Some (ECall f args, rest')
          | None => None
          end
      | TWord w :: rest =>
          match atom_of_word w with
          | Some e => Some (e, rest)
          | None => None
          end
      | _ => None
      end
  end
with parse_args (fuel : nat) (ts : list token) : option (list expr * list token) :=
  match fuel with
  | O => None
  | S fuel' =>
      match parse_expr fuel' ts with
      | Some (e, TComma :: rest) =>
          match parse_args fuel' rest with
          | Some (es, rest') => Some (e :: es, rest')
          | None => None
          end
      | Some (e, TRParen :: rest) => Some ([e], rest)
      | _ => None
      end
  end.

Definition parse (s : string) : option expr :=
  match lex PIdle s with
  | Some ts =>
      match parse_expr (2 * S (length ts)) ts with
      | Some (e, []) => Some e
      | _ => None
      end
  | None => None
  end.

(** [States.Format]: each [{}] of the template takes the next argument;
    strings are inserted as they are, integers in decimal. *)
Definition format_arg (j : json) : option string :=
  match j with
  | JStr s => Some s
  | JNum n => Some (Dec.show n)
  | JBool true => Some "true"
  | JBool false => Some "false"
  | JNull => Some "null"
  | _ => None
  end.

Fixpoint format (tpl : string) (args : list json) : option string :=
  match tpl with
  | EmptyString => match args with [] => Some EmptyString | _ => None end
  | String "{" (String "}" tpl') =>
      match args with
      | a :: args' =>
          match format_arg a, format tpl' args' with
          | Some sa, Some r => Some (sa ++ r)
          | _, _ => None
          end
      | [] => None
      end
  | String c tpl' => String c <$> format tpl' args
  end.

Definition intrinsic (f : string) (args : list json) : option json :=
  if String.eqb f "States.Format" then
    match args with
    | JStr tpl :: rest => JStr <$> format tpl rest
    | _ => None
    end
  else if String.eqb f "States.MathAdd" then
    match args with
    | [JNum a; JNum b] => Some (JNum (a + b))
    | _ => None
    end
  else if String.eqb f "States.StringToJson" then
    match args with
    | [JStr s] => JNum <$> Dec.read s
    | _ => None
    end
  else None.

Fixpoint eval_expr (e : expr) (input : json) : option json :=
  match e with
  | EPath p => get_path p input
  | EStr s => Some (JStr s)
  | ENum n => Some (JNum n)
  | ECall f args =>
      match (fix go (es : list expr) : option (list json) :=
               match es with
               | [] => Some []
               | e' :: es' =>
                   match eval_expr e' input, go es' with
                   | Some v, Some vs => Some (v :: vs)
                   | _, _ => None
                   end
               end) args with
      | Some vs => intrinsic f vs
      | None => None
      end
  end.

Definition eval_string (s : string) (input : json) : option json :=
  match parse s with
  | Some e => eval_expr e input
  | None => None
  end.

(** Payload template (Parameters, ResultSelector): a member whose name ends
    in [".$"] is evaluated against the input and stored under the name
    without the suffix; everything else is copied, objects and arrays
    recursively. *)
Fixpoint eval_template (t : json) (input : json) : option json :=
  match t with
  | JObj kvs =>
      JObj <$>
      (fix members (l : list (string * json)) : option (list (string * json)) :=
         match l with
         | [] => Some []
         | (k, v) :: l' =>
             let here :=
               match Text.strip_suffix ".$" k with
               | Some k' =>
                   match v with
                   | JStr s => pair k' <$> eval_string s input
                   | _ => None
                   end
               | None => pair k <$> eval_template v input
               end in
             match here, members l' with
             | Some kv, Some r => Some (kv :: r)
             | _, _ => None
             end
         end) kvs
  | JArr xs =>
      JArr <$>
      (fix items (l : list json) : option (list json) :=
         match l with
         | [] => Some []
         | x :: l' =>
             match eval_template x input, items l' with
             | Some y, Some r => Some (y :: r)
             | _, _ => None
             end
         end) xs
  | _ => Some t
  end.

(** ResultPath as rendered into the definition: absent (the result replaces
    the input), [null] (the result is dropped) or a reference path. *)
Inductive result_path : Type :=
| RPReplace
| RPDiscard
| RPAt (p : string).

Definition apply_result_path (rp : result_path) (input result : json) : option json :=
  match rp with
  | RPReplace => Some result
  | RPDiscard => Some input
  | RPAt p =>
      match path_of_word p with
      | Some segs => set_path segs result input
      | None => None
      end
  end.

End Asl.

Example parse_user_id :
  Asl.parse "States.Format('{}', States.MathAdd(States.StringToJson($.Item.LastId.N), 1))"
  = Some (Asl.ECall "States.Format"
            [Asl.EStr "{}";
             Asl.ECall "States.MathAdd"
               [Asl.ECall "States.StringToJson" [Asl.EPath ["Item"; "LastId"; "N"]];
                Asl.ENum 1]]).
Proof. vm_compute. reflexivity. Qed.

Example parse_profile_key :
  Asl.parse "States.Format('USERPROFILE#{}', $.context.userId)"
  = Some (Asl.ECall "States.Format"
            [Asl.EStr "USERPROFILE#{}"; Asl.EPath ["context"; "userId"]]).
Proof. vm_compute. reflexivity. Qed.

Example eval_user_id :
  Asl.eval_string
    "States.Format('{}', States.MathAdd(States.StringToJson($.Item.LastId.N), 1))"
    (JObj [("Item", JObj [("LastId", JObj [("N", JStr "41")])])])
  = Some (JStr "42").
Proof. vm_compute. reflexivity. Qed.

(* ===================================================================== *)
(** * The constructs of [state-machine-stack.ts] *)
(* ===================================================================== *)

Module Cdk.

(** The two resources the builders read. The ARNs, the table name and the
    pool id are resolved at deployment, so they stay abstract here. *)
Record ITable := { tableName : string; tableArn : string }.
Record IUserPool := { userPoolId : string; userPoolArn : string }.

(** [JsonPath.DISCARD] *)
Definition JsonPath_DISCARD : string := "DISCARD".

Record CallAwsServiceProps := {
  action : string;
  iamResources : list string;
  parameters : json;
  service : string;
  resultSelector : option json;
  resultPath : option string
}.

Module CatchProps.
Record t := { errors : list string; resultPath : option string }.
End CatchProps.

Inductive StateKind : Type :=
| Task (props : CallAwsServiceProps)
| Pass
| Fail (error cause : option string).

(** A state object: what it is, and what [next] and [addCatch] have
    recorded on it so far. *)
Record State := {
  kind : StateKind;
  nextState : option string;
  catches : list (CatchProps.t * string)
}.

(** [Chain]: the start state and the states whose [next] is still open. *)
Record Chain := { startState : string; endStates : list string }.

(** The builder methods create state objects in the construct tree and then
    mutate them; the tree is threaded as a store from construct id to state
    object, and a method that throws yields [None]. *)
Definition Build (A : Type) : Type :=
  gmap string State -> option (A * gmap string State).

#[global] Instance build_ret : MRet Build := fun A x g => Some (x, g).
#[global] Instance build_bind : MBind Build := fun A B f m g =>
  match m g with
  | Some (x, g') => f x g'
  | None => None
  end.

(** [new C(scope, id, ...)]: a second construct with the same id throws. *)
Definition construct (id : string) (k : StateKind) : Build string := fun g =>
  match g !! id with
  | Some _ => None
  | None => Some (id, <[id := {| kind := k; nextState := None; catches := [] |}]> g)
  end.

Definition new_CallAwsService (id : string) (props : CallAwsServiceProps) : Build string :=
  construct id (Task props).
Definition new_Pass (id : string) : Build string := construct id Pass.
Definition new_Fail (id : string) : Build string := construct id (Fail None None).

(** [TaskStateBase.addCatch(handler, props)] appends a catcher. *)
Definition addCatch (s handler : string) (props : CatchProps.t) : Build unit := fun g =>
  match g !! s, g !! handler with
  | Some st, Some _ =>
      match kind st with
      | Task _ =>
          Some (tt, <[s := {| kind := kind st; nextState := nextState st;
                              catches := (catches st ++ [(props, handler)])%list |}]> g)
      | _ => None
      end
  | _, _ => None
  end.

(** [State.makeNext]: throws when the state already has a next state. *)
Definition makeNext (s n : string) : Build unit := fun g =>
  match g !! s, g !! n with
  | Some st, Some _ =>
      match kind st, nextState st with
      | Fail _ _, _ => None
      | _, Some _ => None
      | _, None =>
          Some (tt, <[s := {| kind := kind st; nextState := Some n;
                              catches := catches st |}]> g)
      end
  | _, _ => None
  end.

(** [endStates] of a single state: itself, except that nothing follows a
    [Fail]. *)
Definition state_endStates (n : string) : Build (list string) := fun g =>
  match g !! n with
  | Some st => Some (match kind st with Fail _ _ => [] | _ => [n] end, g)
  | None => None
  end.

(** [s.next(n)] on a state. *)
Definition State_next (s n : string) : Build Chain :=
  _ ← makeNext s n;
  ends ← state_endStates n;
  mret {| startState := s; endStates := ends |}.

(** [c.next(n)] on a chain: throws when the chain has no open end. *)
Definition Chain_next (c : Chain) (n : string) : Build Chain :=
  match endStates c with
  | [] => fun _ => None
  | es =>
      _ ← (fix each (l : list string) : Build unit :=
             match l with
             | [] => mret tt
             | e :: l' => _ ← makeNext e n; each l'
             end) es;
      ends ← state_endStates n;
      mret {| startState := startState c; endStates := ends |}
  end.

(** ** The five tasks *)

Definition buildCreateCognitoUser (u : IUserPool) : Build string :=
  new_CallAwsService "CreateCognitoUser" {|
    action := "adminCreateUser";
    iamResources := [userPoolArn u];
    parameters := JObj [
      ("UserPoolId", JStr (userPoolId u));
      ("Username.$", JStr "$.context.userId");
      ("UserAttributes", JArr [
         JObj [("Name", JStr "email");
               ("Value.$", JStr "$.emailAddress")];
         JObj [("Name", JStr "email_verified");
               ("Value", JStr "true")]])];
    service := "cognitoidentityprovider";
    resultSelector := None;
    resultPath := None
  |}.

Definition buildRollbackUser (t : ITable) : Build string :=
  new_CallAwsService "RollbackUser" {|
    action := "deleteItem";
    iamResources := [tableArn t];
    parameters := JObj [
      ("TableName", JStr (tableName t));
      ("Key", JObj [
         ("PK", JObj [("S.$", JStr "States.Format('USERPROFILE#{}', $.context.userId)")]);
         ("SK", JObj [("S.$", JStr "States.Format('USERPROFILE#{}', $.context.userId)")])])];
    service := "dynamodb";
    resultSelector := None;
    resultPath := Some "$.results"
  |}.

Definition buildCorrectLastId (t : ITable) : Build string :=
  new_CallAwsService "CorrectLastId" {|
    action := "updateItem";
    iamResources := [tableArn t];
    parameters := JObj [
      ("TableName", JStr (tableName t));
      ("ConditionExpression", JStr "LastId = :previousUserId");
      ("UpdateExpression", JStr "SET LastId = :newUserId");
      ("ExpressionAttributeValues", JObj [
         (":previousUserId", JObj [("N.$", JStr "$.context.previousUserId")]);
         (":newUserId", JObj [("N.$", JStr "$.context.userId")])]);
      ("Key", JObj [
         ("PK", JObj [("S", JStr "USERMETADATA")]);
         ("SK", JObj [("S", JStr "USERMETADATA")])])];
    service := "dynamodb";
    resultSelector := None;
    resultPath := Some "$.results"
  |}.

Definition buildCreateDynamoDBUser (t : ITable) : Build string :=
  new_CallAwsService "CreateDynamoDBUser" {|
    action := "transactWriteItems";
    iamResources := [tableArn t];
    parameters := JObj [
      ("TransactItems", JArr [
         JObj [("Put", JObj [
           ("Item", JObj [
              ("PK", JObj [("S.$", JStr "States.Format('USERPROFILE#{}', $.context.userId)")]);
              ("SK", JObj [("S.$", JStr "States.Format('USERPROFILE#{}', $.context.userId)")]);
              ("FirstName", JObj [("S.$", JStr "$.firstName")]);
              ("LastName", JObj [("S.$", JStr "$.lastName")]);
              ("EmailAddress", JObj [("S.$", JStr "$.emailAddress")]);
              ("PhoneNumber", JObj [("S.$", JStr "$.phoneNumber")])]);
           ("ConditionExpression", JStr "attribute_not_exists(PK)");
           ("TableName", JStr (tableName t))])];
         JObj [("Update", JObj [
           ("ConditionExpression", JStr "LastId = :previousUserId");
           ("UpdateExpression", JStr "SET LastId = :newUserId");
           ("ExpressionAttributeValues", JObj [
              (":previousUserId", JObj [("N.$", JStr "$.context.previousUserId")]);
              (":newUserId", JObj [("N.$", JStr "$.context.userId")])]);
           ("Key", JObj [
              ("PK", JObj [("S", JStr "USERMETADATA")]);
              ("SK", JObj [("S", JStr "USERMETADATA")])]);
           ("TableName", JStr (tableName t))])]])];
    service := "dynamodb";
    resultSelector := None;
    resultPath := Some JsonPath_DISCARD
  |}.

Definition buildFindLastId (t : ITable) : Build string :=
  new_CallAwsService "FindLastId" {|
    action := "getItem";
    iamResources := [tableArn t];
    parameters := JObj [
      ("TableName", JStr (tableName t));
      ("ConsistentRead", JBool true);
      ("Key", JObj [
         ("PK", JObj [("S", JStr "USERMETADATA")]);
         ("SK", JObj [("S", JStr "USERMETADATA")])])];
    service := "dynamodb";
    resultSelector := Some (JObj [
      ("previousUserId.$", JStr "$.Item.LastId.N");
      ("userId.$",
       JStr "States.Format('{}', States.MathAdd(States.StringToJson($.Item.LastId.N), 1))")]);
    resultPath := Some "$.context"
  |}.

(** ** The graph *)

Definition buildStateMachine (t : ITable) (u : IUserPool) : Build Chain :=
  pass ← new_Pass "Pass";
  fail ← new_Fail "Fail";
  rollbackUser ← buildRollbackUser t;
  createCognitoUser ← buildCreateCognitoUser u;
  correctLastId ← buildCorrectLastId t;
  createDbUser ← buildCreateDynamoDBUser t;
  findLastId ← buildFindLastId t;

  _ ← addCatch createCognitoUser rollbackUser {|
        CatchProps.errors := ["CognitoIdentityProvider.UsernameExistsException"];
        CatchProps.resultPath := Some "$.error" |};

  _ ← addCatch createDbUser correctLastId {|
        CatchProps.errors := ["DynamoDB.ConditionalCheckFailedException";
                              "DynamoDb.TransactionCanceledException"];
        CatchProps.resultPath := Some "$.error" |};

  _ ← State_next correctLastId findLastId;
  _ ← State_next rollbackUser fail;

  c1 ← State_next findLastId createDbUser;
  c2 ← Chain_next c1 createCognitoUser;
  Chain_next c2 pass.

(** [renderResultPath]: [undefined] stays absent, [JsonPath.DISCARD]
    becomes [null], anything else is the path itself. *)
Definition renderResultPath (rp : option string) : Asl.result_path :=
  match rp with
  | None => Asl.RPReplace
  | Some p => if String.eqb p JsonPath_DISCARD then Asl.RPDiscard else Asl.RPAt p
  end.

(** The definition handed to [new StateMachine]: the state objects the
    flow built and the flow's start state. *)
Record Definition_ := { states : gmap string State; startAt : string }.

Definition definition (t : ITable) (u : IUserPool) : option Definition_ :=
  match buildStateMachine t u ∅ with
  | Some (flow, g) => Some {| states := g; startAt := startState flow |}
  | None => None
  end.

End Cdk.
Export Cdk.

(* ===================================================================== *)
(** * The services the tasks call *)
(* ===================================================================== *)

Module Aws.

(** A DynamoDB attribute value: a string or a number (the counter and the
    ids are integers). *)
Inductive attr : Type :=
| AS (s : string)
| AN (n : Z).

Definition attr_eqb (a b : attr) : bool :=
  match a, b with
  | AS x, AS y => String.eqb x y
  | AN x, AN y => Z.eqb x y
  | _, _ => false
  end.

(** What a failed call reports to the state machine. *)
Record Fault := { Error : string; Cause : string }.

(** The deployed resources: the table under its primary key [(PK, SK)],
    a possibly stale copy that eventually-consistent reads are served
    from, and the user pool under the username. *)
Record World := {
  table : gmap (string * string) (list (string * attr));
  replica : gmap (string * string) (list (string * attr));
  pool : gmap string (list (string * string))
}.

Definition with_table (w : World) (tb : gmap (string * string) (list (string * attr))) : World :=
  {| table := tb; replica := replica w; pool := pool w |}.

Definition with_pool (w : World) (p : gmap string (list (string * string))) : World :=
  {| table := table w; replica := replica w; pool := p |}.

(** ** Wire format *)

Definition decode_attr (j : json) : option attr :=
  match j with
  | JObj [("S", JStr s)] => Some (AS s)
  | JObj [("N", JStr s)] => AN <$> Dec.read s
  | _ => None
  end.

Definition encode_attr (a : attr) : json :=
  match a with
  | AS s => JObj [("S", JStr s)]
  | AN n => JObj [("N", JStr (Dec.show n))]
  end.

Fixpoint decode_attrs (kvs : list (string * json)) : option (list (string * attr)) :=
  match kvs with
  | [] => Some []
  | (k, v) :: rest =>
      match decode_attr v, decode_attrs rest with
      | Some a, Some r => Some ((k, a) :: r)
      | _, _ => None
      end
  end.

Definition decode_item (j : json) : option (list (string * attr)) :=
  match j with
  | JObj kvs => decode_attrs kvs
  | _ => None
  end.

Definition encode_item (it : list (string * attr)) : json :=
  JObj (map (fun kv => (fst kv, encode_attr (snd kv))) it).

(** The key schema of the table: partition key [PK] and sort key [SK],
    both strings. *)
Definition key_of_item (it : list (string * attr)) : option (string * string) :=
  match assoc "PK" it, assoc "SK" it with
  | Some (AS pk), Some (AS sk) => Some (pk, sk)
  | _, _ => None
  end.

Definition decode_key (j : json) : option (string * string) :=
  match decode_item j with
  | Some ([_; _] as it) => key_of_item it
  | _ => None
  end.

Definition key_attrs (k : string * string) : list (string * attr) :=
  [("PK", AS (fst k)); ("SK", AS (snd k))].

(** ** Condition and update expressions *)

Inductive cond : Type :=
| CAttributeNotExists (a : string)
| CEquals (a : string) (placeholder : string).

Inductive update : Type :=
| USet (a : string) (placeholder : string).

Definition parse_condition (s : string) : option cond :=
  match Text.words s with
  | [a; "="; ph] => Some (CEquals a ph)
  | [w] =>
      match Text.strip_prefix "attribute_not_exists(" w with
      | Some r =>
          match Text.strip_suffix ")" r with
          | Some a => Some (CAttributeNotExists a)
          | None => None
          end
      | None => None
      end
  | _ => None
  end.

Definition parse_update (s : string) : option update :=
  match Text.words s with
  | ["SET"; a; "="; ph] => Some (USet a ph)
  | _ => None
  end.

Definition eval_cond (c : cond) (vals : list (string * attr))
    (existing : option (list (string * attr))) : option bool :=
  match c with
  | CAttributeNotExists a =>
      Some (match existing with
            | Some it => match assoc a it with Some _ => false | None => true end
            | None => true
            end)
  | CEquals a ph =>
      match assoc ph vals with
      | Some v =>
          Some (match existing with
                | Some it => match assoc a it with Some v' => attr_eqb v' v | None => false end
                | None => false
                end)
      | None => None
      end
  end.

Definition apply_update (u : update) (vals : list (string * attr))
    (k : string * string) (existing : option (list (string * attr)))
  : option (list (string * attr)) :=
  match u with
  | USet a ph =>
      match assoc ph vals with
      | Some v =>
          Some (assoc_set a v (match existing with Some it => it | None => key_attrs k end))
      | None => None
      end
  end.

(** ** Write operations *)

(** One write against one item, as a member of [TransactItems] or as a
    request of its own. *)
Inductive write : Type :=
| WPut (it : list (string * attr))
| WUpdate (u : update)
| WDelete.

Record write_op := {
  op_key : string * string;
  op_write : write;
  op_cond : option cond;
  op_vals : list (string * attr)
}.

Definition decode_cond (req : json) : option (option cond) :=
  match field "ConditionExpression" req with
  | None => Some None
  | Some (JStr s) => Some <$> parse_condition s
  | Some _ => None
  end.

Definition decode_vals (req : json) : option (list (string * attr)) :=
  match field "ExpressionAttributeValues" req with
  | None => Some []
  | Some j => decode_item j
  end.

Definition decode_put (req : json) : option write_op :=
  match field "Item" req with
  | Some ji =>
      match decode_item ji, decode_cond req, decode_vals req with
      | Some it, Some c, Some vals =>
          match key_of_item it with
          | Some k => Some {| op_key := k; op_write := WPut it; op_cond := c; op_vals := vals |}
          | None => None
          end
      | _, _, _ => None
      end
  | None => None
  end.

Definition decode_update (req : json) : option write_op :=
  match field "Key" req, field "UpdateExpression" req with
  | Some jk, Some (JStr us) =>
      match decode_key jk, parse_update us, decode_cond req, decode_vals req with
      | Some k, Some u, Some c, Some vals =>
          Some {| op_key := k; op_write := WUpdate u; op_cond := c; op_vals := vals |}
      | _, _, _, _ => None
      end
  | _, _ => None
  end.

Definition decode_delete (req : json) : option write_op :=
  match field "Key" req with
  | Some jk =>
      match decode_key jk, decode_cond req, decode_vals req with
      | Some k, Some c, Some vals =>
          Some {| op_key := k; op_write := WDelete; op_cond := c; op_vals := vals |}
      | _, _, _ => None
      end
  | None => None
  end.

Definition check_op (tb : gmap (string * string) (list (string * attr))) (op : write_op)
  : option bool :=
  match op_cond op with
  | None => Some true
  | Some c => eval_cond c (op_vals op) (tb !! op_key op)
  end.

Definition apply_op (tb : gmap (string * string) (list (string * attr))) (op : write_op)
  : option (gmap (string * string) (list (string * attr))) :=
  match op_write op with
  | WPut it => Some (<[op_key op := it]> tb)
  | WUpdate u =>
      match apply_update u (op_vals op) (op_key op) (tb !! op_key op) with
      | Some it => Some (<[op_key op := it]> tb)
      | None => None
      end
  | WDelete => Some (delete (op_key op) tb)
  end.

(** ** DynamoDB *)

Definition validation (c : string) : Fault :=
  {| Error := "DynamoDb.DynamoDbException"; Cause := c |}.
Definition resource_not_found : Fault :=
  {| Error := "DynamoDb.ResourceNotFoundException";
     Cause := "Requested resource not found" |}.
Definition conditional_check_failed : Fault :=
  {| Error := "DynamoDb.ConditionalCheckFailedException";
     Cause := "The conditional request failed" |}.
Definition transaction_canceled : Fault :=
  {| Error := "DynamoDb.TransactionCanceledException";
     Cause := "Transaction cancelled, please refer cancellation reasons for specific reasons" |}.

Definition table_named (t : ITable) (req : json) : bool :=
  match field "TableName" req with
  | Some (JStr n) => String.eqb n (tableName t)
  | _ => false
  end.

Definition consistent_read (req : json) : bool :=
  match field "ConsistentRead" req with
  | Some (JBool b) => b
  | _ => false
  end.

(** [getItem]: a read; with [ConsistentRead] it is served from the table
    itself, otherwise from the replica. *)
Definition getItem (t : ITable) (w : World) (req : json) : World * (Fault + json) :=
  if table_named t req then
    match field "Key" req with
    | Some jk =>
        match decode_key jk with
        | Some k =>
            let src := if consistent_read req then table w else replica w in
            (w, inr (match src !! k with
                     | Some it => JObj [("Item", encode_item it)]
                     | None => JObj []
                     end))
        | None => (w, inl (validation "The provided key element does not match the schema"))
        end
    | None => (w, inl (validation "Key is required"))
    end
  else (w, inl resource_not_found).

(** A single conditional write ([updateItem], [deleteItem]): the condition
    is checked against the stored item, and a failed condition leaves the
    table as it was and raises the conditional-check fault. *)
Definition single_write (decode : json -> option write_op)
    (t : ITable) (w : World) (req : json) : World * (Fault + json) :=
  if table_named t req then
    match decode req with
    | Some op =>
        match check_op (table w) op with
        | Some true =>
            match apply_op (table w) op with
            | Some tb => (with_table w tb, inr (JObj []))
            | None => (w, inl (validation "Invalid UpdateExpression"))
            end
        | Some false => (w, inl conditional_check_failed)
        | None => (w, inl (validation "Invalid ConditionExpression"))
        end
    | None => (w, inl (validation "Invalid request"))
    end
  else (w, inl resource_not_found).

Definition updateItem := single_write decode_update.
Definition deleteItem := single_write decode_delete.

Definition decode_transact_item (t : ITable) (j : json) : Fault + write_op :=
  let go (decode : json -> option write_op) (r : json) :=
    if table_named t r then
      match decode r with
      | Some op => inr op
      | None => inl (validation "Invalid transaction item")
      end
    else inl resource_not_found in
  match j with
  | JObj [("Put", r)] => go decode_put r
  | JObj [("Update", r)] => go decode_update r
  | JObj [("Delete", r)] => go decode_delete r
  | _ => inl (validation "Invalid transaction item")
  end.

Fixpoint decode_transact_items (t : ITable) (js : list json) : Fault + list write_op :=
  match js with
  | [] => inr []
  | j :: rest =>
      match decode_transact_item t j, decode_transact_items t rest with
      | inr op, inr ops => inr (op :: ops)
      | inl f, _ => inl f
      | _, inl f => inl f
      end
  end.

Fixpoint distinct_keys (ks : list (string * string)) : bool :=
  match ks with
  | [] => true
  | k :: rest => negb (bool_decide (k ∈ rest)) && distinct_keys rest
  end.

Fixpoint check_all (tb : gmap (string * string) (list (string * attr)))
    (ops : list write_op) : option bool :=
  match ops with
  | [] => Some true
  | op :: rest =>
      match check_op tb op, check_all tb rest with
      | Some b, Some bs => Some (b && bs)
      | _, _ => None
      end
  end.

Fixpoint apply_all (tb : gmap (string * string) (list (string * attr)))
    (ops : list write_op) : option (gmap (string * string) (list (string * attr))) :=
  match ops with
  | [] => Some tb
  | op :: rest =>
      match apply_op tb op with
      | Some tb' => apply_all tb' rest
      | None => None
      end
  end.

(** [transactWriteItems]: every condition is checked against the table as
    it stands; either all writes are applied or none is and the
    transaction is cancelled. No two members may address the same item. *)
Definition transactWriteItems (t : ITable) (w : World) (req : json)
  : World * (Fault + json) :=
  match field "TransactItems" req with
  | Some (JArr ((_ :: _) as js)) =>
      match decode_transact_items t js with
      | inr ops =>
          if distinct_keys (map op_key ops) then
            match check_all (table w) ops with
            | Some true =>
                match apply_all (table w) ops with
                | Some tb => (with_table w tb, inr (JObj []))
                | None => (w, inl (validation "Invalid UpdateExpression"))
                end
            | Some false => (w, inl transaction_canceled)
            | None => (w, inl (validation "Invalid ConditionExpression"))
            end
          else (w, inl (validation
                 "Transaction request cannot include multiple operations on one item"))
      | inl f => (w, inl f)
      end
  | _ => (w, inl (validation "TransactItems is required"))
  end.

(** ** Cognito *)

Definition invalid_parameter (c : string) : Fault :=
  {| Error := "CognitoIdentityProvider.InvalidParameterException"; Cause := c |}.
Definition pool_not_found : Fault :=
  {| Error := "CognitoIdentityProvider.ResourceNotFoundException";
     Cause := "User pool does not exist" |}.
Definition username_exists : Fault :=
  {| Error := "CognitoIdentityProvider.UsernameExistsException";
     Cause := "User account already exists" |}.

Definition decode_user_attr (j : json) : option (string * string) :=
  match field "Name" j, field "Value" j with
  | Some (JStr n), Some (JStr v) => Some (n, v)
  | _, _ => None
  end.

Fixpoint decode_user_attrs (js : list json) : option (list (string * string)) :=
  match js with
  | [] => Some []
  | j :: rest =>
      match decode_user_attr j, decode_user_attrs rest with
      | Some a, Some r => Some (a :: r)
      | _, _ => None
      end
  end.

Definition encode_user_attr (a : string * string) : json :=
  JObj [("Name", JStr (fst a)); ("Value", JStr (snd a))].

Definition user_response (name : string) (attrs : list (string * string)) : json :=
  JObj [("User", JObj [
    ("Username", JStr name);
    ("Attributes", JArr (map encode_user_attr attrs));
    ("Enabled", JBool true);
    ("UserStatus", JStr "FORCE_CHANGE_PASSWORD")])].

(** [adminCreateUser]: a new account under the username with the given
    attributes; a taken username is refused. *)
Definition adminCreateUser (u : IUserPool) (w : World) (req : json)
  : World * (Fault + json) :=
  match field "UserPoolId" req, field "Username" req with
  | Some (JStr pid), Some (JStr name) =>
      if String.eqb pid (userPoolId u) then
        match (match field "UserAttributes" req with
               | None => Some []
               | Some (JArr js) => decode_user_attrs js
               | Some _ => None
               end) with
        | Some attrs =>
            match pool w !! name with
            | Some _ => (w, inl username_exists)
            | None => (with_pool w (<[name := attrs]> (pool w)),
                       inr (user_response name attrs))
            end
        | None => (w, inl (invalid_parameter "Invalid UserAttributes"))
        end
      else (w, inl pool_not_found)
  | _, _ => (w, inl (invalid_parameter "UserPoolId and Username are required"))
  end.

(** The SDK integration: service and action select the operation. *)
Definition call_aws (t : ITable) (u : IUserPool) (w : World)
    (service action : string) (req : json) : World * (Fault + json) :=
  if String.eqb service "dynamodb" then
    if String.eqb action "getItem" then getItem t w req
    else if String.eqb action "updateItem" then updateItem t w req
    else if String.eqb action "deleteItem" then deleteItem t w req
    else if String.eqb action "transactWriteItems" then transactWriteItems t w req
    else (w, inl {| Error := "States.TaskFailed"; Cause := "Unsupported action" |})
  else if String.eqb service "cognitoidentityprovider" then
    if String.eqb action "adminCreateUser" then adminCreateUser u w req
    else (w, inl {| Error := "States.TaskFailed"; Cause := "Unsupported action" |})
  else (w, inl {| Error := "States.TaskFailed"; Cause := "Unsupported service" |}).

End Aws.
Export Aws.

(* ===================================================================== *)
(** * Executing the state machine *)
(* ===================================================================== *)

Module Exec.

(** Where the data flow of a state can break: the state named by a
    transition does not exist, a path or intrinsic of Parameters or of
    ResultSelector cannot be evaluated, or ResultPath cannot be applied to
    the state input. *)
Inductive stage : Type :=
| AtState
| AtParameters
| AtResultSelector
| AtResultPath.

(** Where an execution stands: about to enter a state with a state input,
    or ended. A failed execution carries the error and cause of the fault
    or of the Fail state, if any. An aborted execution was ended by the
    platform at a data-flow failure. The platform reports such a failure
    under an error name and cause of its own, which are not part of the
    definition and are left open here: only the stage is recorded. The
    catchers of this machine name errors of the two services and no
    wildcard, so none of them intercepts a data-flow failure. *)
Inductive status : Type :=
| Running (cur : string) (doc : json)
| Succeeded (output : json)
| Failed (error cause : option string)
| Aborted (at_stage : stage).

Definition error_output (f : Fault) : json :=
  JObj [("Error", JStr (Error f)); ("Cause", JStr (Cause f))].

(** ErrorEquals: the error name itself, or the wildcard. *)
Definition catcher_matches (c : CatchProps.t) (f : Fault) : bool :=
  existsb (fun e => String.eqb e (Error f) || String.eqb e "States.ALL")
          (CatchProps.errors c).

Fixpoint find_catcher (cs : list (CatchProps.t * string)) (f : Fault)
  : option (CatchProps.t * string) :=
  match cs with
  | [] => None
  | (c, h) :: rest => if catcher_matches c f then Some (c, h) else find_catcher rest f
  end.

(** Leaving a state: to its Next, or the execution ends successfully. *)
Definition leave (st : State) (doc : json) : status :=
  match nextState st with
  | Some n => Running n doc
  | None => Succeeded doc
  end.

(** A fault of the task: the first matching catcher puts the error output
    into the state input at its ResultPath and names the next state; with
    no matching catcher the execution fails with the fault. *)
Definition handle_fault (st : State) (input : json) (f : Fault) : status :=
  match find_catcher (catches st) f with
  | Some (c, handler) =>
      match Asl.apply_result_path (renderResultPath (CatchProps.resultPath c))
                                  input (error_output f) with
      | Some doc' => Running handler doc'
      | None => Aborted AtResultPath
      end
  | None => Failed (Some (Error f)) (Some (Cause f))
  end.

(** A result of the task: through ResultSelector, then ResultPath. *)
Definition handle_result (p : CallAwsServiceProps) (st : State)
    (input result : json) : status :=
  match (match resultSelector p with
         | Some sel => Asl.eval_template sel result
         | None => Some result
         end) with
  | Some r =>
      match Asl.apply_result_path (renderResultPath (resultPath p)) input r with
      | Some doc' => leave st doc'
      | None => Aborted AtResultPath
      end
  | None => Aborted AtResultSelector
  end.

(** One state, given its state object. [inject] is a fault the environment
    raises in place of the call (throttling, an outage, a timeout): the
    call then has no effect. *)
Definition step_state (t : ITable) (u : IUserPool) (st : State)
    (inject : option Fault) (w : World) (doc : json) : World * status :=
  match kind st with
  | Pass => (w, leave st doc)
  | Fail e c => (w, Failed e c)
  | Task p =>
      match Asl.eval_template (parameters p) doc with
      | None => (w, Aborted AtParameters)
      | Some req =>
          match inject with
          | Some f => (w, handle_fault st doc f)
          | None =>
              match call_aws t u w (service p) (action p) req with
              | (w', inl f) => (w', handle_fault st doc f)
              | (w', inr res) => (w', handle_result p st doc res)
              end
          end
      end
  end.

Definition step (t : ITable) (u : IUserPool) (g : gmap string State)
    (inject : option Fault) (w : World) (cur : string) (doc : json)
  : World * status :=
  match g !! cur with
  | None => (w, Aborted AtState)
  | Some st => step_state t u st inject w doc
  end.

(** A run under a schedule of environment faults, one entry per state
    entered; the run stops at the end of the execution or of the
    schedule. *)
Fixpoint run (t : ITable) (u : IUserPool) (g : gmap string State)
    (schedule : list (option Fault)) (w : World) (cur : string) (doc : json)
  : World * status :=
  match schedule with
  | [] => (w, Running cur doc)
  | ev :: rest =>
      match step t u g ev w cur doc with
      | (w', Running n doc') => run t u g rest w' n doc'
      | r => r
      end
  end.

End Exec.
Export Exec.

(* ===================================================================== *)
(** * Reasoning support *)
(* ===================================================================== *)

Arguments Json.get_path : simpl never.
Arguments Asl.parse : simpl never.
Arguments Dec.show : simpl never.
Arguments Dec.read : simpl never.
Arguments Aws.parse_condition : simpl never.
Arguments Aws.parse_update : simpl never.

Module Facts.

(** ** Decimal text *)

Lemma to_int_not_nil z :
  Z.to_int z <> Decimal.Pos Nil /\ Z.to_int z <> Decimal.Neg Nil.
Proof.
  destruct z as [|p|p]; simpl; split; try discriminate.
  - intros [= H]. revert H. apply Unsigned.to_uint_nonnil.
  - intros [= H]. revert H. apply Unsigned.to_uint_nonnil.
Qed.

Lemma read_show z : Dec.read (Dec.show z) = Some z.
Proof.
  unfold Dec.read, Dec.show.
  destruct (to_int_not_nil z) as [H1 H2].
  rewrite NilZero.isi by assumption.
  now rewrite DecimalZ.of_to.
Qed.

Lemma show_inj a b : Dec.show a = Dec.show b -> a = b.
Proof.
  intros H.
  assert (E : Dec.read (Dec.show a) = Dec.read (Dec.show b)) by now rewrite H.
  rewrite !read_show in E. congruence.
Qed.

(** ** Strings *)

Lemma append_empty s : (s ++ EmptyString)%string = s.
Proof.
  induction s as [|a s IH]; [reflexivity|].
  change (String a (s ++ EmptyString)%string = String a s). now rewrite IH.
Qed.

Lemma eqb_neq_false (a b : string) : a <> b -> String.eqb a b = false.
Proof. intros H. now apply String.eqb_neq. Qed.

(** ** Objects and paths *)

Lemma assoc_set_eq {A} k (v : A) kvs : assoc k (assoc_set k v kvs) = Some v.
Proof.
  induction kvs as [|[k' v'] rest IH]; simpl.
  - now rewrite String.eqb_refl.
  - destruct (String.eqb k k') eqn:E; simpl.
    + now rewrite String.eqb_refl.
    + now rewrite E.
Qed.

Lemma assoc_set_ne {A} k k' (v : A) kvs :
  k <> k' -> assoc k' (assoc_set k v kvs) = assoc k' kvs.
Proof.
  intros Hne. induction kvs as [|[k0 v0] rest IH]; simpl.
  - rewrite eqb_neq_false by congruence. reflexivity.
  - destruct (String.eqb k k0) eqn:E; simpl.
    + apply String.eqb_eq in E. subst k0.
      rewrite !eqb_neq_false by congruence. reflexivity.
    + destruct (String.eqb k' k0); [reflexivity | exact IH].
Qed.

Lemma assoc_map {A B} (f : A -> B) k (kvs : list (string * A)) :
  assoc k (map (fun kv => (fst kv, f (snd kv))) kvs) = f <$> assoc k kvs.
Proof.
  induction kvs as [|[k' v] rest IH]; simpl; [reflexivity|].
  destruct (String.eqb k k'); [reflexivity | exact IH].
Qed.

Lemma get_path_nil j : get_path [] j = Some j.
Proof. reflexivity. Qed.

Lemma get_path_cons k rest j :
  get_path (k :: rest) j =
  match field k j with Some j' => get_path rest j' | None => None end.
Proof. reflexivity. Qed.

Lemma get_path_field k j : get_path [k] j = field k j.
Proof. rewrite get_path_cons. destruct (field k j); reflexivity. Qed.

(** Writing one top-level member leaves every other member as it was. *)
Lemma set_member_frame k v j j' k' rest :
  set_path [k] v j = Some j' -> k' <> k ->
  get_path (k' :: rest) j' = get_path (k' :: rest) j.
Proof.
  destruct j as [| | | | |kvs]; simpl; try discriminate.
  intros [= <-] Hne. rewrite !get_path_cons. simpl.
  rewrite assoc_set_ne by congruence. reflexivity.
Qed.

Lemma set_member_read k v j j' :
  set_path [k] v j = Some j' -> field k j' = Some v.
Proof.
  destruct j as [| | | | |kvs]; simpl; try discriminate.
  intros [= <-]. simpl. apply assoc_set_eq.
Qed.

Lemma set_member_object k v j j' :
  set_path [k] v j = Some j' ->
  exists kvs, j = JObj kvs /\ j' = JObj (assoc_set k v kvs).
Proof.
  destruct j as [| | | | |kvs]; simpl; try discriminate.
  intros [= <-]. eauto.
Qed.

(** ** The constructs a builder creates *)

(** The state kind a builder method leaves in an empty construct tree. *)
Definition created (b : Build string) : StateKind :=
  match b ∅ with
  | Some (id, g) =>
      match g !! id with
      | Some st => kind st
      | None => Pass
      end
  | None => Pass
  end.

Lemma created_new id p : created (new_CallAwsService id p) = Task p.
Proof.
  unfold created, new_CallAwsService, construct.
  rewrite lookup_empty, lookup_insert_eq. reflexivity.
Qed.

End Facts.
Import Facts.

(* ===================================================================== *)
(** * The saga *)
(* ===================================================================== *)

Module Saga.

(** ** The texts of the source, parsed *)

Lemma parse_previousUserId_selector :
  Asl.parse "$.Item.LastId.N" = Some (Asl.EPath ["Item"; "LastId"; "N"]).
Proof. vm_compute. reflexivity. Qed.

Lemma parse_userId_selector :
  Asl.parse "States.Format('{}', States.MathAdd(States.StringToJson($.Item.LastId.N), 1))"
  = Some (Asl.ECall "States.Format"
            [Asl.EStr "{}";
             Asl.ECall "States.MathAdd"
               [Asl.ECall "States.StringToJson" [Asl.EPath ["Item"; "LastId"; "N"]];
                Asl.ENum 1]]).
Proof. vm_compute. reflexivity. Qed.

Lemma parse_profile_key_format :
  Asl.parse "States.Format('USERPROFILE#{}', $.context.userId)"
  = Some (Asl.ECall "States.Format"
            [Asl.EStr "USERPROFILE#{}"; Asl.EPath ["context"; "userId"]]).
Proof. vm_compute. reflexivity. Qed.

Lemma parse_context_userId :
  Asl.parse "$.context.userId" = Some (Asl.EPath ["context"; "userId"]).
Proof. vm_compute. reflexivity. Qed.

Lemma parse_context_previousUserId :
  Asl.parse "$.context.previousUserId" = Some (Asl.EPath ["context"; "previousUserId"]).
Proof. vm_compute. reflexivity. Qed.

Lemma parse_firstName : Asl.parse "$.firstName" = Some (Asl.EPath ["firstName"]).
Proof. vm_compute. reflexivity. Qed.

Lemma parse_lastName : Asl.parse "$.lastName" = Some (Asl.EPath ["lastName"]).
Proof. vm_compute. reflexivity. Qed.

Lemma parse_emailAddress : Asl.parse "$.emailAddress" = Some (Asl.EPath ["emailAddress"]).
Proof. vm_compute. reflexivity. Qed.

Lemma parse_phoneNumber : Asl.parse "$.phoneNumber" = Some (Asl.EPath ["phoneNumber"]).
Proof. vm_compute. reflexivity. Qed.

Lemma parse_condition_counter :
  parse_condition "LastId = :previousUserId" = Some (CEquals "LastId" ":previousUserId").
Proof. vm_compute. reflexivity. Qed.

Lemma parse_condition_fresh :
  parse_condition "attribute_not_exists(PK)" = Some (CAttributeNotExists "PK").
Proof. vm_compute. reflexivity. Qed.

Lemma parse_update_counter :
  parse_update "SET LastId = :newUserId" = Some (USet "LastId" ":newUserId").
Proof. vm_compute. reflexivity. Qed.

Ltac parse_known :=
  unfold Asl.eval_string;
  rewrite ?parse_previousUserId_selector, ?parse_userId_selector,
    ?parse_profile_key_format, ?parse_context_userId,
    ?parse_context_previousUserId, ?parse_firstName, ?parse_lastName,
    ?parse_emailAddress, ?parse_phoneNumber,
    ?parse_condition_counter, ?parse_condition_fresh, ?parse_update_counter.

(** ** Names *)

(** The key of the single counter record. *)
Definition metadata_key : string * string := ("USERMETADATA", "USERMETADATA").

(** The key of the profile record of a user id. *)
Definition profile_key (uid : string) : string * string :=
  ("USERPROFILE#" ++ uid, "USERPROFILE#" ++ uid).

(** The stored value of [LastId], when the counter record exists and holds
    a number. *)
Definition counter_of (it : option (list (string * attr))) : option Z :=
  match it with
  | Some attrs => match assoc "LastId" attrs with Some (AN n) => Some n | _ => None end
  | None => None
  end.

Definition counter (w : World) : option Z := counter_of (table w !! metadata_key).

(** The two ids the allocator leaves in the state input. *)
Definition has_context (doc : json) (prev uid : string) : Prop :=
  get_path ["context"; "previousUserId"] doc = Some (JStr prev) /\
  get_path ["context"; "userId"] doc = Some (JStr uid).

Definition context (prev uid : string) : json :=
  JObj [("previousUserId", JStr prev); ("userId", JStr uid)].

Lemma profile_key_inj a b : profile_key a = profile_key b -> a = b.
Proof. unfold profile_key. intros [= H _]. exact H. Qed.

Lemma profile_key_not_metadata uid : profile_key uid <> metadata_key.
Proof. unfold profile_key, metadata_key. intros [= H _]. Qed.

(** ** The step graph *)

(** The states a state can hand control to, with the way it does: [None]
    for Next, [Some errors] for a catcher of those error names. *)
Definition successors (st : State) : list (option (list string) * string) :=
  (match nextState st with Some n => [(None, n)] | None => [] end ++
   map (fun c => (Some (CatchProps.errors (fst c)), snd c)) (catches st))%list.

Definition transition (g : gmap string State) (a : string)
    (via : option (list string)) (b : string) : Prop :=
  exists st, g !! a = Some st /\ (via, b) ∈ successors st.

Definition edges (g : gmap string State)
  : list (string * option (list string) * string) :=
  kv ← map_to_list g; (fun s => (fst kv, fst s, snd s)) <$> successors (snd kv).

Lemma transition_edges g a via b : transition g a via b <-> (a, via, b) ∈ edges g.
Proof.
  unfold transition, edges. rewrite list_elem_of_bind. split.
  - intros (st & Hst & Hin). exists (a, st). split.
    + apply list_elem_of_fmap. exists (via, b). split; [reflexivity | exact Hin].
    + apply elem_of_map_to_list. exact Hst.
  - intros ([a' st] & Hin & Hmap). apply elem_of_map_to_list in Hmap.
    apply list_elem_of_fmap in Hin. destruct Hin as ([via' b'] & Heq & Hin).
    simpl in Heq. injection Heq as -> -> ->.
    exists st. split; assumption.
Qed.

(** The happy path and the two compensations. *)
Definition saga_edges : list (string * option (list string) * string) :=
  [("FindLastId", None, "CreateDynamoDBUser");
   ("CreateDynamoDBUser", None, "CreateCognitoUser");
   ("CreateCognitoUser", None, "Pass");
   ("CreateDynamoDBUser",
    Some ["DynamoDB.ConditionalCheckFailedException";
          "DynamoDb.TransactionCanceledException"],
    "CorrectLastId");
   ("CorrectLastId", None, "FindLastId");
   ("CreateCognitoUser",
    Some ["CognitoIdentityProvider.UsernameExistsException"],
    "RollbackUser");
   ("RollbackUser", None, "Fail")].

Section Machine.

Variables (t : ITable) (u : IUserPool).

(** The states of the deployed definition. *)
Definition graph : gmap string State :=
  match definition t u with
  | Some d => states d
  | None => ∅
  end.

Lemma definition_built :
  definition t u = Some {| states := graph; startAt := "FindLastId" |}.
Proof. vm_compute. reflexivity. Qed.

Definition FindLastId : State :=
  {| kind := created (buildFindLastId t);
     nextState := Some "CreateDynamoDBUser";
     catches := [] |}.

Definition CreateDynamoDBUser : State :=
  {| kind := created (buildCreateDynamoDBUser t);
     nextState := Some "CreateCognitoUser";
     catches := [({| CatchProps.errors :=
                       ["DynamoDB.ConditionalCheckFailedException";
                        "DynamoDb.TransactionCanceledException"];
                     CatchProps.resultPath := Some "$.error" |},
                  "CorrectLastId")] |}.

Definition CreateCognitoUser : State :=
  {| kind := created (buildCreateCognitoUser u);
     nextState := Some "Pass";
     catches := [({| CatchProps.errors :=
                       ["CognitoIdentityProvider.UsernameExistsException"];
                     CatchProps.resultPath := Some "$.error" |},
                  "RollbackUser")] |}.

Definition CorrectLastId : State :=
  {| kind := created (buildCorrectLastId t);
     nextState := Some "FindLastId";
     catches := [] |}.

Definition RollbackUser : State :=
  {| kind := created (buildRollbackUser t);
     nextState := Some "Fail";
     catches := [] |}.

Lemma graph_FindLastId : graph !! "FindLastId" = Some FindLastId.
Proof. vm_compute. reflexivity. Qed.

Lemma graph_CreateDynamoDBUser : graph !! "CreateDynamoDBUser" = Some CreateDynamoDBUser.
Proof. vm_compute. reflexivity. Qed.

Lemma graph_CreateCognitoUser : graph !! "CreateCognitoUser" = Some CreateCognitoUser.
Proof. vm_compute. reflexivity. Qed.

Lemma graph_CorrectLastId : graph !! "CorrectLastId" = Some CorrectLastId.
Proof. vm_compute. reflexivity. Qed.

Lemma graph_RollbackUser : graph !! "RollbackUser" = Some RollbackUser.
Proof. vm_compute. reflexivity. Qed.

Lemma graph_Pass :
  graph !! "Pass" = Some {| kind := Pass; nextState := None; catches := [] |}.
Proof. vm_compute. reflexivity. Qed.

Lemma graph_Fail :
  graph !! "Fail" = Some {| kind := Fail None None; nextState := None; catches := [] |}.
Proof. vm_compute. reflexivity. Qed.

Lemma edges_graph :
  edges graph =
    [("CorrectLastId", None, "FindLastId");
     ("CreateCognitoUser", None, "Pass");
     ("CreateCognitoUser",
      Some ["CognitoIdentityProvider.UsernameExistsException"], "RollbackUser");
     ("CreateDynamoDBUser", None, "CreateCognitoUser");
     ("CreateDynamoDBUser",
      Some ["DynamoDB.ConditionalCheckFailedException";
            "DynamoDb.TransactionCanceledException"], "CorrectLastId");
     ("FindLastId", None, "CreateDynamoDBUser");
     ("RollbackUser", None, "Fail")].
Proof. vm_compute. reflexivity. Qed.

Lemma end_state_names :
  (fun kv : string * State => fst kv) <$>
    filter (fun kv => nextState (snd kv) = None) (map_to_list graph)
  = ["Fail"; "Pass"].
Proof. vm_compute. reflexivity. Qed.

(** ** Stepping through the graph *)

Lemma step_at cur st inject w doc :
  graph !! cur = Some st ->
  step t u graph inject w cur doc = step_state t u st inject w doc.
Proof. intros H. unfold step. rewrite H. reflexivity. Qed.

Lemma handle_fault_uncaught st doc f :
  catches st = [] ->
  handle_fault st doc f = Failed (Some (Error f)) (Some (Cause f)).
Proof. intros H. unfold handle_fault. rewrite H. reflexivity. Qed.

(** *** FindLastId *)

Lemma selector_read it :
  get_path ["Item"; "LastId"; "N"] (JObj [("Item", encode_item it)]) =
  match assoc "LastId" it with
  | Some (AN n) => Some (JStr (Dec.show n))
  | _ => None
  end.
Proof.
  rewrite get_path_cons. cbn [field assoc String.eqb Ascii.eqb Bool.eqb].
  rewrite get_path_cons. unfold encode_item. cbn [field]. rewrite assoc_map.
  destruct (assoc "LastId" it) as [[s|n]|]; reflexivity.
Qed.

(** What the allocator does, in every case: an injected fault is fatal (the
    state has no catcher); otherwise the counter record is read from the
    table and the two ids are written under [$.context]. *)
Lemma step_FindLastId inject w doc :
  step t u graph inject w "FindLastId" doc =
  match inject with
  | Some f => (w, Failed (Some (Error f)) (Some (Cause f)))
  | None =>
      match counter w with
      | Some n =>
          match set_path ["context"]
                  (context (Dec.show n) (Dec.show (n + 1))) doc with
          | Some doc' => (w, Running "CreateDynamoDBUser" doc')
          | None => (w, Aborted AtResultPath)
          end
      | None => (w, Aborted AtResultSelector)
      end
  end.
Proof.
  rewrite (step_at _ _ _ _ _ graph_FindLastId).
  unfold step_state, FindLastId. cbn [kind].
  unfold buildFindLastId. rewrite created_new. cbn.
  destruct inject as [f|]; [reflexivity|].
  unfold getItem, table_named. cbn. rewrite String.eqb_refl. cbn.
  unfold counter, counter_of. fold metadata_key.
  destruct (table w !! metadata_key) as [it|] eqn:Hit.
  - unfold handle_result. cbn. parse_known. cbn.
    rewrite selector_read.
    destruct (assoc "LastId" it) as [[s|n]|]; try reflexivity.
    cbn. rewrite read_show. cbn. rewrite append_empty.
    destruct doc; reflexivity.
  - unfold handle_result. cbn. parse_known. cbn. reflexivity.
Qed.

(** *** Catchers *)

(** The fault names the write step catches. *)
Definition write_caught (f : Fault) : bool :=
  String.eqb "DynamoDB.ConditionalCheckFailedException" (Error f) ||
  String.eqb "DynamoDb.TransactionCanceledException" (Error f).

(** The fault name the registration step catches. *)
Definition register_caught (f : Fault) : bool :=
  String.eqb "CognitoIdentityProvider.UsernameExistsException" (Error f).

Lemma literal_not_wildcard a b :
  String.eqb a b = false -> forall x, String.eqb a x || String.eqb a b = String.eqb a x.
Proof. intros H x. rewrite H. apply orb_false_r. Qed.

Lemma handle_fault_write doc f :
  handle_fault CreateDynamoDBUser doc f =
  if write_caught f then
    match set_path ["error"] (error_output f) doc with
    | Some doc' => Running "CorrectLastId" doc'
    | None => Aborted AtResultPath
    end
  else Failed (Some (Error f)) (Some (Cause f)).
Proof.
  unfold handle_fault, CreateDynamoDBUser, write_caught.
  cbn [catches find_catcher catcher_matches CatchProps.errors existsb].
  rewrite !literal_not_wildcard by reflexivity. rewrite orb_false_r.
  destruct (_ || _); reflexivity.
Qed.

Lemma handle_fault_register doc f :
  handle_fault CreateCognitoUser doc f =
  if register_caught f then
    match set_path ["error"] (error_output f) doc with
    | Some doc' => Running "RollbackUser" doc'
    | None => Aborted AtResultPath
    end
  else Failed (Some (Error f)) (Some (Cause f)).
Proof.
  unfold handle_fault, CreateCognitoUser, register_caught.
  cbn [catches find_catcher catcher_matches CatchProps.errors existsb].
  rewrite !literal_not_wildcard by reflexivity. rewrite orb_false_r.
  destruct (String.eqb _ _); reflexivity.
Qed.

(** *** Pass and Fail *)

Lemma step_Pass inject w doc :
  step t u graph inject w "Pass" doc = (w, Succeeded doc).
Proof. rewrite (step_at _ _ _ _ _ graph_Pass). reflexivity. Qed.

Lemma step_Fail inject w doc :
  step t u graph inject w "Fail" doc = (w, Failed None None).
Proof. rewrite (step_at _ _ _ _ _ graph_Fail). reflexivity. Qed.

(** *** The conditional counter update *)

(** The counter record holds exactly [p]. *)
Definition counter_is (tb : gmap (string * string) (list (string * attr))) (p : Z) : bool :=
  match tb !! metadata_key with
  | Some it =>
      match assoc "LastId" it with
      | Some v => attr_eqb v (AN p)
      | None => false
      end
  | None => false
  end.

(** The counter record with [LastId] set to [q]. *)
Definition advance (tb : gmap (string * string) (list (string * attr))) (q : Z)
  : gmap (string * string) (list (string * attr)) :=
  <[metadata_key :=
      assoc_set "LastId" (AN q)
        (match tb !! metadata_key with Some it => it | None => key_attrs metadata_key end)]> tb.

Lemma counter_is_spec tb p :
  counter_is tb p = true <-> counter_of (tb !! metadata_key) = Some p.
Proof.
  unfold counter_is, counter_of.
  destruct (tb !! metadata_key) as [it|]; [|split; discriminate].
  destruct (assoc "LastId" it) as [[s|n]|]; simpl; try (split; discriminate).
  rewrite Z.eqb_eq. split; congruence.
Qed.

Lemma counter_advance tb q : counter_of (advance tb q !! metadata_key) = Some q.
Proof.
  unfold advance, counter_of. rewrite lookup_insert_eq, assoc_set_eq. reflexivity.
Qed.

Lemma advance_other tb q k : k <> metadata_key -> advance tb q !! k = tb !! k.
Proof. intros H. unfold advance. rewrite lookup_insert_ne by congruence. reflexivity. Qed.

(** The decoded counter update: the one write both the corrector and the
    second member of the transaction ask for. *)
Definition counter_update (p q : Z) : write_op :=
  {| op_key := metadata_key;
     op_write := WUpdate (USet "LastId" ":newUserId");
     op_cond := Some (CEquals "LastId" ":previousUserId");
     op_vals := [(":previousUserId", AN p); (":newUserId", AN q)] |}.

Lemma check_counter_update tb p q :
  check_op tb (counter_update p q) = Some (counter_is tb p).
Proof.
  unfold check_op, counter_update, counter_is. cbn.
  destruct (tb !! metadata_key) as [it|]; reflexivity.
Qed.

Lemma apply_counter_update tb p q :
  apply_op tb (counter_update p q) = Some (advance tb q).
Proof. unfold apply_op, counter_update, advance. cbn. reflexivity. Qed.

Lemma has_context_object doc prev uid :
  has_context doc prev uid -> exists kvs, doc = JObj kvs.
Proof.
  intros [H _]. rewrite get_path_cons in H.
  destruct doc; try discriminate. eauto.
Qed.

(** *** CorrectLastId *)

Definition corrector_request (prev uid : string) : json :=
  JObj [("TableName", JStr (tableName t));
        ("ConditionExpression", JStr "LastId = :previousUserId");
        ("UpdateExpression", JStr "SET LastId = :newUserId");
        ("ExpressionAttributeValues",
         JObj [(":previousUserId", JObj [("N", JStr prev)]);
               (":newUserId", JObj [("N", JStr uid)])]);
        ("Key", JObj [("PK", JObj [("S", JStr "USERMETADATA")]);
                      ("SK", JObj [("S", JStr "USERMETADATA")])])].

Lemma corrector_parameters doc prev uid p :
  kind CorrectLastId = Task p ->
  has_context doc prev uid ->
  Asl.eval_template (parameters p) doc = Some (corrector_request prev uid).
Proof.
  unfold CorrectLastId. cbn [kind]. unfold buildCorrectLastId. rewrite created_new.
  intros [= <-] [Hp Hu]. cbn. parse_known. cbn. rewrite Hp, Hu. reflexivity.
Qed.

Lemma corrector_decodes p q :
  decode_update (corrector_request (Dec.show p) (Dec.show q)) = Some (counter_update p q).
Proof.
  unfold decode_update, corrector_request. cbn. parse_known. cbn.
  rewrite !read_show. reflexivity.
Qed.

(** The corrector in every case: with no catcher, any fault of the call
    ends the execution; the update goes through exactly when the counter
    still holds the previous id. *)
Lemma step_CorrectLastId inject w doc p q :
  has_context doc (Dec.show p) (Dec.show q) ->
  step t u graph inject w "CorrectLastId" doc =
  match inject with
  | Some f => (w, Failed (Some (Error f)) (Some (Cause f)))
  | None =>
      if counter_is (table w) p then
        (with_table w (advance (table w) q),
         match set_path ["results"] (JObj []) doc with
         | Some doc' => Running "FindLastId" doc'
         | None => Aborted AtResultPath
         end)
      else (w, Failed (Some "DynamoDb.ConditionalCheckFailedException")
                      (Some "The conditional request failed"))
  end.
Proof.
  intros Hctx.
  rewrite (step_at _ _ _ _ _ graph_CorrectLastId).
  unfold step_state. destruct (kind CorrectLastId) as [pr| |] eqn:Hk;
    try (exfalso; revert Hk; unfold CorrectLastId; cbn [kind];
         unfold buildCorrectLastId; rewrite created_new; discriminate).
  rewrite (corrector_parameters _ _ _ _ Hk Hctx).
  destruct inject as [f|]; [apply (f_equal (pair w)), handle_fault_uncaught; reflexivity|].
  assert (Hs : service pr = "dynamodb" /\ action pr = "updateItem" /\
               resultSelector pr = None /\ resultPath pr = Some "$.results").
  { revert Hk. unfold CorrectLastId. cbn [kind]. unfold buildCorrectLastId.
    rewrite created_new. intros [= <-]. repeat split. }
  destruct Hs as (-> & -> & Hsel & Hrp).
  cbn [call_aws String.eqb Ascii.eqb Bool.eqb].
  unfold updateItem, single_write.
  replace (table_named t (corrector_request (Dec.show p) (Dec.show q))) with true
    by (unfold table_named, corrector_request; cbn; now rewrite String.eqb_refl).
  rewrite corrector_decodes, check_counter_update.
  destruct (counter_is (table w) p).
  - rewrite apply_counter_update. unfold handle_result. rewrite Hsel, Hrp.
    cbn. destruct doc; reflexivity.
  - reflexivity.
Qed.

(** *** CreateDynamoDBUser *)

(** The profile item the transaction puts. *)
Definition profile_item (uid fn ln em ph : string) : list (string * attr) :=
  [("PK", AS ("USERPROFILE#" ++ uid)); ("SK", AS ("USERPROFILE#" ++ uid));
   ("FirstName", AS fn); ("LastName", AS ln);
   ("EmailAddress", AS em); ("PhoneNumber", AS ph)].

Definition profile_put (uid fn ln em ph : string) : write_op :=
  {| op_key := profile_key uid;
     op_write := WPut (profile_item uid fn ln em ph);
     op_cond := Some (CAttributeNotExists "PK");
     op_vals := [] |}.

(** No item carrying a [PK] attribute is stored under the key. *)
Definition fresh (tb : gmap (string * string) (list (string * attr)))
    (k : string * string) : bool :=
  match tb !! k with
  | Some it => match assoc "PK" it with Some _ => false | None => true end
  | None => true
  end.

(** The caller's four profile fields, as strings. *)
Definition has_profile (doc : json) (fn ln em ph : string) : Prop :=
  get_path ["firstName"] doc = Some (JStr fn) /\
  get_path ["lastName"] doc = Some (JStr ln) /\
  get_path ["emailAddress"] doc = Some (JStr em) /\
  get_path ["phoneNumber"] doc = Some (JStr ph).

Definition update_member (prev uid : string) : json :=
  JObj [("ConditionExpression", JStr "LastId = :previousUserId");
        ("UpdateExpression", JStr "SET LastId = :newUserId");
        ("ExpressionAttributeValues",
         JObj [(":previousUserId", JObj [("N", JStr prev)]);
               (":newUserId", JObj [("N", JStr uid)])]);
        ("Key", JObj [("PK", JObj [("S", JStr "USERMETADATA")]);
                      ("SK", JObj [("S", JStr "USERMETADATA")])]);
        ("TableName", JStr (tableName t))].

Definition put_member (uid : string) (fn ln em ph : json) : json :=
  JObj [("Item",
         JObj [("PK", JObj [("S", JStr ("USERPROFILE#" ++ uid))]);
               ("SK", JObj [("S", JStr ("USERPROFILE#" ++ uid))]);
               ("FirstName", JObj [("S", fn)]);
               ("LastName", JObj [("S", ln)]);
               ("EmailAddress", JObj [("S", em)]);
               ("PhoneNumber", JObj [("S", ph)])]);
        ("ConditionExpression", JStr "attribute_not_exists(PK)");
        ("TableName", JStr (tableName t))].

Definition writer_request (prev uid : string) (fn ln em ph : json) : json :=
  JObj [("TransactItems",
         JArr [JObj [("Put", put_member uid fn ln em ph)];
               JObj [("Update", update_member prev uid)]])].

(** The request of the write step, for whatever the four caller fields
    hold; a missing field fails the evaluation. *)
Lemma writer_parameters doc prev uid p :
  kind CreateDynamoDBUser = Task p ->
  has_context doc prev uid ->
  Asl.eval_template (parameters p) doc =
  match get_path ["firstName"] doc, get_path ["lastName"] doc,
        get_path ["emailAddress"] doc, get_path ["phoneNumber"] doc with
  | Some fn, Some ln, Some em, Some ph => Some (writer_request prev uid fn ln em ph)
  | _, _, _, _ => None
  end.
Proof.
  unfold CreateDynamoDBUser. cbn [kind]. unfold buildCreateDynamoDBUser.
  rewrite created_new. intros [= <-] [Hp Hu]. cbn. parse_known. cbn.
  rewrite Hp, Hu. cbn. rewrite append_empty.
  destruct (get_path ["firstName"] doc); [|reflexivity].
  destruct (get_path ["lastName"] doc); [|reflexivity].
  destruct (get_path ["emailAddress"] doc); [|reflexivity].
  destruct (get_path ["phoneNumber"] doc); reflexivity.
Qed.

Lemma update_member_decodes p q :
  decode_update (update_member (Dec.show p) (Dec.show q)) = Some (counter_update p q).
Proof.
  unfold decode_update, update_member. cbn. parse_known. cbn.
  rewrite !read_show. reflexivity.
Qed.

Lemma put_member_decodes uid fn ln em ph :
  decode_put (put_member uid fn ln em ph) =
  match fn, ln, em, ph with
  | JStr a, JStr b, JStr c, JStr d => Some (profile_put uid a b c d)
  | _, _, _, _ => None
  end.
Proof.
  unfold decode_put, put_member. cbn [field assoc String.eqb Ascii.eqb Bool.eqb].
  destruct fn; try reflexivity.
  destruct ln; try reflexivity.
  destruct em; try reflexivity.
  destruct ph; reflexivity.
Qed.

Lemma member_table_named (kvs : list (string * json)) :
  assoc "TableName" kvs = Some (JStr (tableName t)) ->
  table_named t (JObj kvs) = true.
Proof. intros H. unfold table_named. cbn [field]. rewrite H. apply String.eqb_refl. Qed.

Lemma writer_decodes p q uid fn ln em ph :
  decode_transact_items t
    [JObj [("Put", put_member uid fn ln em ph)];
     JObj [("Update", update_member (Dec.show p) (Dec.show q))]]
  = match decode_put (put_member uid fn ln em ph) with
    | Some op => inr [op; counter_update p q]
    | None => inl (validation "Invalid transaction item")
    end.
Proof.
  cbn [decode_transact_items decode_transact_item].
  unfold put_member at 1. unfold update_member at 1.
  rewrite !member_table_named by reflexivity.
  fold (put_member uid fn ln em ph).
  fold (update_member (Dec.show p) (Dec.show q)).
  rewrite update_member_decodes.
  destruct (decode_put (put_member uid fn ln em ph)); reflexivity.
Qed.

Lemma check_profile_put tb uid fn ln em ph :
  check_op tb (profile_put uid fn ln em ph) = Some (fresh tb (profile_key uid)).
Proof.
  unfold check_op, profile_put, fresh. cbn.
  destruct (tb !! profile_key uid) as [it|]; [|reflexivity].
  destruct (assoc "PK" it); reflexivity.
Qed.

(** The table after the transaction: the profile is put, the counter
    advanced. *)
Definition committed (tb : gmap (string * string) (list (string * attr)))
    (uid fn ln em ph : string) (q : Z) : gmap (string * string) (list (string * attr)) :=
  advance (<[profile_key uid := profile_item uid fn ln em ph]> tb) q.

Lemma counter_is_put tb uid it p :
  counter_is (<[profile_key uid := it]> tb) p = counter_is tb p.
Proof.
  unfold counter_is. rewrite lookup_insert_ne by apply profile_key_not_metadata.
  reflexivity.
Qed.

(** The transaction of the write step: all or nothing. *)
Lemma transact_writer w p q fn ln em ph :
  transactWriteItems t w
    (writer_request (Dec.show p) (Dec.show q) (JStr fn) (JStr ln) (JStr em) (JStr ph)) =
  if fresh (table w) (profile_key (Dec.show q)) && counter_is (table w) p
  then (with_table w (committed (table w) (Dec.show q) fn ln em ph q), inr (JObj []))
  else (w, inl transaction_canceled).
Proof.
  unfold transactWriteItems, writer_request.
  cbn [field assoc String.eqb Ascii.eqb Bool.eqb].
  rewrite writer_decodes, put_member_decodes.
  cbn [map op_key profile_put counter_update distinct_keys].
  rewrite (bool_decide_eq_false_2 (profile_key (Dec.show q) ∈ [metadata_key])).
  2:{ intros H. apply list_elem_of_singleton in H.
      exact (profile_key_not_metadata _ H). }
  rewrite (bool_decide_eq_false_2 (metadata_key ∈ [])) by apply not_elem_of_nil.
  cbn [negb andb check_all].
  fold (profile_put (Dec.show q) fn ln em ph). fold (counter_update p q).
  rewrite check_profile_put, check_counter_update.
  cbn [andb]. rewrite andb_true_r.
  destruct (fresh (table w) (profile_key (Dec.show q)) && counter_is (table w) p);
    [|reflexivity].
  cbn [apply_all]. unfold apply_op at 1. cbn [op_write op_key profile_put].
  rewrite apply_counter_update. reflexivity.
Qed.

Lemma transact_writer_invalid w p q fn ln em ph :
  decode_put (put_member (Dec.show q) fn ln em ph) = None ->
  transactWriteItems t w (writer_request (Dec.show p) (Dec.show q) fn ln em ph) =
  (w, inl (validation "Invalid transaction item")).
Proof.
  intros H. unfold transactWriteItems, writer_request.
  cbn [field assoc String.eqb Ascii.eqb Bool.eqb].
  rewrite writer_decodes, H. reflexivity.
Qed.

Lemma writer_task :
  exists p, kind CreateDynamoDBUser = Task p /\
    service p = "dynamodb" /\ action p = "transactWriteItems" /\
    resultSelector p = None /\ resultPath p = Some JsonPath_DISCARD.
Proof.
  unfold CreateDynamoDBUser. cbn [kind]. unfold buildCreateDynamoDBUser.
  rewrite created_new. eexists. split; [reflexivity|]. repeat split.
Qed.

(** The write step in every case where the caller's fields are strings. *)
Lemma step_CreateDynamoDBUser inject w doc p q fn ln em ph :
  has_context doc (Dec.show p) (Dec.show q) ->
  has_profile doc fn ln em ph ->
  step t u graph inject w "CreateDynamoDBUser" doc =
  match inject with
  | Some f => (w, handle_fault CreateDynamoDBUser doc f)
  | None =>
      if fresh (table w) (profile_key (Dec.show q)) && counter_is (table w) p
      then (with_table w (committed (table w) (Dec.show q) fn ln em ph q),
            Running "CreateCognitoUser" doc)
      else (w, handle_fault CreateDynamoDBUser doc transaction_canceled)
  end.
Proof.
  intros Hctx (Hfn & Hln & Hem & Hph).
  rewrite (step_at _ _ _ _ _ graph_CreateDynamoDBUser).
  destruct writer_task as (pr & Hk & Hsv & Hac & Hsel & Hrp).
  unfold step_state. rewrite Hk.
  rewrite (writer_parameters _ _ _ _ Hk Hctx), Hfn, Hln, Hem, Hph.
  destruct inject as [f|]; [reflexivity|].
  rewrite Hsv, Hac. cbn [call_aws String.eqb Ascii.eqb Bool.eqb].
  rewrite transact_writer.
  destruct (fresh (table w) (profile_key (Dec.show q)) && counter_is (table w) p);
    [|reflexivity].
  unfold handle_result. rewrite Hsel, Hrp. reflexivity.
Qed.

Lemma write_fault_leaves doc f d :
  handle_fault CreateDynamoDBUser doc f <> Running "CreateCognitoUser" d.
Proof.
  rewrite handle_fault_write. destruct (write_caught f); [|discriminate].
  destruct (set_path _ _ _); discriminate.
Qed.

(** Leaving the write step towards registration means the transaction
    went through, whatever the caller's fields are. *)
Lemma step_CreateDynamoDBUser_success inject w doc p q w' doc' :
  has_context doc (Dec.show p) (Dec.show q) ->
  step t u graph inject w "CreateDynamoDBUser" doc = (w', Running "CreateCognitoUser" doc') ->
  inject = None /\ doc' = doc /\
  exists fn ln em ph,
    has_profile doc fn ln em ph /\
    fresh (table w) (profile_key (Dec.show q)) = true /\
    counter_is (table w) p = true /\
    w' = with_table w (committed (table w) (Dec.show q) fn ln em ph q).
Proof.
  intros Hctx.
  rewrite (step_at _ _ _ _ _ graph_CreateDynamoDBUser).
  destruct writer_task as (pr & Hk & Hsv & Hac & Hsel & Hrp).
  unfold step_state. rewrite Hk.
  rewrite (writer_parameters _ _ _ _ Hk Hctx).
  destruct (get_path ["firstName"] doc) as [fn|] eqn:Hfn; [|discriminate].
  destruct (get_path ["lastName"] doc) as [ln|] eqn:Hln; [|discriminate].
  destruct (get_path ["emailAddress"] doc) as [em|] eqn:Hem; [|discriminate].
  destruct (get_path ["phoneNumber"] doc) as [ph|] eqn:Hph; [|discriminate].
  destruct inject as [f|].
  { intros H. exfalso. apply (f_equal snd) in H. exact (write_fault_leaves _ _ _ H). }
  rewrite Hsv, Hac. cbn [call_aws String.eqb Ascii.eqb Bool.eqb].
  destruct (decode_put (put_member (Dec.show q) fn ln em ph)) as [op|] eqn:Hput.
  2:{ rewrite transact_writer_invalid by exact Hput.
      intros H. exfalso. apply (f_equal snd) in H. exact (write_fault_leaves _ _ _ H). }
  rewrite put_member_decodes in Hput.
  destruct fn as [| | |fn| |]; try discriminate.
  destruct ln as [| | |ln| |]; try discriminate.
  destruct em as [| | |em| |]; try discriminate.
  destruct ph as [| | |ph| |]; try discriminate.
  rewrite transact_writer.
  destruct (fresh (table w) (profile_key (Dec.show q))) eqn:Hfresh;
    destruct (counter_is (table w) p) eqn:Hcnt; cbn [andb];
    try (intros H; exfalso; apply (f_equal snd) in H; exact (write_fault_leaves _ _ _ H)).
  unfold handle_result. rewrite Hsel, Hrp. cbn.
  intros [= <- <-]. split; [reflexivity|]. split; [reflexivity|].
  exists fn, ln, em, ph. unfold has_profile. auto.
Qed.

(** *** CreateCognitoUser *)

Definition register_request (uid em : json) : json :=
  JObj [("UserPoolId", JStr (userPoolId u));
        ("Username", uid);
        ("UserAttributes",
         JArr [JObj [("Name", JStr "email"); ("Value", em)];
               JObj [("Name", JStr "email_verified"); ("Value", JStr "true")]])].

(** The attributes of the account the registration creates. *)
Definition account (em : string) : list (string * string) :=
  [("email", em); ("email_verified", "true")].

Lemma register_task :
  exists p, kind CreateCognitoUser = Task p /\
    service p = "cognitoidentityprovider" /\ action p = "adminCreateUser" /\
    resultSelector p = None /\ resultPath p = None.
Proof.
  unfold CreateCognitoUser. cbn [kind]. unfold buildCreateCognitoUser.
  rewrite created_new. eexists. split; [reflexivity|]. repeat split.
Qed.

Lemma register_parameters doc p :
  kind CreateCognitoUser = Task p ->
  Asl.eval_template (parameters p) doc =
  match get_path ["context"; "userId"] doc, get_path ["emailAddress"] doc with
  | Some uid, Some em => Some (register_request uid em)
  | _, _ => None
  end.
Proof.
  unfold CreateCognitoUser. cbn [kind]. unfold buildCreateCognitoUser.
  rewrite created_new. intros [= <-]. cbn. parse_known. cbn.
  destruct (get_path ["context"; "userId"] doc); [|reflexivity].
  destruct (get_path ["emailAddress"] doc); reflexivity.
Qed.

Lemma admin_create w uid em :
  adminCreateUser u w (register_request (JStr uid) (JStr em)) =
  match pool w !! uid with
  | Some _ => (w, inl username_exists)
  | None => (with_pool w (<[uid := account em]> (pool w)),
             inr (user_response uid (account em)))
  end.
Proof.
  unfold adminCreateUser, register_request. cbn. rewrite String.eqb_refl.
  reflexivity.
Qed.

(** With a username or an e-mail address that is not a string the call is
    refused before it touches the pool. *)
Lemma admin_create_invalid w uid em :
  (forall a b, (uid, em) <> (JStr a, JStr b)) ->
  exists f, adminCreateUser u w (register_request uid em) = (w, inl f) /\
            Error f = "CognitoIdentityProvider.InvalidParameterException".
Proof.
  intros H. unfold adminCreateUser, register_request. cbn.
  destruct uid as [| | |a| |]; try (eexists; split; reflexivity).
  rewrite String.eqb_refl.
  destruct em as [| | |b| |]; try (eexists; split; reflexivity).
  exfalso. exact (H a b eq_refl).
Qed.

Lemma register_fault_leaves doc f d :
  handle_fault CreateCognitoUser doc f <> Running "Pass" d.
Proof.
  rewrite handle_fault_register. destruct (register_caught f); [|discriminate].
  destruct (set_path _ _ _); discriminate.
Qed.

(** The registration step in every case where the user id and the e-mail
    address are strings. *)
Lemma step_CreateCognitoUser inject w doc uid em :
  get_path ["context"; "userId"] doc = Some (JStr uid) ->
  get_path ["emailAddress"] doc = Some (JStr em) ->
  step t u graph inject w "CreateCognitoUser" doc =
  match inject with
  | Some f => (w, handle_fault CreateCognitoUser doc f)
  | None =>
      match pool w !! uid with
      | Some _ => (w, handle_fault CreateCognitoUser doc username_exists)
      | None => (with_pool w (<[uid := account em]> (pool w)),
                 Running "Pass" (user_response uid (account em)))
      end
  end.
Proof.
  intros Hu He.
  rewrite (step_at _ _ _ _ _ graph_CreateCognitoUser).
  destruct register_task as (pr & Hk & Hsv & Hac & Hsel & Hrp).
  unfold step_state. rewrite Hk, (register_parameters _ _ Hk), Hu, He.
  destruct inject as [f|]; [reflexivity|].
  rewrite Hsv, Hac. cbn [call_aws String.eqb Ascii.eqb Bool.eqb].
  rewrite admin_create. destruct (pool w !! uid); [reflexivity|].
  unfold handle_result. rewrite Hsel, Hrp. reflexivity.
Qed.

Ltac refused w :=
  match goal with
  | |- context [adminCreateUser _ w (register_request ?x ?y)] =>
      let f := fresh "f" in
      let Hf := fresh "Hf" in
      let H := fresh "H" in
      destruct (admin_create_invalid w x y) as (f & Hf & _);
      [ intros ? ?; discriminate
      | rewrite Hf; intros H; exfalso; apply (f_equal snd) in H;
        exact (register_fault_leaves _ _ _ H) ]
  end.

(** Leaving the registration step towards [Pass] means the account was
    created under the user id of the state input. *)
Lemma step_CreateCognitoUser_success inject w doc w' doc' :
  step t u graph inject w "CreateCognitoUser" doc = (w', Running "Pass" doc') ->
  exists uid em,
    get_path ["context"; "userId"] doc = Some (JStr uid) /\
    get_path ["emailAddress"] doc = Some (JStr em) /\
    inject = None /\
    pool w !! uid = None /\
    w' = with_pool w (<[uid := account em]> (pool w)) /\
    doc' = user_response uid (account em).
Proof.
  rewrite (step_at _ _ _ _ _ graph_CreateCognitoUser).
  destruct register_task as (pr & Hk & Hsv & Hac & Hsel & Hrp).
  unfold step_state. rewrite Hk, (register_parameters _ _ Hk).
  destruct (get_path ["context"; "userId"] doc) as [uid|] eqn:Hu; [|discriminate].
  destruct (get_path ["emailAddress"] doc) as [em|] eqn:He; [|discriminate].
  destruct inject as [f|].
  { intros H. exfalso. apply (f_equal snd) in H. exact (register_fault_leaves _ _ _ H). }
  rewrite Hsv, Hac. cbn [call_aws String.eqb Ascii.eqb Bool.eqb].
  destruct uid as [| | |a| |]; try (refused w).
  destruct em as [| | |b| |]; try (refused w).
  rewrite admin_create. destruct (pool w !! a) eqn:Hp.
  { intros H. exfalso. apply (f_equal snd) in H. exact (register_fault_leaves _ _ _ H). }
  unfold handle_result. rewrite Hsel, Hrp. cbn. intros [= <- <-].
  exists a, b. auto 10.
Qed.

(** *** RollbackUser *)

Definition rollback_request (uid : string) : json :=
  JObj [("TableName", JStr (tableName t));
        ("Key", JObj [("PK", JObj [("S", JStr ("USERPROFILE#" ++ uid))]);
                      ("SK", JObj [("S", JStr ("USERPROFILE#" ++ uid))])])].

Lemma rollback_task :
  exists p, kind RollbackUser = Task p /\
    service p = "dynamodb" /\ action p = "deleteItem" /\
    resultSelector p = None /\ resultPath p = Some "$.results".
Proof.
  unfold RollbackUser. cbn [kind]. unfold buildRollbackUser.
  rewrite created_new. eexists. split; [reflexivity|]. repeat split.
Qed.

Lemma rollback_parameters doc uid p :
  kind RollbackUser = Task p ->
  get_path ["context"; "userId"] doc = Some (JStr uid) ->
  Asl.eval_template (parameters p) doc = Some (rollback_request uid).
Proof.
  unfold RollbackUser. cbn [kind]. unfold buildRollbackUser.
  rewrite created_new. intros [= <-] Hu. cbn. parse_known. cbn.
  rewrite Hu. cbn. rewrite append_empty. reflexivity.
Qed.

Lemma delete_profile w uid :
  deleteItem t w (rollback_request uid) =
  (with_table w (delete (profile_key uid) (table w)), inr (JObj [])).
Proof.
  unfold deleteItem, single_write, table_named, rollback_request. cbn.
  rewrite String.eqb_refl. reflexivity.
Qed.

(** The rollback in every case: it deletes the profile record of the user
    id in the state input and hands over to [Fail]; it has no catcher. *)
Lemma step_RollbackUser inject w doc uid :
  get_path ["context"; "userId"] doc = Some (JStr uid) ->
  step t u graph inject w "RollbackUser" doc =
  match inject with
  | Some f => (w, Failed (Some (Error f)) (Some (Cause f)))
  | None =>
      (with_table w (delete (profile_key uid) (table w)),
       match set_path ["results"] (JObj []) doc with
       | Some doc' => Running "Fail" doc'
       | None => Aborted AtResultPath
       end)
  end.
Proof.
  intros Hu.
  rewrite (step_at _ _ _ _ _ graph_RollbackUser).
  destruct rollback_task as (pr & Hk & Hsv & Hac & Hsel & Hrp).
  unfold step_state. rewrite Hk, (rollback_parameters _ _ _ Hk Hu).
  destruct inject as [f|]; [apply (f_equal (pair w)), handle_fault_uncaught; reflexivity|].
  rewrite Hsv, Hac. cbn [call_aws String.eqb Ascii.eqb Bool.eqb].
  rewrite delete_profile. unfold handle_result. rewrite Hsel, Hrp.
  cbn. destruct doc; reflexivity.
Qed.

(** ** The components, one by one *)

Definition with_replica (w : World)
    (r : gmap (string * string) (list (string * attr))) : World :=
  {| table := table w; replica := r; pool := pool w |}.

(** Every stored item carries the key it is stored under. *)
Definition keyed (tb : gmap (string * string) (list (string * attr))) : Prop :=
  forall k it, tb !! k = Some it -> key_of_item it = Some k.

Lemma fresh_keyed tb k : keyed tb -> fresh tb k = true -> tb !! k = None.
Proof.
  unfold fresh. intros Hk. destruct (tb !! k) as [it|] eqn:E; [|reflexivity].
  specialize (Hk _ _ E). unfold key_of_item in Hk.
  destruct (assoc "PK" it); [discriminate|]. discriminate.
Qed.

(** C3. Sequence Allocator: for every stored counter value [lastId], the
    task asks for a strongly consistent [getItem] of the counter record
    and leaves [previousUserId = lastId] and [userId = lastId + 1], both as
    decimal text, under [$.context]; the table, the replica and the pool
    are returned as they were, and a stale replica has no influence. *)
Theorem allocator_reads_counter (w : World) (kvs : list (string * json)) (lastId : Z) :
  counter w = Some lastId ->
  (exists p, kind FindLastId = Task p /\
     service p = "dynamodb" /\ action p = "getItem" /\
     field "ConsistentRead" (parameters p) = Some (JBool true)) /\
  step t u graph None w "FindLastId" (JObj kvs) =
    (w, Running "CreateDynamoDBUser"
          (JObj (assoc_set "context"
                   (JObj [("previousUserId", JStr (Dec.show lastId));
                          ("userId", JStr (Dec.show (lastId + 1)))]) kvs))) /\
  (forall stale,
     snd (step t u graph None (with_replica w stale) "FindLastId" (JObj kvs)) =
     snd (step t u graph None w "FindLastId" (JObj kvs))).
Proof.
  intros Hc. split; [|split].
  - unfold FindLastId. cbn [kind]. unfold buildFindLastId. rewrite created_new.
    eexists. split; [reflexivity|]. repeat split.
  - rewrite step_FindLastId, Hc. reflexivity.
  - intros stale. rewrite !step_FindLastId.
    replace (counter (with_replica w stale)) with (counter w) by reflexivity.
    rewrite Hc. reflexivity.
Qed.

(** The write step on its own: with the ids the allocator left ([userId]
    is [previousUserId + 1]) the task issues one [transactWriteItems] call
    whose two members decode to (a) a put of the profile item under the
    key of [userId] on condition [attribute_not_exists(PK)] and (b) the
    update [SET LastId = userId] of the counter record on condition
    [LastId = previousUserId]. The call is all or nothing: when the step
    goes on to registration the counter held [previousUserId] before and
    holds [previousUserId + 1] after, the profile record of the new id is
    there and was not before, and nothing else changed; in every other
    case the world is as it was. *)
Lemma writer_transaction (w : World) (doc : json) (p : Z)
    (fn ln em ph : string) :
  has_context doc (Dec.show p) (Dec.show (p + 1)) ->
  has_profile doc fn ln em ph ->
  let uid := Dec.show (p + 1) in
  let r := step t u graph None w "CreateDynamoDBUser" doc in
  (exists pr put upd,
     kind CreateDynamoDBUser = Task pr /\
     service pr = "dynamodb" /\ action pr = "transactWriteItems" /\
     Asl.eval_template (parameters pr) doc =
       Some (JObj [("TransactItems", JArr [JObj [("Put", put)]; JObj [("Update", upd)]])]) /\
     decode_put put = Some (profile_put uid fn ln em ph) /\
     decode_update upd = Some (counter_update p (p + 1))) /\
  (snd r = Running "CreateCognitoUser" doc ->
     counter w = Some p /\
     counter (fst r) = Some (p + 1) /\
     fresh (table w) (profile_key uid) = true /\
     (keyed (table w) -> table w !! profile_key uid = None) /\
     table (fst r) !! profile_key uid = Some (profile_item uid fn ln em ph) /\
     (forall k, k <> profile_key uid -> k <> metadata_key ->
                table (fst r) !! k = table w !! k) /\
     pool (fst r) = pool w) /\
  (snd r <> Running "CreateCognitoUser" doc -> fst r = w) /\
  (snd r = Running "CreateCognitoUser" doc <->
     fresh (table w) (profile_key uid) = true /\ counter w = Some p).
Proof.
  intros Hctx Hprof uid r.
  assert (Hr : r = if fresh (table w) (profile_key uid) && counter_is (table w) p
                   then (with_table w (committed (table w) uid fn ln em ph (p + 1)),
                         Running "CreateCognitoUser" doc)
                   else (w, handle_fault CreateDynamoDBUser doc transaction_canceled)).
  { unfold r. rewrite (step_CreateDynamoDBUser _ _ _ _ _ _ _ _ _ Hctx Hprof). reflexivity. }
  split; [|split; [|split]].
  - destruct writer_task as (pr & Hk & Hsv & Hac & _).
    exists pr, (put_member uid (JStr fn) (JStr ln) (JStr em) (JStr ph)),
           (update_member (Dec.show p) uid).
    split; [exact Hk|]. split; [exact Hsv|]. split; [exact Hac|].
    split; [|split].
    + rewrite (writer_parameters _ _ _ _ Hk Hctx).
      destruct Hprof as (-> & -> & -> & ->). reflexivity.
    + apply put_member_decodes.
    + apply update_member_decodes.
  - rewrite Hr.
    destruct (fresh (table w) (profile_key uid)) eqn:Hf;
      destruct (counter_is (table w) p) eqn:Hc; cbn [andb fst snd];
      try (intros H; exfalso; exact (write_fault_leaves _ _ _ H)).
    intros _. apply counter_is_spec in Hc.
    repeat split.
    + exact Hc.
    + unfold counter. cbn [table with_table]. apply counter_advance.
    + intros Hk. apply fresh_keyed; assumption.
    + cbn [table with_table]. unfold committed.
      rewrite advance_other by apply profile_key_not_metadata.
      apply lookup_insert_eq.
    + intros k Hk1 Hk2. cbn [table with_table]. unfold committed.
      rewrite advance_other by exact Hk2.
      rewrite lookup_insert_ne by congruence. reflexivity.
  - rewrite Hr.
    destruct (fresh (table w) (profile_key uid) && counter_is (table w) p);
      cbn [fst snd]; [intros H; exfalso; apply H; reflexivity | reflexivity].
  - rewrite Hr. unfold counter. rewrite <- counter_is_spec.
    destruct (fresh (table w) (profile_key uid));
      destruct (counter_is (table w) p); cbn [andb fst snd].
    + split; [intros _; split; reflexivity | intros _; reflexivity].
    + split; [intros H; exfalso; exact (write_fault_leaves _ _ _ H)
             | intros [_ H]; discriminate H].
    + split; [intros H; exfalso; exact (write_fault_leaves _ _ _ H)
             | intros [H _]; discriminate H].
    + split; [intros H; exfalso; exact (write_fault_leaves _ _ _ H)
             | intros [H _]; discriminate H].
Qed.

(** C8. Counter Corrector: for every [previousUserId] and [userId] in the
    state input, the request of the corrector and the Update member of the
    writer's transaction have the same members (table, key, condition,
    update, values), decode to the same write, and have the same effect on
    the world when run alone. *)
Theorem corrector_is_counter_half (doc : json) (prev uid : string) :
  has_context doc prev uid ->
  exists pc pw rc put upd,
    kind CorrectLastId = Task pc /\ kind CreateDynamoDBUser = Task pw /\
    service pc = "dynamodb" /\ action pc = "updateItem" /\
    Asl.eval_template (parameters pc) doc = Some rc /\
    (forall fn ln em ph, has_profile doc fn ln em ph ->
       Asl.eval_template (parameters pw) doc =
       Some (JObj [("TransactItems", JArr [put fn ln em ph; JObj [("Update", upd)]])])) /\
    (forall k, field k upd = field k rc) /\
    field "TableName" rc = Some (JStr (tableName t)) /\
    field "Key" rc = Some (JObj [("PK", JObj [("S", JStr "USERMETADATA")]);
                                 ("SK", JObj [("S", JStr "USERMETADATA")])]) /\
    field "ConditionExpression" rc = Some (JStr "LastId = :previousUserId") /\
    field "UpdateExpression" rc = Some (JStr "SET LastId = :newUserId") /\
    field "ExpressionAttributeValues" rc =
      Some (JObj [(":previousUserId", JObj [("N", JStr prev)]);
                  (":newUserId", JObj [("N", JStr uid)])]) /\
    decode_update upd = decode_update rc /\
    (forall w, fst (updateItem t w rc) =
               fst (transactWriteItems t w
                      (JObj [("TransactItems", JArr [JObj [("Update", upd)]])]))).
Proof.
  intros Hctx.
  destruct writer_task as (pw & Hkw & _).
  assert (Hkc : exists pc, kind CorrectLastId = Task pc /\
                  service pc = "dynamodb" /\ action pc = "updateItem").
  { unfold CorrectLastId. cbn [kind]. unfold buildCorrectLastId. rewrite created_new.
    eexists. repeat split. }
  destruct Hkc as (pc & Hkc & Hsv & Hac).
  exists pc, pw, (corrector_request prev uid),
    (fun fn ln em ph => JObj [("Put", put_member uid (JStr fn) (JStr ln) (JStr em) (JStr ph))]),
    (update_member prev uid).
  assert (Hfields : forall k, field k (update_member prev uid)
                              = field k (corrector_request prev uid)).
  { intros k. unfold update_member, corrector_request. cbn [field assoc].
    destruct (String.eqb_spec k "ConditionExpression") as [->|]; [reflexivity|].
    destruct (String.eqb_spec k "UpdateExpression") as [->|]; [reflexivity|].
    destruct (String.eqb_spec k "ExpressionAttributeValues") as [->|]; [reflexivity|].
    destruct (String.eqb_spec k "Key") as [->|]; [reflexivity|].
    destruct (String.eqb_spec k "TableName") as [->|]; reflexivity. }
  assert (Hdec : decode_update (update_member prev uid)
                 = decode_update (corrector_request prev uid)).
  { unfold decode_update, decode_cond, decode_vals. rewrite !Hfields. reflexivity. }
  repeat split; try assumption; try reflexivity.
  - apply corrector_parameters; assumption.
  - intros fn ln em ph Hprof. rewrite (writer_parameters _ _ _ _ Hkw Hctx).
    destruct Hprof as (-> & -> & -> & ->). reflexivity.
  - intros w. unfold updateItem, single_write, transactWriteItems.
    cbn [field assoc String.eqb Ascii.eqb Bool.eqb decode_transact_items
         decode_transact_item].
    replace (table_named t (corrector_request prev uid)) with true
      by (symmetry; apply member_table_named; reflexivity).
    replace (table_named t (update_member prev uid)) with true
      by (symmetry; apply member_table_named; reflexivity).
    rewrite Hdec.
    destruct (decode_update (corrector_request prev uid)) as [op|]; [|reflexivity].
    cbn [map distinct_keys].
    rewrite (bool_decide_eq_false_2 (op_key op ∈ [])) by apply not_elem_of_nil.
    cbn [negb andb check_all apply_all].
    destruct (check_op (table w) op) as [[|]|]; cbn [andb]; try reflexivity.
    destruct (apply_op (table w) op); reflexivity.
Qed.

(** C9. Identity Registrar: with [userId] and [emailAddress] in the state
    input, the task asks [adminCreateUser] for the username [userId] with
    the attribute [email] set to [emailAddress] and [email_verified] set to
    the literal ["true"]; when the username is free the account is created
    with exactly these attributes and the response replaces the state
    input. *)
Theorem registrar_creates_account (w : World) (doc : json) (uid em : string) :
  get_path ["context"; "userId"] doc = Some (JStr uid) ->
  get_path ["emailAddress"] doc = Some (JStr em) ->
  (exists pr, kind CreateCognitoUser = Task pr /\
     service pr = "cognitoidentityprovider" /\ action pr = "adminCreateUser" /\
     Asl.eval_template (parameters pr) doc =
       Some (JObj [("UserPoolId", JStr (userPoolId u));
                   ("Username", JStr uid);
                   ("UserAttributes",
                    JArr [JObj [("Name", JStr "email"); ("Value", JStr em)];
                          JObj [("Name", JStr "email_verified");
                                ("Value", JStr "true")]])])) /\
  (pool w !! uid = None ->
   step t u graph None w "CreateCognitoUser" doc =
     (with_pool w (<[uid := [("email", em); ("email_verified", "true")]]> (pool w)),
      Running "Pass" (user_response uid [("email", em); ("email_verified", "true")]))).
Proof.
  intros Hu He. split.
  - destruct register_task as (pr & Hk & Hsv & Hac & _).
    exists pr. repeat split; try assumption.
    rewrite (register_parameters _ _ Hk), Hu, He. reflexivity.
  - intros Hfree. rewrite (step_CreateCognitoUser _ _ _ _ _ Hu He), Hfree. reflexivity.
Qed.

(** ** Runs *)

Lemma run_running ev rest w cur doc w' n doc' :
  step t u graph ev w cur doc = (w', Running n doc') ->
  run t u graph (ev :: rest) w cur doc = run t u graph rest w' n doc'.
Proof. intros H. cbn [run]. rewrite H. reflexivity. Qed.

Lemma run_succeeded ev rest w cur doc w' out :
  step t u graph ev w cur doc = (w', Succeeded out) ->
  run t u graph (ev :: rest) w cur doc = (w', Succeeded out).
Proof. intros H. cbn [run]. rewrite H. reflexivity. Qed.

Lemma run_failed ev rest w cur doc w' e c :
  step t u graph ev w cur doc = (w', Failed e c) ->
  run t u graph (ev :: rest) w cur doc = (w', Failed e c).
Proof. intros H. cbn [run]. rewrite H. reflexivity. Qed.

Lemma run_aborted ev rest w cur doc w' a :
  step t u graph ev w cur doc = (w', Aborted a) ->
  run t u graph (ev :: rest) w cur doc = (w', Aborted a).
Proof. intros H. cbn [run]. rewrite H. reflexivity. Qed.

Lemma context_written a b kvs :
  has_context (JObj (assoc_set "context" (context a b) kvs)) a b.
Proof.
  unfold has_context. rewrite !get_path_cons. cbn [field].
  rewrite assoc_set_eq. split; reflexivity.
Qed.

Lemma has_context_frame doc doc' k v prev uid :
  set_path [k] v doc = Some doc' -> k <> "context" ->
  has_context doc prev uid -> has_context doc' prev uid.
Proof.
  intros Hs Hk [H1 H2]. unfold has_context.
  rewrite !(set_member_frame _ _ _ _ _ _ Hs) by congruence. auto.
Qed.

Lemma set_member_total k v kvs :
  set_path [k] v (JObj kvs) = Some (JObj (assoc_set k v kvs)).
Proof. reflexivity. Qed.

Lemma write_caught_spec f :
  write_caught f = true <->
  Error f = "DynamoDB.ConditionalCheckFailedException" \/
  Error f = "DynamoDb.TransactionCanceledException".
Proof.
  unfold write_caught. rewrite orb_true_iff, !String.eqb_eq.
  split; intros [H|H]; auto.
Qed.

(** The write step hands over to the corrector only through its catcher,
    with the world untouched. *)
Lemma step_write_caught ev w doc p q fn ln em ph d1 :
  has_context doc (Dec.show p) (Dec.show q) ->
  has_profile doc fn ln em ph ->
  snd (step t u graph ev w "CreateDynamoDBUser" doc) = Running "CorrectLastId" d1 ->
  exists f, write_caught f = true /\
    set_path ["error"] (error_output f) doc = Some d1 /\
    step t u graph ev w "CreateDynamoDBUser" doc = (w, Running "CorrectLastId" d1).
Proof.
  intros Hctx Hprof.
  rewrite (step_CreateDynamoDBUser _ _ _ _ _ _ _ _ _ Hctx Hprof).
  assert (Hf : forall f, handle_fault CreateDynamoDBUser doc f = Running "CorrectLastId" d1 ->
             write_caught f = true /\ set_path ["error"] (error_output f) doc = Some d1).
  { intros f. rewrite handle_fault_write. destruct (write_caught f); [|discriminate].
    destruct (set_path _ _ _); [|discriminate]. intros [= ->]. auto. }
  destruct ev as [f|]; cbn [snd].
  - intros H. exists f. destruct (Hf f H) as [H1 H2]. rewrite H. auto.
  - destruct (fresh _ _ && counter_is _ _); cbn [snd]; [discriminate|].
    intros H. exists transaction_canceled. destruct (Hf _ H) as [H1 H2]. rewrite H. auto.
Qed.

(** C2 as the specification words it: after a caught fault of the write
    step the saga runs the corrector and is back at the allocator. *)
Definition conflict_returns_to_allocator : Prop :=
  forall w doc p q fn ln em ph ev d1,
    has_context doc (Dec.show p) (Dec.show q) ->
    has_profile doc fn ln em ph ->
    snd (step t u graph ev w "CreateDynamoDBUser" doc) = Running "CorrectLastId" d1 ->
    exists w' d2, run t u graph [ev; None] w "CreateDynamoDBUser" doc
                  = (w', Running "FindLastId" d2).

(** C2, amended. A fault of the write step is caught exactly when its
    error name is one of the two listed in the catcher; the world is then
    untouched, the error is recorded and the corrector runs. If the counter
    still holds [previousUserId], the corrector advances it to [userId], the
    allocator reads it again and the next attempt uses [userId + 1], not the
    contested id. If the counter no longer holds [previousUserId], the
    corrector's own conditional-check fault ends the execution. A fault with
    any other name at the write step ends the execution at once. *)
Theorem write_conflict_compensation (w : World) (doc : json) (p q : Z)
    (fn ln em ph : string) (ev : option Fault) (d1 : json) :
  has_context doc (Dec.show p) (Dec.show q) ->
  has_profile doc fn ln em ph ->
  snd (step t u graph ev w "CreateDynamoDBUser" doc) = Running "CorrectLastId" d1 ->
  fst (step t u graph ev w "CreateDynamoDBUser" doc) = w /\
  (exists f, write_caught f = true /\
             set_path ["error"] (error_output f) doc = Some d1) /\
  (counter w = Some p ->
     exists d2 d3,
       run t u graph [ev; None] w "CreateDynamoDBUser" doc
         = (with_table w (advance (table w) q), Running "FindLastId" d2) /\
       run t u graph [ev; None; None] w "CreateDynamoDBUser" doc
         = (with_table w (advance (table w) q), Running "CreateDynamoDBUser" d3) /\
       has_context d3 (Dec.show q) (Dec.show (q + 1)) /\
       Dec.show (q + 1) <> Dec.show q) /\
  (counter w <> Some p ->
     forall rest,
       run t u graph (ev :: None :: rest) w "CreateDynamoDBUser" doc
         = (w, Failed (Some "DynamoDb.ConditionalCheckFailedException")
                      (Some "The conditional request failed"))) /\
  (forall f, write_caught f = false ->
     step t u graph (Some f) w "CreateDynamoDBUser" doc
       = (w, Failed (Some (Error f)) (Some (Cause f)))) /\
  (forall f, write_caught f = true <->
     Error f = "DynamoDB.ConditionalCheckFailedException" \/
     Error f = "DynamoDb.TransactionCanceledException").
Proof.
  intros Hctx Hprof Hcaught.
  destruct (step_write_caught _ _ _ _ _ _ _ _ _ _ Hctx Hprof Hcaught)
    as (f & Hf & Hd1 & Hstep).
  assert (Hctx1 : has_context d1 (Dec.show p) (Dec.show q)).
  { eapply has_context_frame; [exact Hd1 | discriminate | exact Hctx]. }
  split; [rewrite Hstep; reflexivity|].
  split; [exists f; auto|].
  split; [|split; [|split]].
  - intros Hc. unfold counter in Hc. apply counter_is_spec in Hc.
    destruct (has_context_object _ _ _ Hctx1) as [kvs1 ->].
    pose proof (step_CorrectLastId None w _ _ _ Hctx1) as Hcorr.
    rewrite Hc, set_member_total in Hcorr.
    set (d2 := JObj (assoc_set "results" (JObj []) kvs1)) in *.
    set (w2 := with_table w (advance (table w) q)) in *.
    pose proof (step_FindLastId None w2 d2) as Hfind.
    assert (Hc2 : counter w2 = Some q) by apply counter_advance.
    rewrite Hc2 in Hfind. unfold d2 in Hfind. rewrite set_member_total in Hfind.
    eexists _, _. split; [|split; [|split]].
    + rewrite (run_running _ _ _ _ _ _ _ _ Hstep).
      rewrite (run_running _ _ _ _ _ _ _ _ Hcorr). reflexivity.
    + rewrite (run_running _ _ _ _ _ _ _ _ Hstep).
      rewrite (run_running _ _ _ _ _ _ _ _ Hcorr).
      rewrite (run_running _ _ _ _ _ _ _ _ Hfind). reflexivity.
    + apply context_written.
    + intros H. apply show_inj in H. lia.
  - intros Hc rest.
    assert (Hc' : counter_is (table w) p = false).
    { destruct (counter_is (table w) p) eqn:E; [|reflexivity].
      apply counter_is_spec in E. contradiction. }
    pose proof (step_CorrectLastId None w _ _ _ Hctx1) as Hcorr.
    rewrite Hc' in Hcorr.
    rewrite (run_running _ _ _ _ _ _ _ _ Hstep).
    apply (run_failed _ _ _ _ _ _ _ _ Hcorr).
  - intros f' Hf'.
    rewrite (step_CreateDynamoDBUser _ _ _ _ _ _ _ _ _ Hctx Hprof).
    rewrite handle_fault_write, Hf'. reflexivity.
  - apply write_caught_spec.
Qed.

(** C5 as the specification words it: when the counter no longer holds
    [previousUserId] the corrector still hands over to the allocator. *)
Definition corrector_failure_is_ignored : Prop :=
  forall w doc p q,
    has_context doc (Dec.show p) (Dec.show q) ->
    counter w <> Some p ->
    exists d, step t u graph None w "CorrectLastId" doc = (w, Running "FindLastId" d).

(** C5, amended. When the counter no longer holds [previousUserId] the
    corrector changes nothing, and, having no catcher, its conditional-check
    fault ends the execution: the allocator is not entered again. When the
    corrector's call goes through (the counter still holds
    [previousUserId]) control passes to the allocator in every case. *)
Theorem corrector_on_moved_counter (w : World) (doc : json) (p q : Z) :
  has_context doc (Dec.show p) (Dec.show q) ->
  counter w <> Some p ->
  (forall rest,
     run t u graph (None :: rest) w "CorrectLastId" doc
       = (w, Failed (Some "DynamoDb.ConditionalCheckFailedException")
                    (Some "The conditional request failed"))) /\
  catches CorrectLastId = [] /\
  nextState CorrectLastId = Some "FindLastId" /\
  (forall w0, counter w0 = Some p ->
     exists d, step t u graph None w0 "CorrectLastId" doc
               = (with_table w0 (advance (table w0) q), Running "FindLastId" d)).
Proof.
  intros Hctx Hc. split; [|split; [reflexivity|split; [reflexivity|]]].
  - intros rest.
    assert (Hc' : counter_is (table w) p = false).
    { destruct (counter_is (table w) p) eqn:E; [|reflexivity].
      apply counter_is_spec in E. contradiction. }
    pose proof (step_CorrectLastId None w _ _ _ Hctx) as Hcorr.
    rewrite Hc' in Hcorr. apply (run_failed _ _ _ _ _ _ _ _ Hcorr).
  - intros w0 Hc0. unfold counter in Hc0. apply counter_is_spec in Hc0.
    rewrite (step_CorrectLastId None w0 _ _ _ Hctx), Hc0.
    destruct (has_context_object _ _ _ Hctx) as [kvs ->].
    rewrite set_member_total. eauto.
Qed.

Lemma register_caught_spec f :
  register_caught f = true <->
  Error f = "CognitoIdentityProvider.UsernameExistsException".
Proof. unfold register_caught. rewrite String.eqb_eq. split; auto. Qed.

(** C4. Duplicate identity: when registration fails with the
    username-already-exists fault (raised by the pool because the username
    is taken, or by the environment), the saga records the error, deletes
    the profile record keyed by the run's [userId] and ends at [Fail]; the
    allocator is not entered again, and the counter record, like every
    other record and the pool, is as the registration step found it. *)
Theorem duplicate_identity_rolls_back (w : World) (doc : json) (uid em : string)
    (ev : option Fault) (rest : list (option Fault)) :
  get_path ["context"; "userId"] doc = Some (JStr uid) ->
  get_path ["emailAddress"] doc = Some (JStr em) ->
  (ev = None /\ is_Some (pool w !! uid)) \/
  (exists f, ev = Some f /\
             Error f = "CognitoIdentityProvider.UsernameExistsException") ->
  let r := run t u graph (ev :: None :: None :: rest) w "CreateCognitoUser" doc in
  (exists d1, run t u graph [ev] w "CreateCognitoUser" doc = (w, Running "RollbackUser" d1)) /\
  (exists d2, run t u graph [ev; None] w "CreateCognitoUser" doc
              = (with_table w (delete (profile_key uid) (table w)), Running "Fail" d2)) /\
  r = (with_table w (delete (profile_key uid) (table w)), Failed None None) /\
  table (fst r) !! profile_key uid = None /\
  table (fst r) !! metadata_key = table w !! metadata_key /\
  counter (fst r) = counter w /\
  (forall k, k <> profile_key uid -> table (fst r) !! k = table w !! k) /\
  pool (fst r) = pool w.
Proof.
  intros Hu He Hdup r.
  assert (Hobj : exists kvs, doc = JObj kvs).
  { rewrite get_path_cons in Hu. destruct doc; try discriminate. eauto. }
  destruct Hobj as [kvs ->].
  assert (Hstep1 : exists f, register_caught f = true /\
            step t u graph ev w "CreateCognitoUser" (JObj kvs) =
            (w, Running "RollbackUser" (JObj (assoc_set "error" (error_output f) kvs)))).
  { rewrite (step_CreateCognitoUser _ _ _ _ _ Hu He).
    destruct Hdup as [[-> [a Ha]] | (f & -> & Hf)].
    - rewrite Ha. exists username_exists. split; [reflexivity|].
      rewrite handle_fault_register. reflexivity.
    - exists f. apply register_caught_spec in Hf. split; [exact Hf|].
      rewrite handle_fault_register, Hf. reflexivity. }
  destruct Hstep1 as (f & Hf & Hstep1).
  set (d1 := JObj (assoc_set "error" (error_output f) kvs)) in *.
  assert (Hu1 : get_path ["context"; "userId"] d1 = Some (JStr uid)).
  { unfold d1. rewrite (set_member_frame "error" (error_output f) (JObj kvs)).
    - exact Hu.
    - reflexivity.
    - discriminate. }
  pose proof (step_RollbackUser None w d1 uid Hu1) as Hstep2.
  unfold d1 in Hstep2 at 2. rewrite set_member_total in Hstep2.
  assert (Hr : r = (with_table w (delete (profile_key uid) (table w)), Failed None None)).
  { unfold r. rewrite (run_running _ _ _ _ _ _ _ _ Hstep1).
    rewrite (run_running _ _ _ _ _ _ _ _ Hstep2).
    apply run_failed. apply step_Fail. }
  split; [|split; [|split]].
  - exists d1. rewrite (run_running _ _ _ _ _ _ _ _ Hstep1). reflexivity.
  - eexists. rewrite (run_running _ _ _ _ _ _ _ _ Hstep1).
    rewrite (run_running _ _ _ _ _ _ _ _ Hstep2). reflexivity.
  - exact Hr.
  - rewrite Hr. cbn [fst table with_table pool]. repeat split.
    + apply lookup_delete_eq.
    + apply lookup_delete_ne. apply profile_key_not_metadata.
    + unfold counter. cbn [table with_table].
      rewrite lookup_delete_ne by apply profile_key_not_metadata. reflexivity.
    + intros k Hk. apply lookup_delete_ne. congruence.
Qed.

(** A step that enters a compensator got there through a catcher, which
    wrote the error output and nothing else. *)
Lemma caught_records_error inject w w' cur handler doc doc' :
  (cur = "CreateDynamoDBUser" /\ handler = "CorrectLastId") \/
  (cur = "CreateCognitoUser" /\ handler = "RollbackUser") ->
  step t u graph inject w cur doc = (w', Running handler doc') ->
  exists f, set_path ["error"] (error_output f) doc = Some doc'.
Proof.
  intros Hedge Hstep.
  destruct Hedge as [[-> ->] | [-> ->]].
  - rewrite (step_at _ _ _ _ _ graph_CreateDynamoDBUser) in Hstep.
    assert (Hf : forall f, handle_fault CreateDynamoDBUser doc f = Running "CorrectLastId" doc' ->
                           set_path ["error"] (error_output f) doc = Some doc').
    { intros f. rewrite handle_fault_write. destruct (write_caught f); [|discriminate].
      destruct (set_path _ _ _); [|discriminate]. intros [= ->]. reflexivity. }
    destruct writer_task as (pr & Hk & _ & _ & Hsel & Hrp).
    unfold step_state in Hstep. rewrite Hk in Hstep.
    destruct (Asl.eval_template (parameters pr) doc) as [req|]; [|discriminate].
    destruct inject as [f|].
    + injection Hstep as _ Hstep. eauto.
    + destruct (call_aws t u w (service pr) (action pr) req) as [w1 [f|res]];
        injection Hstep as _ Hstep; [eauto|].
      exfalso. unfold handle_result in Hstep. rewrite Hsel, Hrp in Hstep.
      cbn in Hstep. discriminate.
  - rewrite (step_at _ _ _ _ _ graph_CreateCognitoUser) in Hstep.
    assert (Hf : forall f, handle_fault CreateCognitoUser doc f = Running "RollbackUser" doc' ->
                           set_path ["error"] (error_output f) doc = Some doc').
    { intros f. rewrite handle_fault_register. destruct (register_caught f); [|discriminate].
      destruct (set_path _ _ _); [|discriminate]. intros [= ->]. reflexivity. }
    destruct register_task as (pr & Hk & _ & _ & Hsel & Hrp).
    unfold step_state in Hstep. rewrite Hk in Hstep.
    destruct (Asl.eval_template (parameters pr) doc) as [req|]; [|discriminate].
    destruct inject as [f|].
    + injection Hstep as _ Hstep. eauto.
    + destruct (call_aws t u w (service pr) (action pr) req) as [w1 [f|res]];
        injection Hstep as _ Hstep; [eauto|].
      exfalso. unfold handle_result in Hstep. rewrite Hsel, Hrp in Hstep.
      cbn in Hstep. discriminate.
Qed.

(** C10. Both catchers write the caught error under [$.error] and nothing
    else: whenever the write step hands over to the corrector, or the
    registration step to the rollback, the state input of the compensator
    has the error output at [error] and reads the same at every path that
    starts at another member, so [$.context.userId],
    [$.context.previousUserId] and the caller's fields are the ones the
    failed step used. *)
Theorem catch_keeps_state (inject : option Fault) (w w' : World)
    (cur handler : string) (doc doc' : json) :
  (cur = "CreateDynamoDBUser" /\ handler = "CorrectLastId") \/
  (cur = "CreateCognitoUser" /\ handler = "RollbackUser") ->
  step t u graph inject w cur doc = (w', Running handler doc') ->
  (exists f, field "error" doc' = Some (error_output f)) /\
  (forall k rest, k <> "error" -> get_path (k :: rest) doc' = get_path (k :: rest) doc) /\
  (forall prev uid, has_context doc prev uid -> has_context doc' prev uid).
Proof.
  intros Hedge Hstep.
  destruct (caught_records_error _ _ _ _ _ _ _ Hedge Hstep) as [f Hset].
  split; [|split].
  - exists f. exact (set_member_read _ _ _ _ Hset).
  - intros k rest Hk. exact (set_member_frame _ _ _ _ _ _ Hset Hk).
  - intros prev uid. apply (has_context_frame _ _ _ _ _ _ Hset). discriminate.
Qed.

(** Every state an execution moves to is a successor in the graph. *)
Lemma step_follows_graph inject w cur doc w' n doc' :
  step t u graph inject w cur doc = (w', Running n doc') ->
  exists via, transition graph cur via n.
Proof.
  unfold step, transition. destruct (graph !! cur) as [st|] eqn:Hst; [|discriminate].
  intros H.
  assert (Hleave : forall d, leave st d = Running n doc' ->
            exists via, (via, n) ∈ successors st).
  { unfold leave, successors. intros d. destruct (nextState st); [|discriminate].
    intros [= -> _]. exists None. cbn. left. }
  assert (Hfault : forall f, handle_fault st doc f = Running n doc' ->
            exists via, (via, n) ∈ successors st).
  { unfold handle_fault, successors. intros f.
    destruct (find_catcher (catches st) f) as [[c h]|] eqn:Hc; [|discriminate].
    destruct (Asl.apply_result_path _ _ _); [|discriminate]. intros [= -> _].
    exists (Some (CatchProps.errors c)). apply elem_of_app. right.
    apply (list_elem_of_fmap_2' _ _ (c, n)); [|reflexivity].
    clear -Hc. induction (catches st) as [|[c' h'] rest IH]; [discriminate|].
    cbn in Hc. destruct (catcher_matches c' f).
    - injection Hc as -> ->. left.
    - right. auto. }
  assert (Hsucc : (exists via, (via, n) ∈ successors st) ->
                  exists via st0, Some st = Some st0 /\ (via, n) ∈ successors st0).
  { intros [via Hv]. eauto. }
  unfold step_state in H. destruct (kind st) as [p| |e c].
  - destruct (Asl.eval_template (parameters p) doc) as [req|]; [|discriminate].
    destruct inject as [f|].
    + injection H as _ H. destruct (Hfault f H) as [via Hv]. eauto.
    + destruct (call_aws t u w (service p) (action p) req) as [w1 [f|res]];
        injection H as _ H.
      * destruct (Hfault f H) as [via Hv]. eauto.
      * unfold handle_result in H.
        destruct (match resultSelector p with Some _ => _ | None => _ end); [|discriminate].
        destruct (Asl.apply_result_path _ _ _); [|discriminate].
        destruct (Hleave _ H) as [via Hv]. eauto.
  - injection H as _ H. destruct (Hleave _ H) as [via Hv]. eauto.
  - discriminate.
Qed.

Lemma transitions_are_saga_edges a via b :
  transition graph a via b <-> (a, via, b) ∈ saga_edges.
Proof.
  rewrite transition_edges, edges_graph. unfold saga_edges.
  rewrite !elem_of_cons. pose proof (not_elem_of_nil (a, via, b)). tauto.
Qed.

Lemma step_along_saga_edge inject w cur doc w' n doc' :
  step t u graph inject w cur doc = (w', Running n doc') ->
  exists via, (cur, via, n) ∈ saga_edges.
Proof.
  intros H. destruct (step_follows_graph _ _ _ _ _ _ _ H) as [via Hv].
  exists via. apply transitions_are_saga_edges. exact Hv.
Qed.

Lemma end_states s st :
  graph !! s = Some st -> nextState st = None ->
  (s = "Pass" /\ kind st = Pass) \/ (s = "Fail" /\ kind st = Fail None None).
Proof.
  intros Hs Hn.
  assert (Hin : s ∈ (fun kv : string * State => fst kv) <$>
                filter (fun kv => nextState (snd kv) = None) (map_to_list graph)).
  { apply (list_elem_of_fmap_2' _ _ (s, st)); [|reflexivity].
    apply list_elem_of_filter. split; [exact Hn|]. apply elem_of_map_to_list. exact Hs. }
  rewrite end_state_names in Hin.
  apply elem_of_cons in Hin as [->|Hin].
  - right. rewrite graph_Fail in Hs. injection Hs as <-. auto.
  - apply list_elem_of_singleton in Hin as ->.
    left. rewrite graph_Pass in Hs. injection Hs as <-. auto.
Qed.

(** C7. The step graph: the definition starts at the allocator
    ([FindLastId]); its transitions are exactly the Next chain
    [FindLastId] to [CreateDynamoDBUser] to [CreateCognitoUser] to [Pass],
    the catcher of the write step into [CorrectLastId] with Next back to
    [FindLastId], and the catcher of the registration step into
    [RollbackUser] with Next to [Fail]; [Pass] (the execution succeeds) and
    [Fail] (the execution fails) are the only states without a successor,
    and no execution step moves along anything else. *)
Theorem saga_step_graph :
  definition t u = Some {| states := graph; startAt := "FindLastId" |} /\
  (forall a via b, transition graph a via b <-> (a, via, b) ∈ saga_edges) /\
  (forall s st, graph !! s = Some st -> nextState st = None ->
     (s = "Pass" /\ kind st = Pass) \/ (s = "Fail" /\ kind st = Fail None None)) /\
  (forall inject w doc,
     step t u graph inject w "Pass" doc = (w, Succeeded doc) /\
     step t u graph inject w "Fail" doc = (w, Failed None None)) /\
  (forall inject w cur doc w' n doc',
     step t u graph inject w cur doc = (w', Running n doc') ->
     exists via, (cur, via, n) ∈ saga_edges).
Proof.
  split; [apply definition_built|].
  split; [apply transitions_are_saga_edges|].
  split; [apply end_states|].
  split; [intros inject w doc; split; [apply step_Pass | apply step_Fail]|].
  apply step_along_saga_edge.
Qed.

(** ** Outcome of a run *)

Definition is_final (s : status) : bool :=
  match s with
  | Running _ _ => false
  | _ => true
  end.

(** Left alone by the environment, the execution ends within some number
    of steps. *)
Definition terminates (w : World) (cur : string) (doc : json) : Prop :=
  exists N, is_final (snd (run t u graph (repeat None N) w cur doc)) = true.

Lemma terminates_final w cur doc w' s :
  step t u graph None w cur doc = (w', s) -> is_final s = true ->
  terminates w cur doc.
Proof.
  intros H Hs. exists 1%nat. cbn [repeat run]. rewrite H.
  destruct s; [discriminate Hs | reflexivity | reflexivity | reflexivity].
Qed.

Lemma terminates_next w cur doc w' n d :
  step t u graph None w cur doc = (w', Running n d) ->
  terminates w' n d -> terminates w cur doc.
Proof.
  intros H [N HN]. exists (S N). cbn [repeat].
  rewrite (run_running _ _ _ _ _ _ _ _ H). exact HN.
Qed.

Lemma run_final_stable s1 s2 w cur doc :
  is_final (snd (run t u graph s1 w cur doc)) = true ->
  run t u graph (s1 ++ s2) w cur doc = run t u graph s1 w cur doc.
Proof.
  revert w cur doc. induction s1 as [|ev s1 IH]; intros w cur doc; cbn [run app].
  - discriminate.
  - destruct (step t u graph ev w cur doc) as [w' [n d| | |]]; auto.
Qed.

Ltac edge_cases H :=
  unfold saga_edges in H;
  repeat (apply elem_of_cons in H; destruct H as [H|H];
          [try discriminate H; injection H as ? ?; subst | ]);
  try (exfalso; exact (not_elem_of_nil _ H)).

Lemma terminates_from cur w doc :
  (forall w' n d, step t u graph None w cur doc = (w', Running n d) -> terminates w' n d) ->
  terminates w cur doc.
Proof.
  intros H. destruct (step t u graph None w cur doc) as [w' s] eqn:E.
  destruct s as [n d| | |].
  - eapply terminates_next; [exact E | apply H; reflexivity].
  - eapply terminates_final; [exact E | reflexivity].
  - eapply terminates_final; [exact E | reflexivity].
  - eapply terminates_final; [exact E | reflexivity].
Qed.

Lemma terminates_Pass w doc : terminates w "Pass" doc.
Proof. eapply terminates_final; [apply step_Pass | reflexivity]. Qed.

Lemma terminates_Fail w doc : terminates w "Fail" doc.
Proof. eapply terminates_final; [apply step_Fail | reflexivity]. Qed.

Lemma terminates_RollbackUser w doc : terminates w "RollbackUser" doc.
Proof.
  apply terminates_from. intros w' n d H.
  destruct (step_along_saga_edge _ _ _ _ _ _ _ H) as [via Hv].
  edge_cases Hv. apply terminates_Fail.
Qed.

Lemma terminates_CreateCognitoUser w doc : terminates w "CreateCognitoUser" doc.
Proof.
  apply terminates_from. intros w' n d H.
  destruct (step_along_saga_edge _ _ _ _ _ _ _ H) as [via Hv].
  edge_cases Hv; [apply terminates_Pass | apply terminates_RollbackUser].
Qed.

(** When the write step hands over to the corrector without a fault of
    the environment, the transaction was cancelled. *)
Lemma step_write_cancelled w doc p q w' d :
  has_context doc (Dec.show p) (Dec.show q) ->
  step t u graph None w "CreateDynamoDBUser" doc = (w', Running "CorrectLastId" d) ->
  w' = w /\ has_context d (Dec.show p) (Dec.show q) /\
  fresh (table w) (profile_key (Dec.show q)) && counter_is (table w) p = false.
Proof.
  intros Hctx Hstep.
  assert (Hd : has_context d (Dec.show p) (Dec.show q)).
  { destruct (caught_records_error None w w' "CreateDynamoDBUser" "CorrectLastId" doc d)
      as [f Hf]; [left; auto | exact Hstep |].
    eapply has_context_frame; [exact Hf | discriminate | exact Hctx]. }
  revert Hstep.
  rewrite (step_at _ _ _ _ _ graph_CreateDynamoDBUser).
  destruct writer_task as (pr & Hk & Hsv & Hac & Hsel & Hrp).
  unfold step_state. rewrite Hk.
  rewrite (writer_parameters _ _ _ _ Hk Hctx).
  destruct (get_path ["firstName"] doc) as [fn|]; [|discriminate].
  destruct (get_path ["lastName"] doc) as [ln|]; [|discriminate].
  destruct (get_path ["emailAddress"] doc) as [em|]; [|discriminate].
  destruct (get_path ["phoneNumber"] doc) as [ph|]; [|discriminate].
  rewrite Hsv, Hac. cbn [call_aws String.eqb Ascii.eqb Bool.eqb].
  destruct (decode_put (put_member (Dec.show q) fn ln em ph)) as [op|] eqn:Hput.
  2:{ rewrite transact_writer_invalid by exact Hput.
      rewrite handle_fault_write. discriminate. }
  rewrite put_member_decodes in Hput.
  destruct fn as [| | |fn| |]; try discriminate.
  destruct ln as [| | |ln| |]; try discriminate.
  destruct em as [| | |em| |]; try discriminate.
  destruct ph as [| | |ph| |]; try discriminate.
  rewrite transact_writer.
  destruct (fresh (table w) (profile_key (Dec.show q)) && counter_is (table w) p).
  - unfold handle_result. rewrite Hsel, Hrp. discriminate.
  - intros [= <- _]. auto.
Qed.

(** The retry loop ends: each turn moves the counter past one more of the
    finitely many profile records that lie ahead of it. *)
Lemma allocation_terminates (n : nat) :
  forall (D : gset (string * string)) w doc,
    (size D <= n)%nat ->
    (forall c i, counter w = Some c -> c < i ->
                 is_Some (table w !! profile_key (Dec.show i)) ->
                 profile_key (Dec.show i) ∈ D) ->
    terminates w "FindLastId" doc.
Proof.
  induction n as [|n IH]; intros D w doc Hsize HD.
  all: apply terminates_from; intros w1 n1 d1 H1.
  all: rewrite step_FindLastId in H1.
  all: destruct (counter w) as [c|] eqn:Hc; [|discriminate].
  all: destruct (set_path ["context"] _ doc) as [dd|] eqn:Hset; [|discriminate].
  all: injection H1 as <- <- <-.
  all: destruct (set_member_object _ _ _ _ Hset) as (kvs & -> & ->).
  all: pose proof (context_written (Dec.show c) (Dec.show (c + 1)) kvs) as Hctx.
  all: apply terminates_from; intros w2 n2 d2 H2.
  all: destruct (step_along_saga_edge _ _ _ _ _ _ _ H2) as [via Hv].
  all: edge_cases Hv; [apply terminates_CreateCognitoUser|].
  all: destruct (step_write_cancelled _ _ _ _ _ _ Hctx H2) as (-> & Hctx2 & Hcancel).
  all: assert (Hcnt : counter_is (table w) c = true) by (apply counter_is_spec; exact Hc).
  all: rewrite Hcnt, andb_true_r in Hcancel.
  all: assert (Htaken : is_Some (table w !! profile_key (Dec.show (c + 1)))).
  1,3: (unfold fresh in Hcancel;
        destruct (table w !! profile_key (Dec.show (c + 1))); [eauto | discriminate]).
  all: assert (HinD : profile_key (Dec.show (c + 1)) ∈ D)
         by (apply (HD c); [reflexivity | lia | exact Htaken]).
  - exfalso. assert (HD0 : D ≡ ∅) by (apply size_empty_iff; lia).
    exact (proj1 (elem_of_equiv_empty D) HD0 _ HinD).
  - apply terminates_from; intros w3 n3 d3 H3.
    rewrite (step_CorrectLastId None w _ _ _ Hctx2), Hcnt in H3.
    destruct (set_path ["results"] _ d2) as [dr|]; [|discriminate].
    injection H3 as <- <- <-.
    apply (IH (D ∖ {[profile_key (Dec.show (c + 1))]})).
    + rewrite size_difference by (apply singleton_subseteq_l; exact HinD).
      rewrite size_singleton. lia.
    + intros c' i Hc' Hi Hsome.
      unfold counter in Hc'. cbn [table with_table] in Hc'.
      rewrite counter_advance in Hc'. injection Hc' as <-.
      cbn [table with_table] in Hsome.
      rewrite advance_other in Hsome by apply profile_key_not_metadata.
      apply elem_of_difference. split.
      * apply (HD c); [reflexivity | lia | exact Hsome].
      * intros Heq. apply elem_of_singleton in Heq.
        apply profile_key_inj, show_inj in Heq. lia.
Qed.

Lemma saga_terminates w doc : terminates w "FindLastId" doc.
Proof.
  apply (allocation_terminates (size (dom (table w))) (dom (table w))); [lia|].
  intros c i _ _ H. apply elem_of_dom. exact H.
Qed.

(** *** What a successful execution returns *)

(** What holds of the world and the state input on entering each state. *)
Definition run_invariant (w : World) (cur : string) (doc : json) : Prop :=
  (cur = "CreateDynamoDBUser" ->
     exists p, has_context doc (Dec.show p) (Dec.show (p + 1))) /\
  (cur = "CreateCognitoUser" ->
     exists n, get_path ["context"; "userId"] doc = Some (JStr (Dec.show n)) /\
               counter w = Some n /\
               is_Some (table w !! profile_key (Dec.show n))) /\
  (cur = "Pass" ->
     exists n attrs, doc = user_response (Dec.show n) attrs /\
                     counter w = Some n /\
                     is_Some (table w !! profile_key (Dec.show n)) /\
                     pool w !! Dec.show n = Some attrs).

Lemma run_invariant_step ev w cur doc w' n doc' :
  run_invariant w cur doc ->
  step t u graph ev w cur doc = (w', Running n doc') ->
  run_invariant w' n doc'.
Proof.
  intros (HW & HR & HP) H.
  destruct (step_along_saga_edge _ _ _ _ _ _ _ H) as [via Hv].
  edge_cases Hv; (split; [|split]); intros Hn; try discriminate Hn; clear Hn.
  - (* FindLastId to CreateDynamoDBUser *)
    rewrite step_FindLastId in H. destruct ev; [discriminate|].
    destruct (counter w) as [c|]; [|discriminate].
    destruct (set_path ["context"] _ doc) as [dd|] eqn:Hset; [|discriminate].
    injection H as <- <-.
    destruct (set_member_object _ _ _ _ Hset) as (kvs & -> & ->).
    exists c. apply context_written.
  - (* CreateDynamoDBUser to CreateCognitoUser *)
    destruct (HW eq_refl) as [p Hctx].
    destruct (step_CreateDynamoDBUser_success _ _ _ _ _ _ _ Hctx H)
      as (_ & -> & fn & ln & em & ph & _ & _ & _ & ->).
    exists (p + 1). split; [apply Hctx|]. cbn [table with_table]. split.
    + apply counter_advance.
    + unfold committed. rewrite advance_other by apply profile_key_not_metadata.
      rewrite lookup_insert_eq. eauto.
  - (* CreateCognitoUser to Pass *)
    destruct (HR eq_refl) as (k & Hu & Hc & Hprof).
    destruct (step_CreateCognitoUser_success _ _ _ _ _ H)
      as (uid & em & Hu' & _ & _ & _ & -> & ->).
    rewrite Hu in Hu'. injection Hu' as <-.
    exists k, (account em). cbn [table pool with_pool].
    repeat split; try assumption. apply lookup_insert_eq.
Qed.

Lemma step_succeeds_at_Pass ev w cur doc w' out :
  step t u graph ev w cur doc = (w', Succeeded out) ->
  cur = "Pass" /\ w' = w /\ out = doc.
Proof.
  intros H.
  assert (Hend : exists st, graph !! cur = Some st /\ nextState st = None /\
                            forall e c, kind st <> Fail e c).
  { revert H. unfold step. destruct (graph !! cur) as [st|]; [|discriminate].
    intros H. exists st. split; [reflexivity|].
    assert (Hleave : forall d, leave st d = Succeeded out -> nextState st = None).
    { unfold leave. intros d. destruct (nextState st); [discriminate | reflexivity]. }
    assert (Hfault : forall f, handle_fault st doc f <> Succeeded out).
    { intros f. unfold handle_fault. destruct (find_catcher _ _) as [[c h]|]; [|discriminate].
      destruct (Asl.apply_result_path _ _ _); discriminate. }
    unfold step_state in H. destruct (kind st) as [p| |e c]; [| |discriminate].
    - split; [|discriminate].
      destruct (Asl.eval_template (parameters p) doc) as [req|]; [|discriminate].
      destruct ev as [f|].
      + injection H as _ H. exfalso. exact (Hfault _ H).
      + destruct (call_aws t u w (service p) (action p) req) as [w1 [f|res]];
          injection H as _ H; [exfalso; exact (Hfault _ H)|].
        unfold handle_result in H.
        destruct (match resultSelector p with Some _ => _ | None => _ end); [|discriminate].
        destruct (Asl.apply_result_path _ _ _); [|discriminate].
        exact (Hleave _ H).
    - split; [|discriminate]. injection H as _ H. exact (Hleave _ H). }
  destruct Hend as (st & Hst & Hn & Hk).
  destruct (end_states _ _ Hst Hn) as [[-> _] | [_ Hf]].
  - rewrite step_Pass in H. injection H as <- <-. auto.
  - exfalso. exact (Hk _ _ Hf).
Qed.

Lemma run_invariant_run schedule :
  forall w cur doc w' out,
    run_invariant w cur doc ->
    run t u graph schedule w cur doc = (w', Succeeded out) ->
    run_invariant w' "Pass" out.
Proof.
  induction schedule as [|ev rest IH]; intros w cur doc w' out Hinv; cbn [run].
  - discriminate.
  - destruct (step t u graph ev w cur doc) as [w1 [n d|o|e c|a]] eqn:E.
    + apply IH. exact (run_invariant_step _ _ _ _ _ _ _ Hinv E).
    + intros [= <- <-].
      destruct (step_succeeds_at_Pass _ _ _ _ _ _ E) as (-> & -> & ->). exact Hinv.
    + intros H. discriminate H.
    + intros H. discriminate H.
Qed.

(** ** What one step can do to the world *)

(** A run that started at the allocator carries the allocator's two ids
    from the write step on. *)
Definition on_track (cur : string) (doc : json) : Prop :=
  cur = "CreateDynamoDBUser" \/ cur = "CorrectLastId" \/
  cur = "CreateCognitoUser" \/ cur = "RollbackUser" ->
  exists p, has_context doc (Dec.show p) (Dec.show (p + 1)).

(** The four ways a step changes the world, each tied to the state it
    happens in and to where the execution goes next. *)
Inductive effect (w : World) (cur : string) (doc : json) : World -> status -> Prop :=
| effect_none s :
    (cur = "CreateDynamoDBUser" -> forall d, s <> Running "CreateCognitoUser" d) ->
    effect w cur doc w s
| effect_commit p fn ln em ph :
    cur = "CreateDynamoDBUser" ->
    has_context doc (Dec.show p) (Dec.show (p + 1)) ->
    has_profile doc fn ln em ph ->
    counter w = Some p ->
    fresh (table w) (profile_key (Dec.show (p + 1))) = true ->
    effect w cur doc
      (with_table w (committed (table w) (Dec.show (p + 1)) fn ln em ph (p + 1)))
      (Running "CreateCognitoUser" doc)
| effect_correct p d :
    cur = "CorrectLastId" ->
    has_context doc (Dec.show p) (Dec.show (p + 1)) ->
    counter w = Some p ->
    effect w cur doc (with_table w (advance (table w) (p + 1))) (Running "FindLastId" d)
| effect_register p em :
    cur = "CreateCognitoUser" ->
    has_context doc (Dec.show p) (Dec.show (p + 1)) ->
    get_path ["emailAddress"] doc = Some (JStr em) ->
    pool w !! Dec.show (p + 1) = None ->
    effect w cur doc
      (with_pool w (<[Dec.show (p + 1) := account em]> (pool w)))
      (Running "Pass" (user_response (Dec.show (p + 1)) (account em)))
| effect_rollback p d :
    cur = "RollbackUser" ->
    has_context doc (Dec.show p) (Dec.show (p + 1)) ->
    effect w cur doc
      (with_table w (delete (profile_key (Dec.show (p + 1))) (table w)))
      (Running "Fail" d).

Lemma graph_state_names :
  (fun kv : string * State => fst kv) <$> map_to_list graph =
  ["CorrectLastId"; "CreateCognitoUser"; "CreateDynamoDBUser"; "FindLastId";
   "Fail"; "RollbackUser"; "Pass"].
Proof. vm_compute. reflexivity. Qed.

Lemma graph_states cur :
  cur ∈ ["CorrectLastId"; "CreateCognitoUser"; "CreateDynamoDBUser"; "FindLastId";
         "Fail"; "RollbackUser"; "Pass"] \/
  graph !! cur = None.
Proof.
  destruct (graph !! cur) as [st|] eqn:E; [left | right; reflexivity].
  rewrite <- graph_state_names.
  apply (list_elem_of_fmap_2' _ _ (cur, st)); [|reflexivity].
  apply elem_of_map_to_list. exact E.
Qed.

(** The write step, whatever the caller's fields and the environment do. *)
Lemma write_cases ev w doc p q w' s :
  has_context doc (Dec.show p) (Dec.show q) ->
  step t u graph ev w "CreateDynamoDBUser" doc = (w', s) ->
  (w' = w /\ forall d, s <> Running "CreateCognitoUser" d) \/
  (ev = None /\ s = Running "CreateCognitoUser" doc /\
   exists fn ln em ph,
     has_profile doc fn ln em ph /\
     fresh (table w) (profile_key (Dec.show q)) = true /\
     counter_is (table w) p = true /\
     w' = with_table w (committed (table w) (Dec.show q) fn ln em ph q)).
Proof.
  intros Hctx.
  rewrite (step_at _ _ _ _ _ graph_CreateDynamoDBUser).
  destruct writer_task as (pr & Hk & Hsv & Hac & Hsel & Hrp).
  unfold step_state. rewrite Hk.
  rewrite (writer_parameters _ _ _ _ Hk Hctx).
  assert (Hrt : forall d, Aborted AtParameters <> Running "CreateCognitoUser" d)
    by (intros d; discriminate).
  destruct (get_path ["firstName"] doc) as [fn|] eqn:Hfn;
    [|intros [= <- <-]; left; split; [reflexivity | exact Hrt]].
  destruct (get_path ["lastName"] doc) as [ln|] eqn:Hln;
    [|intros [= <- <-]; left; split; [reflexivity | exact Hrt]].
  destruct (get_path ["emailAddress"] doc) as [em|] eqn:Hem;
    [|intros [= <- <-]; left; split; [reflexivity | exact Hrt]].
  destruct (get_path ["phoneNumber"] doc) as [ph|] eqn:Hph;
    [|intros [= <- <-]; left; split; [reflexivity | exact Hrt]].
  destruct ev as [f|].
  { intros [= <- <-]. left. split; [reflexivity|]. intros d. apply write_fault_leaves. }
  rewrite Hsv, Hac. cbn [call_aws String.eqb Ascii.eqb Bool.eqb].
  destruct (decode_put (put_member (Dec.show q) fn ln em ph)) as [op|] eqn:Hput.
  2:{ rewrite transact_writer_invalid by exact Hput.
      intros [= <- <-]. left. split; [reflexivity|]. intros d. apply write_fault_leaves. }
  rewrite put_member_decodes in Hput.
  destruct fn as [| | |fn| |]; try discriminate Hput.
  destruct ln as [| | |ln| |]; try discriminate Hput.
  destruct em as [| | |em| |]; try discriminate Hput.
  destruct ph as [| | |ph| |]; try discriminate Hput.
  rewrite transact_writer.
  destruct (fresh (table w) (profile_key (Dec.show q))) eqn:Hfresh;
    destruct (counter_is (table w) p) eqn:Hcnt; cbn [andb];
    try (intros [= <- <-]; left; split; [reflexivity|];
         intros d; apply write_fault_leaves).
  unfold handle_result. rewrite Hsel, Hrp. cbn. intros [= <- <-].
  right. split; [reflexivity|]. split; [reflexivity|].
  exists fn, ln, em, ph. unfold has_profile. auto.
Qed.

(** The registration step, whatever the state input and the environment
    do. *)
Lemma register_cases ev w doc w' s :
  step t u graph ev w "CreateCognitoUser" doc = (w', s) ->
  (w' = w /\ forall d, s <> Running "Pass" d) \/
  (exists uid em,
     get_path ["context"; "userId"] doc = Some (JStr uid) /\
     get_path ["emailAddress"] doc = Some (JStr em) /\
     ev = None /\ pool w !! uid = None /\
     w' = with_pool w (<[uid := account em]> (pool w)) /\
     s = Running "Pass" (user_response uid (account em))).
Proof.
  rewrite (step_at _ _ _ _ _ graph_CreateCognitoUser).
  destruct register_task as (pr & Hk & Hsv & Hac & Hsel & Hrp).
  unfold step_state. rewrite Hk, (register_parameters _ _ Hk).
  assert (Hrt : forall d, Aborted AtParameters <> Running "Pass" d)
    by (intros d; discriminate).
  destruct (get_path ["context"; "userId"] doc) as [uid|] eqn:Hu;
    [|intros [= <- <-]; left; split; [reflexivity | exact Hrt]].
  destruct (get_path ["emailAddress"] doc) as [em|] eqn:He;
    [|intros [= <- <-]; left; split; [reflexivity | exact Hrt]].
  destruct ev as [f|].
  { intros [= <- <-]. left. split; [reflexivity|]. intros d. apply register_fault_leaves. }
  rewrite Hsv, Hac. cbn [call_aws String.eqb Ascii.eqb Bool.eqb].
  assert (Hbad : (forall a b, (uid, em) <> (JStr a, JStr b)) ->
            (let (w'0, r) := adminCreateUser u w (register_request uid em) in
             match r with
             | inl f => (w'0, handle_fault CreateCognitoUser doc f)
             | inr res => (w'0, handle_result pr CreateCognitoUser doc res)
             end) = (w', s) ->
            w' = w /\ forall d, s <> Running "Pass" d).
  { intros Hne. destruct (admin_create_invalid w uid em Hne) as (f & -> & _).
    intros [= <- <-]. split; [reflexivity|]. intros d. apply register_fault_leaves. }
  destruct uid as [| | |a| |];
    try (intros H; left; apply Hbad; [intros ? ?; discriminate | exact H]).
  destruct em as [| | |b| |];
    try (intros H; left; apply Hbad; [intros ? ?; discriminate | exact H]).
  clear Hbad. rewrite admin_create. destruct (pool w !! a) eqn:Hp.
  { intros [= <- <-]. left. split; [reflexivity|]. intros d. apply register_fault_leaves. }
  unfold handle_result. rewrite Hsel, Hrp. cbn. intros [= <- <-].
  right. exists a, b. auto 10.
Qed.

Lemma has_context_unique doc a b a' b' :
  has_context doc a b -> has_context doc a' b' -> a = a' /\ b = b'.
Proof. intros [H1 H2] [H3 H4]. rewrite H1 in H3. rewrite H2 in H4. split; congruence. Qed.

(** One step of an execution on track: its effect on the world, and the
    next state is on track again. *)
Lemma step_effect ev w cur doc w' s :
  on_track cur doc ->
  step t u graph ev w cur doc = (w', s) ->
  effect w cur doc w' s /\
  match s with Running n d => on_track n d | _ => True end.
Proof.
  intros Htrack Hstep.
  assert (Hnext : match s with Running n d => on_track n d | _ => True end).
  { destruct s as [n d| | |]; [|exact I|exact I|exact I].
    destruct (step_along_saga_edge _ _ _ _ _ _ _ Hstep) as [via Hv].
    edge_cases Hv; intros Hn;
      try (destruct Hn as [Hn|[Hn|[Hn|Hn]]]; discriminate Hn); clear Hn.
    - rewrite step_FindLastId in Hstep. destruct ev; [discriminate Hstep|].
      destruct (counter w) as [c|]; [|discriminate Hstep].
      destruct (set_path ["context"] _ doc) as [dd|] eqn:Hset; [|discriminate Hstep].
      injection Hstep as _ <-.
      destruct (set_member_object _ _ _ _ Hset) as (kvs & -> & ->).
      exists c. apply context_written.
    - destruct Htrack as [p Hctx]; [auto|].
      destruct (write_cases _ _ _ _ _ _ _ Hctx Hstep) as [[_ Hno] | (_ & [= <-] & _)].
      + exfalso. exact (Hno _ eq_refl).
      + eauto.
    - destruct Htrack as [p Hctx]; [auto|].
      destruct (caught_records_error _ _ _ _ _ _ _
                  (or_introl (conj eq_refl eq_refl)) Hstep) as [f Hf].
      exists p. eapply has_context_frame; [exact Hf | discriminate | exact Hctx].
    - destruct Htrack as [p Hctx]; [auto 6|].
      destruct (caught_records_error _ _ _ _ _ _ _
                  (or_intror (conj eq_refl eq_refl)) Hstep) as [f Hf].
      exists p. eapply has_context_frame; [exact Hf | discriminate | exact Hctx]. }
  split; [|exact Hnext]. clear Hnext.
  destruct (graph_states cur) as [Hin | Hnone].
  2:{ revert Hstep. unfold step. rewrite Hnone. intros [= <- <-].
      apply effect_none. intros _ d. discriminate. }
  repeat (apply elem_of_cons in Hin; destruct Hin as [->|Hin]);
    [| | | | | | | exfalso; exact (not_elem_of_nil _ Hin)].
  - (* CorrectLastId *)
    destruct Htrack as [p Hctx]; [auto|].
    rewrite (step_CorrectLastId _ _ _ _ _ Hctx) in Hstep.
    destruct ev as [f|]; [injection Hstep as <- <-; apply effect_none; discriminate|].
    destruct (counter_is (table w) p) eqn:Hc;
      [|injection Hstep as <- <-; apply effect_none; discriminate].
    destruct (has_context_object _ _ _ Hctx) as [kvs ->].
    rewrite set_member_total in Hstep. injection Hstep as <- <-.
    apply effect_correct; [reflexivity | exact Hctx | apply counter_is_spec; exact Hc].
  - (* CreateCognitoUser *)
    destruct Htrack as [p Hctx]; [auto|].
    destruct (register_cases _ _ _ _ _ Hstep)
      as [[-> Hno] | (uid & em & Hu & He & _ & Hfree & -> & ->)].
    + apply effect_none. discriminate.
    + destruct Hctx as [Hp Hu']. rewrite Hu in Hu'. injection Hu' as ->.
      apply effect_register; [reflexivity | split; assumption | exact He | exact Hfree].
  - (* CreateDynamoDBUser *)
    destruct Htrack as [p Hctx]; [auto|].
    destruct (write_cases _ _ _ _ _ _ _ Hctx Hstep)
      as [[-> Hno] | (_ & -> & fn & ln & em & ph & Hprof & Hfresh & Hcnt & ->)].
    + apply effect_none. intros _. exact Hno.
    + apply effect_commit; try assumption; [reflexivity|].
      apply counter_is_spec. exact Hcnt.
  - (* FindLastId *)
    rewrite step_FindLastId in Hstep.
    assert (w' = w) as ->.
    { destruct ev; [congruence|]. destruct (counter w); [|congruence].
      destruct (set_path _ _ _); congruence. }
    apply effect_none. discriminate.
  - (* Fail *)
    rewrite step_Fail in Hstep. injection Hstep as <- <-.
    apply effect_none. discriminate.
  - (* RollbackUser *)
    destruct Htrack as [p Hctx]; [auto 6|].
    rewrite (step_RollbackUser _ _ _ _ (proj2 Hctx)) in Hstep.
    destruct ev as [f|]; [injection Hstep as <- <-; apply effect_none; discriminate|].
    destruct (has_context_object _ _ _ Hctx) as [kvs ->].
    rewrite set_member_total in Hstep. injection Hstep as <- <-.
    apply effect_rollback; [reflexivity | exact Hctx].
  - (* Pass *)
    rewrite step_Pass in Hstep. injection Hstep as <- <-.
    apply effect_none. discriminate.
Qed.

(** ** Properties of whole runs *)

Lemma counter_with_pool w p : counter (with_pool w p) = counter w.
Proof. reflexivity. Qed.

Lemma effect_counter w cur doc w' s c :
  effect w cur doc w' s -> counter w = Some c ->
  exists c', counter w' = Some c' /\ c <= c' <= c + 1.
Proof.
  intros He Hc. destruct He as [s _ | p fn ln em ph _ _ _ Hp _ | p d _ _ Hp
                               | p em _ _ _ _ | p d _ _].
  - exists c. split; [exact Hc | lia].
  - rewrite Hp in Hc. injection Hc as ->. exists (c + 1). split; [|lia].
    unfold counter, committed. cbn [table with_table]. apply counter_advance.
  - rewrite Hp in Hc. injection Hc as ->. exists (c + 1). split; [|lia].
    unfold counter. cbn [table with_table]. apply counter_advance.
  - exists c. split; [exact Hc | lia].
  - exists c. split; [|lia]. unfold counter. cbn [table with_table].
    rewrite lookup_delete_ne by apply profile_key_not_metadata. exact Hc.
Qed.

Lemma counter_along_run schedule :
  forall w cur doc w' s c,
    on_track cur doc ->
    run t u graph schedule w cur doc = (w', s) ->
    counter w = Some c ->
    exists c', counter w' = Some c' /\ c <= c' <= c + Z.of_nat (length schedule).
Proof.
  induction schedule as [|ev rest IH]; intros w cur doc w' s c Htrack; cbn [run length].
  - intros [= <- <-] Hc. exists c. split; [exact Hc | lia].
  - destruct (step t u graph ev w cur doc) as [w1 s1] eqn:E.
    destruct (step_effect _ _ _ _ _ _ Htrack E) as [Heff Hnext].
    intros Hrun Hc.
    destruct (effect_counter _ _ _ _ _ _ Heff Hc) as (c1 & Hc1 & Hb1).
    destruct s1 as [n d| | |].
    + destruct (IH _ _ _ _ _ _ Hnext Hrun Hc1) as (c' & Hc' & Hb').
      exists c'. split; [exact Hc' | lia].
    + injection Hrun as <- <-. exists c1. split; [exact Hc1 | lia].
    + injection Hrun as <- <-. exists c1. split; [exact Hc1 | lia].
    + injection Hrun as <- <-. exists c1. split; [exact Hc1 | lia].
Qed.

Lemma on_track_start doc : on_track "FindLastId" doc.
Proof. intros [H|[H|[H|H]]]; discriminate H. Qed.

(** X6. The counter only moves forward: whatever the environment does and
    however the run ends or is cut off, the counter record still holds a
    number, not smaller than at the start and at most one larger per state
    entered. *)
Theorem counter_never_decreases (schedule : list (option Fault)) (w w' : World)
    (input : json) (s : status) (c : Z) :
  run t u graph schedule w "FindLastId" input = (w', s) ->
  counter w = Some c ->
  exists c', counter w' = Some c' /\ c <= c' <= c + Z.of_nat (length schedule).
Proof. apply counter_along_run, on_track_start. Qed.

(** A stored record that a run must leave alone: any record but the
    counter that carries its partition key. *)
Definition foreign (tb : gmap (string * string) (list (string * attr)))
    (k : string * string) (it : list (string * attr)) : Prop :=
  k <> metadata_key /\ tb !! k = Some it /\ is_Some (assoc "PK" it).

Definition kept (w0 w : World) : Prop :=
  (forall k it, foreign (table w0) k it -> table w !! k = Some it) /\
  (forall name a, pool w0 !! name = Some a -> pool w !! name = Some a).

(** From registration on, the profile key of the run's own id is not the
    key of a record that was there at the start. *)
Definition own_key (w0 : World) (cur : string) (doc : json) : Prop :=
  cur = "CreateCognitoUser" \/ cur = "RollbackUser" ->
  forall p it, has_context doc (Dec.show p) (Dec.show (p + 1)) ->
               ~ foreign (table w0) (profile_key (Dec.show (p + 1))) it.

Lemma kept_step w0 ev w cur doc w' s :
  on_track cur doc -> own_key w0 cur doc -> kept w0 w ->
  step t u graph ev w cur doc = (w', s) ->
  kept w0 w' /\ match s with Running n d => own_key w0 n d | _ => True end.
Proof.
  intros Htrack Hown [Htb Hpool] Hstep.
  destruct (step_effect _ _ _ _ _ _ Htrack Hstep) as [Heff _].
  destruct Heff as [s Hno | p fn ln em ph -> Hctx _ _ Hfresh | p d -> _ _
                   | p em -> Hctx _ Hfree | p d -> Hctx].
  - split; [split; assumption|].
    destruct s as [n d| | |]; [|exact I|exact I|exact I].
    destruct (step_along_saga_edge _ _ _ _ _ _ _ Hstep) as [via Hv].
    edge_cases Hv; intros Hn; try (destruct Hn as [Hn|Hn]; discriminate Hn); clear Hn.
    + exfalso. exact (Hno eq_refl _ eq_refl).
    + destruct (caught_records_error _ _ _ _ _ _ _
                  (or_intror (conj eq_refl eq_refl)) Hstep) as [f Hf].
      intros p it [H1 H2]. apply (Hown (or_introl eq_refl) p it).
      split.
      * rewrite <- (set_member_frame _ _ _ _ _ _ Hf); [exact H1 | discriminate].
      * rewrite <- (set_member_frame _ _ _ _ _ _ Hf); [exact H2 | discriminate].
  - assert (Hmine : forall it, ~ foreign (table w0) (profile_key (Dec.show (p + 1))) it).
    { intros it Hf. pose proof (Htb _ _ Hf) as Hl. destruct Hf as (_ & _ & [a Ha]).
      unfold fresh in Hfresh. rewrite Hl, Ha in Hfresh. discriminate Hfresh. }
    split.
    + split; [|exact Hpool]. intros k it Hf. cbn [table with_table]. unfold committed.
      rewrite advance_other by apply Hf.
      rewrite lookup_insert_ne; [apply Htb; exact Hf|].
      intros <-. exact (Hmine _ Hf).
    + intros _ p' it Hctx'.
      destruct (has_context_unique _ _ _ _ _ Hctx Hctx') as [_ Heq].
      rewrite <- Heq. apply Hmine.
  - split; [|intros [H|H]; discriminate H].
    split; [|exact Hpool]. intros k it Hf. cbn [table with_table].
    rewrite advance_other by apply Hf. apply Htb. exact Hf.
  - split; [|intros [H|H]; discriminate H].
    split; [exact Htb|]. intros name a Ha. cbn [pool with_pool].
    rewrite lookup_insert_ne; [apply Hpool; exact Ha|].
    intros <-. rewrite (Hpool _ _ Ha) in Hfree. discriminate Hfree.
  - split; [|intros [H|H]; discriminate H].
    split; [|exact Hpool]. intros k it Hf. cbn [table with_table].
    rewrite lookup_delete_ne; [apply Htb; exact Hf|].
    intros <-. exact (Hown (or_intror eq_refl) p it Hctx Hf).
Qed.

Lemma kept_along_run w0 schedule :
  forall w cur doc w' s,
    on_track cur doc -> own_key w0 cur doc -> kept w0 w ->
    run t u graph schedule w cur doc = (w', s) ->
    kept w0 w'.
Proof.
  induction schedule as [|ev rest IH]; intros w cur doc w' s Htrack Hown Hkept; cbn [run].
  - intros [= <- <-]. exact Hkept.
  - destruct (step t u graph ev w cur doc) as [w1 s1] eqn:E.
    destruct (kept_step _ _ _ _ _ _ _ Htrack Hown Hkept E) as [Hk1 Hown1].
    destruct (step_effect _ _ _ _ _ _ Htrack E) as [_ Hnext].
    destruct s1 as [n d| | |].
    + apply IH; assumption.
    + intros [= <- <-]. exact Hk1.
    + intros [= <- <-]. exact Hk1.
    + intros [= <- <-]. exact Hk1.
Qed.

(** X7. A run leaves what was there alone: whatever the environment does and
    however the run ends, every record other than the counter that was in
    the table at the start (with its partition key attribute) is still
    there unchanged, and so is every account of the pool. A run never
    overwrites or deletes another user's profile or account. *)
Theorem run_keeps_existing_records (schedule : list (option Fault)) (w w' : World)
    (input : json) (s : status) :
  run t u graph schedule w "FindLastId" input = (w', s) ->
  (forall k it, k <> metadata_key -> table w !! k = Some it ->
                is_Some (assoc "PK" it) -> table w' !! k = Some it) /\
  (forall name a, pool w !! name = Some a -> pool w' !! name = Some a).
Proof.
  intros Hrun.
  assert (Hk : kept w w').
  { apply (kept_along_run w schedule w "FindLastId" input w' s).
    - apply on_track_start.
    - intros [H|H]; discriminate H.
    - split; [intros k it (_ & H & _); exact H | auto].
    - exact Hrun. }
  destruct Hk as [Htb Hpool]. split; [|exact Hpool].
  intros k it Hk Hl Hpk. apply Htb. repeat split; assumption.
Qed.

(** ** End-to-end scenarios *)

(** The state input after the allocator read [c]. *)
Definition allocated_input (c : Z) (kvs : list (string * json)) : json :=
  JObj (assoc_set "context" (context (Dec.show c) (Dec.show (c + 1))) kvs).

Lemma allocate w kvs c :
  counter w = Some c ->
  step t u graph None w "FindLastId" (JObj kvs) =
  (w, Running "CreateDynamoDBUser" (allocated_input c kvs)).
Proof. intros Hc. rewrite step_FindLastId, Hc. reflexivity. Qed.

Lemma has_profile_frame doc doc' k v fn ln em ph :
  set_path [k] v doc = Some doc' ->
  k <> "firstName" -> k <> "lastName" -> k <> "emailAddress" -> k <> "phoneNumber" ->
  has_profile doc fn ln em ph -> has_profile doc' fn ln em ph.
Proof.
  intros Hs H1 H2 H3 H4 (Hfn & Hln & Hem & Hph). unfold has_profile.
  rewrite !(set_member_frame _ _ _ _ _ _ Hs) by congruence. auto.
Qed.

Lemma allocated_profile_fields c kvs fn ln em ph :
  has_profile (JObj kvs) fn ln em ph ->
  has_profile (allocated_input c kvs) fn ln em ph.
Proof.
  apply (has_profile_frame (JObj kvs) (allocated_input c kvs) "context"
           (context (Dec.show c) (Dec.show (c + 1)))); try discriminate.
  reflexivity.
Qed.

Lemma fresh_absent tb k : tb !! k = None -> fresh tb k = true.
Proof. intros H. unfold fresh. rewrite H. reflexivity. Qed.

Lemma fresh_advance tb q uid :
  fresh (advance tb q) (profile_key uid) = fresh tb (profile_key uid).
Proof. unfold fresh. rewrite advance_other by apply profile_key_not_metadata. reflexivity. Qed.

Lemma commit w kvs c fn ln em ph :
  counter w = Some c ->
  has_profile (JObj kvs) fn ln em ph ->
  fresh (table w) (profile_key (Dec.show (c + 1))) = true ->
  step t u graph None w "CreateDynamoDBUser" (allocated_input c kvs) =
  (with_table w (committed (table w) (Dec.show (c + 1)) fn ln em ph (c + 1)),
   Running "CreateCognitoUser" (allocated_input c kvs)).
Proof.
  intros Hc Hprof Hfresh.
  pose proof (allocated_profile_fields c kvs _ _ _ _ Hprof) as Hp.
  unfold allocated_input in *.
  rewrite (step_CreateDynamoDBUser None w _ c (c + 1) fn ln em ph
             (context_written _ _ kvs) Hp).
  rewrite Hfresh. apply counter_is_spec in Hc. rewrite Hc. reflexivity.
Qed.

(** Four steps without a fault, from the allocator to the end. *)
Lemma fault_free_success w kvs c fn ln em ph rest :
  counter w = Some c ->
  has_profile (JObj kvs) fn ln em ph ->
  fresh (table w) (profile_key (Dec.show (c + 1))) = true ->
  pool w !! Dec.show (c + 1) = None ->
  run t u graph (None :: None :: None :: None :: rest) w "FindLastId" (JObj kvs) =
  (with_pool (with_table w (committed (table w) (Dec.show (c + 1)) fn ln em ph (c + 1)))
             (<[Dec.show (c + 1) := account em]> (pool w)),
   Succeeded (user_response (Dec.show (c + 1)) (account em))).
Proof.
  intros Hc Hprof Hfresh Hfree.
  rewrite (run_running _ _ _ _ _ _ _ _ (allocate _ _ _ Hc)).
  rewrite (run_running _ _ _ _ _ _ _ _ (commit _ _ _ _ _ _ _ Hc Hprof Hfresh)).
  pose proof (allocated_profile_fields c kvs _ _ _ _ Hprof) as (_ & _ & Hem & _).
  pose proof (step_CreateCognitoUser None
                (with_table w (committed (table w) (Dec.show (c + 1)) fn ln em ph (c + 1)))
                _ _ _ (proj2 (context_written _ _ kvs)) Hem) as Hreg.
  cbn [pool with_table] in Hreg. rewrite Hfree in Hreg.
  rewrite (run_running _ _ _ _ _ _ _ _ Hreg).
  apply run_succeeded. apply step_Pass.
Qed.

(** X1. The happy path from start to end: with the counter at [c], the profile
    key of [c + 1] unused, the username [c + 1] free and the four caller
    fields present as strings, four steps without a fault of the
    environment end the execution successfully; the table has gained the
    caller's profile under the new id, the counter holds [c + 1], the pool
    has gained the account, and the output is the identity service's
    response for the new id. *)
Theorem happy_path (w : World) (kvs : list (string * json)) (c : Z)
    (fn ln em ph : string) (rest : list (option Fault)) :
  counter w = Some c ->
  has_profile (JObj kvs) fn ln em ph ->
  fresh (table w) (profile_key (Dec.show (c + 1))) = true ->
  pool w !! Dec.show (c + 1) = None ->
  run t u graph (None :: None :: None :: None :: rest) w "FindLastId" (JObj kvs) =
  ({| table := committed (table w) (Dec.show (c + 1)) fn ln em ph (c + 1);
      replica := replica w;
      pool := <[Dec.show (c + 1) := account em]> (pool w) |},
   Succeeded (user_response (Dec.show (c + 1)) (account em))).
Proof.
  intros Hc Hprof Hfresh Hfree.
  rewrite (run_running _ _ _ _ _ _ _ _ (allocate _ _ _ Hc)).
  rewrite (run_running _ _ _ _ _ _ _ _ (commit _ _ _ _ _ _ _ Hc Hprof Hfresh)).
  pose proof (allocated_profile_fields c kvs _ _ _ _ Hprof) as (_ & _ & Hem & _).
  pose proof (step_CreateCognitoUser None
                (with_table w (committed (table w) (Dec.show (c + 1)) fn ln em ph (c + 1)))
                _ _ _ (proj2 (context_written _ _ kvs)) Hem) as Hreg.
  cbn [pool with_table] in Hreg. rewrite Hfree in Hreg.
  rewrite (run_running _ _ _ _ _ _ _ _ Hreg).
  apply run_succeeded. apply step_Pass.
Qed.

(** X3. No compensation for an unclassified registration fault: when the
    registration step is hit by a fault other than username-exists, the
    execution fails with that fault and nothing is undone; the profile
    written by this run stays in the table and the counter stays advanced,
    with no account in the pool. *)
Theorem unclassified_registration_fault_strands_profile (w : World)
    (kvs : list (string * json)) (c : Z) (fn ln em ph : string)
    (f : Fault) (rest : list (option Fault)) :
  counter w = Some c ->
  has_profile (JObj kvs) fn ln em ph ->
  fresh (table w) (profile_key (Dec.show (c + 1))) = true ->
  Error f <> "CognitoIdentityProvider.UsernameExistsException" ->
  let r := run t u graph (None :: None :: Some f :: rest) w "FindLastId" (JObj kvs) in
  snd r = Failed (Some (Error f)) (Some (Cause f)) /\
  table (fst r) !! profile_key (Dec.show (c + 1))
    = Some (profile_item (Dec.show (c + 1)) fn ln em ph) /\
  counter (fst r) = Some (c + 1) /\
  pool (fst r) = pool w.
Proof.
  intros Hc Hprof Hfresh Hf r.
  assert (Hr : r = (with_table w (committed (table w) (Dec.show (c + 1)) fn ln em ph (c + 1)),
                    Failed (Some (Error f)) (Some (Cause f)))).
  { unfold r.
    rewrite (run_running _ _ _ _ _ _ _ _ (allocate _ _ _ Hc)).
    rewrite (run_running _ _ _ _ _ _ _ _ (commit _ _ _ _ _ _ _ Hc Hprof Hfresh)).
    pose proof (allocated_profile_fields c kvs _ _ _ _ Hprof) as (_ & _ & Hem & _).
    apply run_failed.
    rewrite (step_CreateCognitoUser _ _ _ _ _ (proj2 (context_written _ _ kvs)) Hem).
    rewrite handle_fault_register.
    assert (register_caught f = false) as ->.
    { destruct (register_caught f) eqn:E; [|reflexivity].
      apply register_caught_spec in E. contradiction. }
    reflexivity. }
  rewrite Hr. cbn [fst snd table pool with_table]. repeat split.
  - unfold committed. rewrite advance_other by apply profile_key_not_metadata.
    apply lookup_insert_eq.
  - apply counter_advance.
Qed.

Lemma delete_committed tb uid fn ln em ph q :
  tb !! profile_key uid = None ->
  delete (profile_key uid) (committed tb uid fn ln em ph q) = advance tb q.
Proof.
  intros H. unfold committed, advance.
  rewrite delete_insert_ne by apply profile_key_not_metadata.
  rewrite delete_insert_id by exact H.
  rewrite lookup_insert_ne by apply profile_key_not_metadata. reflexivity.
Qed.

Lemma register_taken w kvs uid em a :
  get_path ["context"; "userId"] (JObj kvs) = Some (JStr uid) ->
  get_path ["emailAddress"] (JObj kvs) = Some (JStr em) ->
  pool w !! uid = Some a ->
  step t u graph None w "CreateCognitoUser" (JObj kvs) =
  (w, Running "RollbackUser"
        (JObj (assoc_set "error" (error_output username_exists) kvs))).
Proof.
  intros Hu He Ha.
  rewrite (step_CreateCognitoUser _ _ _ _ _ Hu He), Ha, handle_fault_register.
  reflexivity.
Qed.

Lemma rollback_object w kvs uid :
  get_path ["context"; "userId"] (JObj kvs) = Some (JStr uid) ->
  step t u graph None w "RollbackUser" (JObj kvs) =
  (with_table w (delete (profile_key uid) (table w)),
   Running "Fail" (JObj (assoc_set "results" (JObj []) kvs))).
Proof. intros Hu. rewrite (step_RollbackUser _ _ _ _ Hu). reflexivity. Qed.

(** Five steps without a fault when the username is taken: the profile is
    written, the registration refused, the profile deleted, and the
    execution ends at [Fail]. *)
Lemma fault_free_rollback w kvs c fn ln em ph rest :
  counter w = Some c ->
  has_profile (JObj kvs) fn ln em ph ->
  table w !! profile_key (Dec.show (c + 1)) = None ->
  is_Some (pool w !! Dec.show (c + 1)) ->
  run t u graph (None :: None :: None :: None :: None :: rest) w "FindLastId" (JObj kvs) =
  (with_table w (advance (table w) (c + 1)), Failed None None).
Proof.
  intros Hc Hprof Habsent [a Htaken].
  rewrite (run_running _ _ _ _ _ _ _ _ (allocate _ _ _ Hc)).
  rewrite (run_running _ _ _ _ _ _ _ _
             (commit _ _ _ _ _ _ _ Hc Hprof (fresh_absent _ _ Habsent))).
  pose proof (allocated_profile_fields c kvs _ _ _ _ Hprof) as (_ & _ & Hem & _).
  unfold allocated_input in *.
  set (w1 := with_table w (committed (table w) (Dec.show (c + 1)) fn ln em ph (c + 1))).
  set (kvs1 := assoc_set "context" (context (Dec.show c) (Dec.show (c + 1))) kvs) in *.
  assert (Hu : get_path ["context"; "userId"] (JObj kvs1) = Some (JStr (Dec.show (c + 1))))
    by exact (proj2 (context_written _ _ kvs)).
  rewrite (run_running _ _ _ _ _ _ _ _
             (register_taken w1 kvs1 _ _ a Hu Hem Htaken)).
  set (kvs2 := assoc_set "error" (error_output username_exists) kvs1).
  assert (Hu2 : get_path ["context"; "userId"] (JObj kvs2) = Some (JStr (Dec.show (c + 1)))).
  { unfold kvs2. rewrite (set_member_frame "error" (error_output username_exists) (JObj kvs1)).
    - exact Hu.
    - reflexivity.
    - discriminate. }
  rewrite (run_running _ _ _ _ _ _ _ _ (rollback_object w1 kvs2 _ Hu2)).
  rewrite (run_failed _ _ _ _ _ _ _ _ (step_Fail _ _ _)).
  unfold w1. cbn [table with_table]. rewrite delete_committed by exact Habsent.
  reflexivity.
Qed.

(** X2. Write, then roll back: when the username of the new id turns out to be
    taken, the run ends at [Fail] after five steps and the table is what it
    was at the start except that the counter holds [c + 1]; the id is
    consumed, the profile is gone, the pool is untouched. *)
Theorem rollback_undoes_the_profile_write (w : World) (kvs : list (string * json))
    (c : Z) (fn ln em ph : string) (rest : list (option Fault)) :
  counter w = Some c ->
  has_profile (JObj kvs) fn ln em ph ->
  table w !! profile_key (Dec.show (c + 1)) = None ->
  is_Some (pool w !! Dec.show (c + 1)) ->
  run t u graph (None :: None :: None :: None :: None :: rest) w "FindLastId" (JObj kvs) =
  (with_table w (advance (table w) (c + 1)), Failed None None).
Proof.
  intros Hc Hprof Habsent [a Htaken].
  rewrite (run_running _ _ _ _ _ _ _ _ (allocate _ _ _ Hc)).
  rewrite (run_running _ _ _ _ _ _ _ _
             (commit _ _ _ _ _ _ _ Hc Hprof (fresh_absent _ _ Habsent))).
  pose proof (allocated_profile_fields c kvs _ _ _ _ Hprof) as (_ & _ & Hem & _).
  unfold allocated_input in *.
  set (w1 := with_table w (committed (table w) (Dec.show (c + 1)) fn ln em ph (c + 1))).
  set (kvs1 := assoc_set "context" (context (Dec.show c) (Dec.show (c + 1))) kvs) in *.
  assert (Hu : get_path ["context"; "userId"] (JObj kvs1) = Some (JStr (Dec.show (c + 1))))
    by exact (proj2 (context_written _ _ kvs)).
  rewrite (run_running _ _ _ _ _ _ _ _
             (register_taken w1 kvs1 _ _ a Hu Hem Htaken)).
  set (kvs2 := assoc_set "error" (error_output username_exists) kvs1).
  assert (Hu2 : get_path ["context"; "userId"] (JObj kvs2) = Some (JStr (Dec.show (c + 1)))).
  { unfold kvs2. rewrite (set_member_frame "error" (error_output username_exists) (JObj kvs1)).
    - exact Hu.
    - reflexivity.
    - discriminate. }
  rewrite (run_running _ _ _ _ _ _ _ _ (rollback_object w1 kvs2 _ Hu2)).
  rewrite (run_failed _ _ _ _ _ _ _ _ (step_Fail _ _ _)).
  unfold w1. cbn [table with_table]. rewrite delete_committed by exact Habsent.
  reflexivity.
Qed.

Lemma cancel_object w kvs p q fn ln em ph :
  has_context (JObj kvs) (Dec.show p) (Dec.show q) ->
  has_profile (JObj kvs) fn ln em ph ->
  fresh (table w) (profile_key (Dec.show q)) && counter_is (table w) p = false ->
  step t u graph None w "CreateDynamoDBUser" (JObj kvs) =
  (w, Running "CorrectLastId"
        (JObj (assoc_set "error" (error_output transaction_canceled) kvs))).
Proof.
  intros Hctx Hprof Hno.
  rewrite (step_CreateDynamoDBUser _ _ _ _ _ _ _ _ _ Hctx Hprof), Hno.
  rewrite handle_fault_write. reflexivity.
Qed.

Lemma correct_object w kvs p q :
  has_context (JObj kvs) (Dec.show p) (Dec.show q) ->
  counter w = Some p ->
  step t u graph None w "CorrectLastId" (JObj kvs) =
  (with_table w (advance (table w) q),
   Running "FindLastId" (JObj (assoc_set "results" (JObj []) kvs))).
Proof.
  intros Hctx Hc. unfold counter in Hc. apply counter_is_spec in Hc.
  rewrite (step_CorrectLastId _ _ _ _ _ Hctx), Hc. reflexivity.
Qed.

(** X4. What [CorrectLastId] is for: when the counter lags behind (a profile
    record already sits under the key of [c + 1] although the counter holds
    [c]), the run does not overwrite that record; the write is cancelled,
    the corrector moves the counter to [c + 1], the allocator reads again,
    and with [c + 2] unused the run succeeds with id [c + 2] after seven
    steps. The record that was in the way is untouched. *)
Theorem lagging_counter_is_skipped (w : World) (kvs : list (string * json)) (c : Z)
    (fn ln em ph : string) (it : list (string * attr)) (rest : list (option Fault)) :
  counter w = Some c ->
  has_profile (JObj kvs) fn ln em ph ->
  table w !! profile_key (Dec.show (c + 1)) = Some it ->
  is_Some (assoc "PK" it) ->
  fresh (table w) (profile_key (Dec.show (c + 2))) = true ->
  pool w !! Dec.show (c + 2) = None ->
  let r := run t u graph (None :: None :: None :: None :: None :: None :: None :: rest)
               w "FindLastId" (JObj kvs) in
  snd r = Succeeded (user_response (Dec.show (c + 2)) (account em)) /\
  counter (fst r) = Some (c + 2) /\
  table (fst r) !! profile_key (Dec.show (c + 1)) = Some it /\
  table (fst r) !! profile_key (Dec.show (c + 2))
    = Some (profile_item (Dec.show (c + 2)) fn ln em ph) /\
  pool (fst r) = <[Dec.show (c + 2) := account em]> (pool w).
Proof.
  intros Hc Hprof Hit [a Hpk] Hfresh Hfree r.
  set (w1 := with_table w (advance (table w) (c + 1))).
  set (kvs1 := assoc_set "results" (JObj [])
                 (assoc_set "error" (error_output transaction_canceled)
                    (assoc_set "context" (context (Dec.show c) (Dec.show (c + 1))) kvs))).
  assert (Hfirst : run t u graph (None :: None :: None :: None :: None :: None :: None :: rest)
                       w "FindLastId" (JObj kvs)
                   = run t u graph (None :: None :: None :: None :: rest)
                       w1 "FindLastId" (JObj kvs1)).
  { rewrite (run_running _ _ _ _ _ _ _ _ (allocate _ _ _ Hc)).
    unfold allocated_input.
    assert (Hctx0 := context_written (Dec.show c) (Dec.show (c + 1)) kvs).
    assert (Hp0 := allocated_profile_fields c kvs _ _ _ _ Hprof).
    unfold allocated_input in Hp0.
    assert (Hno : fresh (table w) (profile_key (Dec.show (c + 1)))
                  && counter_is (table w) c = false).
    { unfold fresh. rewrite Hit, Hpk. reflexivity. }
    rewrite (run_running _ _ _ _ _ _ _ _ (cancel_object _ _ _ _ _ _ _ _ Hctx0 Hp0 Hno)).
    assert (Hctx1 : has_context
              (JObj (assoc_set "error" (error_output transaction_canceled)
                       (assoc_set "context" (context (Dec.show c) (Dec.show (c + 1))) kvs)))
              (Dec.show c) (Dec.show (c + 1))).
    { eapply has_context_frame; [apply set_member_total | discriminate | exact Hctx0]. }
    rewrite (run_running _ _ _ _ _ _ _ _ (correct_object _ _ _ _ Hctx1 Hc)).
    reflexivity. }
  assert (Hc1 : counter w1 = Some (c + 1)) by apply counter_advance.
  assert (Hp1 : has_profile (JObj kvs1) fn ln em ph).
  { unfold kvs1.
    eapply has_profile_frame; [apply set_member_total | discriminate.. |].
    eapply has_profile_frame; [apply set_member_total | discriminate.. |].
    eapply has_profile_frame; [apply set_member_total | discriminate.. |].
    exact Hprof. }
  assert (Hfresh1 : fresh (table w1) (profile_key (Dec.show (c + 1 + 1))) = true).
  { unfold w1. cbn [table with_table]. rewrite fresh_advance.
    replace (c + 1 + 1) with (c + 2) by lia. exact Hfresh. }
  assert (Hfree1 : pool w1 !! Dec.show (c + 1 + 1) = None).
  { replace (c + 1 + 1) with (c + 2) by lia. exact Hfree. }
  assert (Hr : r = ({| table := committed (table w1) (Dec.show (c + 2)) fn ln em ph (c + 2);
                       replica := replica w1;
                       pool := <[Dec.show (c + 2) := account em]> (pool w1) |},
                    Succeeded (user_response (Dec.show (c + 2)) (account em)))).
  { unfold r. rewrite Hfirst.
    rewrite (fault_free_success w1 kvs1 (c + 1) fn ln em ph rest Hc1 Hp1 Hfresh1 Hfree1).
    replace (c + 1 + 1) with (c + 2) by lia. reflexivity. }
  rewrite Hr. cbn [fst snd table pool with_table w1]. repeat split.
  - apply counter_advance.
  - unfold committed. rewrite advance_other by apply profile_key_not_metadata.
    rewrite lookup_insert_ne.
    + rewrite advance_other by apply profile_key_not_metadata. exact Hit.
    + intros H. apply profile_key_inj, show_inj in H. lia.
  - unfold committed. rewrite advance_other by apply profile_key_not_metadata.
    apply lookup_insert_eq.
Qed.

(** X5. Two writers, one winner: of two invocations that allocated from the
    same counter value, once the first one's transaction has gone through
    the second one's is cancelled without touching anything, and the
    second execution then fails at the corrector: the first commit
    stands. *)
Theorem concurrent_writers_one_winner (w : World) (docA : json)
    (kvsB : list (string * json)) (c : Z)
    (fnA lnA emA phA fnB lnB emB phB : string) (rest : list (option Fault)) :
  has_context docA (Dec.show c) (Dec.show (c + 1)) ->
  has_profile docA fnA lnA emA phA ->
  has_context (JObj kvsB) (Dec.show c) (Dec.show (c + 1)) ->
  has_profile (JObj kvsB) fnB lnB emB phB ->
  snd (step t u graph None w "CreateDynamoDBUser" docA) = Running "CreateCognitoUser" docA ->
  let w1 := fst (step t u graph None w "CreateDynamoDBUser" docA) in
  step t u graph None w1 "CreateDynamoDBUser" (JObj kvsB) =
    (w1, Running "CorrectLastId"
           (JObj (assoc_set "error" (error_output transaction_canceled) kvsB))) /\
  run t u graph (None :: None :: rest) w1 "CreateDynamoDBUser" (JObj kvsB) =
    (w1, Failed (Some "DynamoDb.ConditionalCheckFailedException")
                (Some "The conditional request failed")) /\
  table w1 !! profile_key (Dec.show (c + 1))
    = Some (profile_item (Dec.show (c + 1)) fnA lnA emA phA).
Proof.
  intros HctxA HprofA HctxB HprofB HA w1.
  assert (Hw1 : w1 = with_table w (committed (table w) (Dec.show (c + 1)) fnA lnA emA phA (c + 1))).
  { unfold w1. revert HA.
    rewrite (step_CreateDynamoDBUser _ _ _ _ _ _ _ _ _ HctxA HprofA).
    destruct (fresh _ _ && counter_is _ _); [reflexivity|].
    cbn [snd]. intros H. exfalso. exact (write_fault_leaves _ _ _ H). }
  assert (Hc1 : counter_is (table w1) c = false).
  { destruct (counter_is (table w1) c) eqn:E; [|reflexivity].
    apply counter_is_spec in E. rewrite Hw1 in E. cbn [table with_table] in E.
    unfold committed in E. rewrite counter_advance in E. injection E as E. lia. }
  assert (Hcancel : step t u graph None w1 "CreateDynamoDBUser" (JObj kvsB) =
            (w1, Running "CorrectLastId"
                   (JObj (assoc_set "error" (error_output transaction_canceled) kvsB)))).
  { apply (cancel_object _ _ _ _ _ _ _ _ HctxB HprofB).
    rewrite Hc1. apply andb_false_r. }
  split; [exact Hcancel|]. split.
  - rewrite (run_running _ _ _ _ _ _ _ _ Hcancel).
    apply run_failed.
    assert (Hctx1 : has_context
              (JObj (assoc_set "error" (error_output transaction_canceled) kvsB))
              (Dec.show c) (Dec.show (c + 1))).
    { eapply has_context_frame; [apply set_member_total | discriminate | exact HctxB]. }
    rewrite (step_CorrectLastId _ _ _ _ _ Hctx1), Hc1. reflexivity.
  - rewrite Hw1. cbn [table with_table]. unfold committed.
    rewrite advance_other by apply profile_key_not_metadata.
    apply lookup_insert_eq.
Qed.

(** X9. No counter, no allocation. When the counter record is missing, or
    its [LastId] is missing or not a number, the execution is ended at the
    allocator, where the result selector reads [$.Item.LastId.N] from the
    answer of the read. When the counter is there but the input of the
    execution is not an object, the execution is ended at the allocator
    too, where the result path [$.context] cannot be written into the
    input. In both cases the first step is the last, no catcher runs, and
    the world is as it was: the machine never creates the counter record
    itself. *)
Theorem allocation_needs_counter_record (w : World) (doc : json)
    (rest : list (option Fault)) :
  (counter w = None ->
   run t u graph (None :: rest) w "FindLastId" doc = (w, Aborted AtResultSelector)) /\
  (is_Some (counter w) -> is_object doc = false ->
   run t u graph (None :: rest) w "FindLastId" doc = (w, Aborted AtResultPath)).
Proof.
  split.
  - intros H. apply run_aborted. rewrite step_FindLastId, H. reflexivity.
  - intros [c Hc] Hobj. apply run_aborted. rewrite step_FindLastId, Hc.
    destruct doc; try reflexivity. discriminate Hobj.
Qed.

(** The four fields of a request that the write step reads. *)
Definition request_fields : list string :=
  ["firstName"; "lastName"; "emailAddress"; "phoneNumber"].

Lemma allocated_input_field c kvs k :
  k <> "context" ->
  get_path [k] (allocated_input c kvs) = get_path [k] (JObj kvs).
Proof.
  intros Hk. unfold allocated_input.
  apply (set_member_frame "context" (context (Dec.show c) (Dec.show (c + 1)))
           (JObj kvs) _ k [] (set_member_total _ _ _) Hk).
Qed.

(** X10. A request without its four string fields costs nothing: if one of
    [firstName], [lastName], [emailAddress], [phoneNumber] is missing from
    the input or is not a string, the execution ends at the write step
    before anything is written; the table, the counter and the pool are as
    they were. When a field is missing, the parameters of the write cannot
    be built and the execution is ended there; when all four are there
    and one is not a string, the table service refuses the request and the
    execution fails with that error, which no catcher of the write step
    names. *)
Theorem incomplete_request_writes_nothing (w : World) (kvs : list (string * json))
    (c : Z) (rest : list (option Fault)) :
  counter w = Some c ->
  (forall fn ln em ph, ~ has_profile (JObj kvs) fn ln em ph) ->
  exists s,
    run t u graph (None :: None :: rest) w "FindLastId" (JObj kvs) = (w, s) /\
    match s with
    | Aborted a =>
        a = AtParameters /\
        exists k, k ∈ request_fields /\ get_path [k] (JObj kvs) = None
    | Failed e cause =>
        is_Some e /\ is_Some cause /\
        forall k, k ∈ request_fields -> is_Some (get_path [k] (JObj kvs))
    | _ => False
    end.
Proof.
  intros Hc Hbad.
  rewrite (run_running _ _ _ _ _ _ _ _ (allocate _ _ _ Hc)).
  assert (Hbad1 : forall fn ln em ph, ~ has_profile (allocated_input c kvs) fn ln em ph).
  { intros fn ln em ph (H1 & H2 & H3 & H4). apply (Hbad fn ln em ph).
    unfold has_profile.
    rewrite <- !(allocated_input_field c) by discriminate. auto. }
  assert (Hctx : has_context (allocated_input c kvs) (Dec.show c) (Dec.show (c + 1)))
    by apply context_written.
  assert (Hmiss : forall k, k ∈ request_fields ->
            get_path [k] (allocated_input c kvs) = None ->
            exists k, k ∈ request_fields /\ get_path [k] (JObj kvs) = None).
  { intros k Hk Hn. exists k. split; [exact Hk|].
    rewrite <- (allocated_input_field c); [exact Hn|].
    unfold request_fields in Hk.
    repeat (apply elem_of_cons in Hk; destruct Hk as [->|Hk]; [discriminate|]).
    exfalso. exact (not_elem_of_nil _ Hk). }
  assert (E1 : "firstName" ∈ request_fields) by (unfold request_fields; apply list_elem_of_here).
  assert (E2 : "lastName" ∈ request_fields)
    by (unfold request_fields; do 1 apply list_elem_of_further; apply list_elem_of_here).
  assert (E3 : "emailAddress" ∈ request_fields)
    by (unfold request_fields; do 2 apply list_elem_of_further; apply list_elem_of_here).
  assert (E4 : "phoneNumber" ∈ request_fields)
    by (unfold request_fields; do 3 apply list_elem_of_further; apply list_elem_of_here).
  set (doc := allocated_input c kvs) in *.
  assert (Hstep :
            (step t u graph None w "CreateDynamoDBUser" doc = (w, Aborted AtParameters) /\
             exists k, k ∈ request_fields /\ get_path [k] (JObj kvs) = None) \/
            (exists e cause,
               step t u graph None w "CreateDynamoDBUser" doc
                 = (w, Failed (Some e) (Some cause)) /\
               forall k, k ∈ request_fields -> is_Some (get_path [k] (JObj kvs)))).
  { rewrite (step_at _ _ _ _ _ graph_CreateDynamoDBUser).
    destruct writer_task as (pr & Hk & Hsv & Hac & Hsel & Hrp).
    unfold step_state. rewrite Hk.
    rewrite (writer_parameters _ _ _ _ Hk Hctx).
    destruct (get_path ["firstName"] doc) as [fn|] eqn:Hfn;
      [|left; split; [reflexivity | exact (Hmiss _ E1 Hfn)]].
    destruct (get_path ["lastName"] doc) as [ln|] eqn:Hln;
      [|left; split; [reflexivity | exact (Hmiss _ E2 Hln)]].
    destruct (get_path ["emailAddress"] doc) as [em|] eqn:Hem;
      [|left; split; [reflexivity | exact (Hmiss _ E3 Hem)]].
    destruct (get_path ["phoneNumber"] doc) as [ph|] eqn:Hph;
      [|left; split; [reflexivity | exact (Hmiss _ E4 Hph)]].
    right.
    rewrite Hsv, Hac. cbn [call_aws String.eqb Ascii.eqb Bool.eqb].
    destruct (decode_put (put_member (Dec.show (c + 1)) fn ln em ph)) as [op|] eqn:Hput.
    - exfalso. rewrite put_member_decodes in Hput.
      destruct fn as [| | |fn| |]; try discriminate Hput.
      destruct ln as [| | |ln| |]; try discriminate Hput.
      destruct em as [| | |em| |]; try discriminate Hput.
      destruct ph as [| | |ph| |]; try discriminate Hput.
      apply (Hbad1 fn ln em ph). unfold has_profile. auto.
    - rewrite transact_writer_invalid by exact Hput.
      rewrite handle_fault_write. eexists _, _. split; [reflexivity|].
      intros k Hin. unfold request_fields in Hin.
      subst doc.
      repeat (apply elem_of_cons in Hin; destruct Hin as [->|Hin];
              [rewrite <- (allocated_input_field c) by discriminate; eauto|]).
      exfalso. exact (not_elem_of_nil _ Hin). }
  destruct Hstep as [[Hstep Hk] | (e & cause & Hstep & Hall)].
  - exists (Aborted AtParameters). split; [apply run_aborted; exact Hstep|].
    split; [reflexivity | exact Hk].
  - exists (Failed (Some e) (Some cause)). split; [apply run_failed; exact Hstep|].
    split; [eexists; reflexivity|]. split; [eexists; reflexivity | exact Hall].
Qed.

(** X11. Distinct counter values give distinct ids and distinct profile keys:
    the decimal text the allocator formats reads back as the number it
    came from, so no two allocations share a user id or a record key. *)
Theorem allocated_ids_are_distinct (w1 w2 : World) (kvs1 kvs2 : list (string * json))
    (c1 c2 : Z) (d1 d2 : json) (uid1 uid2 : string) :
  counter w1 = Some c1 ->
  counter w2 = Some c2 ->
  snd (step t u graph None w1 "FindLastId" (JObj kvs1)) = Running "CreateDynamoDBUser" d1 ->
  snd (step t u graph None w2 "FindLastId" (JObj kvs2)) = Running "CreateDynamoDBUser" d2 ->
  get_path ["context"; "userId"] d1 = Some (JStr uid1) ->
  get_path ["context"; "userId"] d2 = Some (JStr uid2) ->
  (Dec.read uid1 = Some (c1 + 1) /\ Dec.read uid2 = Some (c2 + 1)) /\
  (uid1 = uid2 -> c1 = c2) /\
  (profile_key uid1 = profile_key uid2 -> c1 = c2).
Proof.
  intros Hc1 Hc2. rewrite (allocate _ _ _ Hc1), (allocate _ _ _ Hc2). cbn [snd].
  intros [= <-] [= <-] Hu1 Hu2.
  pose proof (proj2 (context_written (Dec.show c1) (Dec.show (c1 + 1)) kvs1)) as H1.
  pose proof (proj2 (context_written (Dec.show c2) (Dec.show (c2 + 1)) kvs2)) as H2.
  unfold allocated_input in Hu1, Hu2. rewrite H1 in Hu1. rewrite H2 in Hu2.
  injection Hu1 as <-. injection Hu2 as <-.
  split; [split; apply read_show|]. split.
  - intros H. apply show_inj in H. lia.
  - intros H. apply profile_key_inj, show_inj in H. lia.
Qed.

(** X8. Each state touches only its own resource: on a run that started at
    the allocator, the user pool changes only in [CreateCognitoUser], the
    table only in [CreateDynamoDBUser], [CorrectLastId] and [RollbackUser]
    (the corrector changing nothing but the counter record), and the
    replica never; [FindLastId], [Pass] and [Fail] change nothing at
    all. *)
Theorem steps_touch_only_their_resource (ev : option Fault) (w w' : World)
    (cur : string) (doc : json) (s : status) :
  on_track cur doc ->
  step t u graph ev w cur doc = (w', s) ->
  replica w' = replica w /\
  (cur <> "CreateCognitoUser" -> pool w' = pool w) /\
  (cur <> "CreateDynamoDBUser" -> cur <> "CorrectLastId" -> cur <> "RollbackUser" ->
   table w' = table w) /\
  (cur = "CorrectLastId" -> forall k, k <> metadata_key -> table w' !! k = table w !! k) /\
  (cur = "FindLastId" \/ cur = "Pass" \/ cur = "Fail" -> w' = w).
Proof.
  intros Htrack Hstep.
  destruct (step_effect _ _ _ _ _ _ Htrack Hstep) as [Heff _].
  destruct Heff as [s _ | p fn ln em ph -> _ _ _ _ | p d -> _ _
                   | p em -> _ _ _ | p d -> _];
    (split; [reflexivity|]); (split; [|split; [|split]]);
    try (intros; reflexivity); try (intros; congruence);
    try (intros [H|[H|H]]; discriminate H).
  intros _ k Hk. cbn [table with_table]. apply advance_other. exact Hk.
Qed.

(** ** Runs as a whole *)

(** The states a run enters, in order. *)
Fixpoint visited (schedule : list (option Fault)) (w : World) (cur : string) (doc : json)
  : list string :=
  match schedule with
  | [] => []
  | ev :: rest =>
      cur :: match step t u graph ev w cur doc with
             | (w', Running n d) => visited rest w' n d
             | _ => []
             end
  end.

(** How often a run went through the counter corrector. *)
Definition corrections (schedule : list (option Fault)) (w : World) (cur : string)
    (doc : json) : nat :=
  count_occ String.string_dec (visited schedule w cur doc) "CorrectLastId".

(** *** The world along a successful run *)

(** The state input still carries the four fields of the request. *)
Definition same_request (input doc : json) : Prop :=
  get_path ["firstName"] doc = get_path ["firstName"] input /\
  get_path ["lastName"] doc = get_path ["lastName"] input /\
  get_path ["emailAddress"] doc = get_path ["emailAddress"] input /\
  get_path ["phoneNumber"] doc = get_path ["phoneNumber"] input.

(** Nothing but the counter record differs from the table and the pool
    the run began with. *)
Definition untouched (tb0 : gmap (string * string) (list (string * attr)))
    (pl0 : gmap string (list (string * string))) (w : World) : Prop :=
  (forall k, k <> metadata_key -> table w !! k = tb0 !! k) /\ pool w = pl0.

(** The profile of id [n] is in the table with the caller's fields, and
    nothing else but the counter record differs from the table the run
    began with. *)
Definition written (tb0 : gmap (string * string) (list (string * attr)))
    (w : World) (n : Z) (fn ln em ph : string) : Prop :=
  table w !! profile_key (Dec.show n) = Some (profile_item (Dec.show n) fn ln em ph) /\
  (forall k, k <> metadata_key -> k <> profile_key (Dec.show n) ->
             table w !! k = tb0 !! k).

(** What is due on entering a state: [due input tb0 pl0 w b] holds of a
    state when the run, if it succeeds from there without another
    correction, ends with the counter at [b + 1]. Up to the write the
    counter holds [b], the allocated ids are [b] and [b + 1], and nothing
    but the counter may have changed; from registration on the counter
    holds [b + 1] and the profile of [b + 1] is written. *)
Inductive due (input : json) (tb0 : gmap (string * string) (list (string * attr)))
    (pl0 : gmap string (list (string * string))) (w : World) (b : Z)
  : string -> json -> Prop :=
| due_allocation doc :
    counter w = Some b -> untouched tb0 pl0 w -> same_request input doc ->
    due input tb0 pl0 w b "FindLastId" doc
| due_write doc :
    counter w = Some b -> has_context doc (Dec.show b) (Dec.show (b + 1)) ->
    untouched tb0 pl0 w -> same_request input doc ->
    due input tb0 pl0 w b "CreateDynamoDBUser" doc
| due_correction doc :
    counter w = Some b -> has_context doc (Dec.show b) (Dec.show (b + 1)) ->
    untouched tb0 pl0 w -> same_request input doc ->
    due input tb0 pl0 w b "CorrectLastId" doc
| due_registration doc fn ln em ph :
    counter w = Some (b + 1) -> has_context doc (Dec.show b) (Dec.show (b + 1)) ->
    has_profile doc fn ln em ph -> has_profile input fn ln em ph ->
    written tb0 w (b + 1) fn ln em ph -> pool w = pl0 ->
    due input tb0 pl0 w b "CreateCognitoUser" doc
| due_end fn ln em ph :
    counter w = Some (b + 1) -> has_profile input fn ln em ph ->
    written tb0 w (b + 1) fn ln em ph ->
    pool w = <[Dec.show (b + 1) := account em]> pl0 ->
    due input tb0 pl0 w b "Pass" (user_response (Dec.show (b + 1)) (account em))
| due_rollback doc : due input tb0 pl0 w b "RollbackUser" doc
| due_fail doc : due input tb0 pl0 w b "Fail" doc.

Lemma same_request_frame input doc doc' k v :
  set_path [k] v doc = Some doc' ->
  k <> "firstName" -> k <> "lastName" -> k <> "emailAddress" -> k <> "phoneNumber" ->
  same_request input doc -> same_request input doc'.
Proof.
  intros Hs H1 H2 H3 H4 (Hfn & Hln & Hem & Hph). unfold same_request.
  rewrite !(set_member_frame _ _ _ _ _ _ Hs) by congruence. auto.
Qed.

Lemma same_request_profile input doc fn ln em ph :
  same_request input doc -> has_profile doc fn ln em ph -> has_profile input fn ln em ph.
Proof.
  intros (Hfn & Hln & Hem & Hph) (H1 & H2 & H3 & H4). unfold has_profile.
  rewrite <- Hfn, <- Hln, <- Hem, <- Hph. auto.
Qed.

Lemma due_at_Pass input tb0 pl0 w b cur doc :
  due input tb0 pl0 w b cur doc -> cur = "Pass" ->
  exists fn ln em ph,
    doc = user_response (Dec.show (b + 1)) (account em) /\
    counter w = Some (b + 1) /\
    has_profile input fn ln em ph /\
    written tb0 w (b + 1) fn ln em ph /\
    pool w = <[Dec.show (b + 1) := account em]> pl0.
Proof.
  intros H E. destruct H; try discriminate E.
  exists fn, ln, em, ph. auto.
Qed.

(** Only the corrector moves the base: it advances the counter from [b]
    to [b + 1] and sends the run back to the allocator. *)
Lemma due_step input tb0 pl0 ev w cur doc w' n d b :
  due input tb0 pl0 w b cur doc ->
  step t u graph ev w cur doc = (w', Running n d) ->
  (cur <> "CorrectLastId" -> due input tb0 pl0 w' b n d) /\
  (cur = "CorrectLastId" -> due input tb0 pl0 w' (b + 1) n d).
Proof.
  intros Hp.
  destruct Hp as [doc Hc Hun Hreq | doc Hc Hctx Hun Hreq | doc Hc Hctx Hun Hreq
                 | doc fn ln em ph Hc Hctx Hprof Hin Hwr Hpl
                 | fn ln em ph Hc Hin Hwr Hpl | doc | doc];
    intros H.
  - (* FindLastId *)
    split; [intros _ | intros E; discriminate E].
    rewrite step_FindLastId in H. destruct ev as [f|]; [discriminate H|].
    rewrite Hc in H.
    destruct (set_path ["context"] _ doc) as [dd|] eqn:Hset; [|discriminate H].
    injection H as <- <- <-.
    pose proof (same_request_frame _ _ _ _ _ Hset
                  ltac:(discriminate) ltac:(discriminate)
                  ltac:(discriminate) ltac:(discriminate) Hreq) as Hreq'.
    destruct (set_member_object _ _ _ _ Hset) as (kvs & -> & ->).
    apply due_write; [exact Hc | apply context_written | exact Hun | exact Hreq'].
  - (* CreateDynamoDBUser *)
    split; [intros _ | intros E; discriminate E].
    destruct (step_along_saga_edge _ _ _ _ _ _ _ H) as [via Hv].
    edge_cases Hv.
    + destruct (step_CreateDynamoDBUser_success _ _ _ _ _ _ _ Hctx H)
        as (_ & -> & fn & ln & em & ph & Hprof & _ & _ & ->).
      destruct Hun as [Htb Hpl].
      apply (due_registration _ _ _ _ _ _ fn ln em ph).
      * apply counter_advance.
      * exact Hctx.
      * exact Hprof.
      * exact (same_request_profile _ _ _ _ _ _ Hreq Hprof).
      * split.
        -- cbn [table with_table]. unfold committed.
           rewrite advance_other by apply profile_key_not_metadata.
           apply lookup_insert_eq.
        -- intros k Hk1 Hk2. cbn [table with_table]. unfold committed.
           rewrite advance_other by exact Hk1.
           rewrite lookup_insert_ne by congruence. exact (Htb _ Hk1).
      * exact Hpl.
    + destruct (write_cases _ _ _ _ _ _ _ Hctx H) as [[-> _] | (_ & Hs & _)];
        [|discriminate Hs].
      destruct (caught_records_error _ _ _ _ _ _ _
                  (or_introl (conj eq_refl eq_refl)) H) as [f Hf].
      apply due_correction; [exact Hc | | exact Hun |].
      * eapply has_context_frame; [exact Hf | discriminate | exact Hctx].
      * apply (same_request_frame _ _ _ _ _ Hf); try discriminate. exact Hreq.
  - (* CorrectLastId *)
    split; [intros E; exfalso; apply E; reflexivity | intros _].
    rewrite (step_CorrectLastId _ _ _ _ _ Hctx) in H.
    destruct ev as [f|]; [discriminate H|].
    apply counter_is_spec in Hc. rewrite Hc in H.
    destruct (set_path ["results"] _ doc) as [dd|] eqn:Hset; [|discriminate H].
    injection H as <- <- <-.
    destruct Hun as [Htb Hpl].
    apply due_allocation.
    + apply counter_advance.
    + split; [|exact Hpl]. intros k Hk. cbn [table with_table].
      rewrite advance_other by exact Hk. exact (Htb _ Hk).
    + apply (same_request_frame _ _ _ _ _ Hset); try discriminate. exact Hreq.
  - (* CreateCognitoUser *)
    split; [intros _ | intros E; discriminate E].
    destruct (register_cases _ _ _ _ _ H)
      as [[-> Hno] | (uid & em' & Hu & He & _ & _ & -> & Hs)].
    + destruct (step_along_saga_edge _ _ _ _ _ _ _ H) as [via Hv].
      edge_cases Hv.
      * exfalso. exact (Hno _ eq_refl).
      * apply due_rollback.
    + injection Hs as -> ->.
      destruct Hctx as [_ Hu']. rewrite Hu' in Hu. injection Hu as <-.
      destruct Hprof as (_ & _ & He' & _). rewrite He' in He. injection He as <-.
      apply (due_end _ _ _ _ _ fn ln em ph).
      * exact Hc.
      * exact Hin.
      * exact Hwr.
      * cbn [pool with_pool]. rewrite Hpl. reflexivity.
  - (* Pass *)
    rewrite step_Pass in H. discriminate H.
  - (* RollbackUser *)
    split; [intros _ | intros E; discriminate E].
    destruct (step_along_saga_edge _ _ _ _ _ _ _ H) as [via Hv].
    edge_cases Hv. apply due_fail.
  - (* Fail *)
    rewrite step_Fail in H. discriminate H.
Qed.

(** A successful run ends with the counter one above the base, plus one
    for every time it went through the corrector; the profile of that id
    is written with the caller's fields, the account of that id is added
    to the pool, and nothing else but the counter record has changed. *)
Lemma run_counts_corrections schedule input tb0 pl0 :
  forall w cur doc w' out b,
    due input tb0 pl0 w b cur doc ->
    run t u graph schedule w cur doc = (w', Succeeded out) ->
    let n := b + 1 + Z.of_nat (corrections schedule w cur doc) in
    exists fn ln em ph,
      out = user_response (Dec.show n) (account em) /\
      counter w' = Some n /\
      has_profile input fn ln em ph /\
      written tb0 w' n fn ln em ph /\
      pool w' = <[Dec.show n := account em]> pl0.
Proof.
  unfold corrections.
  induction schedule as [|ev rest IH]; intros w cur doc w' out b Hp; cbn [run visited].
  - intros H. discriminate H.
  - destruct (step t u graph ev w cur doc) as [w1 [n d|o|e c|a]] eqn:E.
    + intros H. destruct (due_step _ _ _ _ _ _ _ _ _ _ _ Hp E) as [Hne Heq].
      cbn [count_occ]. destruct (String.string_dec cur "CorrectLastId") as [Hc|Hc].
      * pose proof (IH _ _ _ _ _ _ (Heq Hc) H) as HI. cbv zeta in HI |- *.
        replace (b + 1 + Z.of_nat (S (count_occ String.string_dec (visited rest w1 n d)
                                                "CorrectLastId")))
          with (b + 1 + 1 + Z.of_nat (count_occ String.string_dec (visited rest w1 n d)
                                                "CorrectLastId")) by lia.
        exact HI.
      * exact (IH _ _ _ _ _ _ (Hne Hc) H).
    + intros H. injection H as <- <-.
      destruct (step_succeeds_at_Pass _ _ _ _ _ _ E) as (-> & -> & ->).
      cbn [count_occ].
      destruct (String.string_dec "Pass" "CorrectLastId") as [Hc|_]; [discriminate Hc|].
      cbn [count_occ Z.of_nat]. cbv zeta. rewrite Z.add_0_r.
      destruct (due_at_Pass _ _ _ _ _ _ _ Hp eq_refl) as (fn & ln & em & ph & H1 & H2 & H3 & H4 & H5).
      exists fn, ln, em, ph. auto.
    + intros H. discriminate H.
    + intros H. discriminate H.
Qed.

(** *** How a run can fail *)

Definition is_fail (st : State) : bool :=
  match kind st with
  | Fail _ _ => true
  | _ => false
  end.

Lemma fail_state_names :
  (fun kv : string * State => fst kv) <$>
    filter (fun kv => is_fail (snd kv) = true) (map_to_list graph)
  = ["Fail"].
Proof. vm_compute. reflexivity. Qed.

Lemma handle_fault_failed st doc f e c :
  handle_fault st doc f = Failed e c -> e = Some (Error f) /\ c = Some (Cause f).
Proof.
  unfold handle_fault. destruct (find_catcher (catches st) f) as [[cp h]|].
  - destruct (Asl.apply_result_path _ _ _); intros H; discriminate H.
  - intros H. injection H as <- <-. auto.
Qed.

Lemma handle_result_not_failed p st doc res e c :
  handle_result p st doc res <> Failed e c.
Proof.
  unfold handle_result.
  destruct (match resultSelector p with Some _ => _ | None => _ end);
    [|intros H; discriminate H].
  destruct (Asl.apply_result_path _ _ _); [|intros H; discriminate H].
  unfold leave. destruct (nextState st); intros H; discriminate H.
Qed.

(** A step fails the execution in one of two ways: at the [Fail] state,
    which names no error and no cause, or with a fault of a task that no
    catcher of the task names. *)
Lemma step_failed ev w cur doc w' e c :
  step t u graph ev w cur doc = (w', Failed e c) ->
  (cur = "Fail" /\ e = None /\ c = None) \/
  (exists f, e = Some (Error f) /\ c = Some (Cause f)).
Proof.
  unfold step. destruct (graph !! cur) as [st|] eqn:Hst; [|intros H; discriminate H].
  unfold step_state. destruct (kind st) as [p| |e0 c0] eqn:Hk.
  - destruct (Asl.eval_template (parameters p) doc) as [req|]; [|intros H; discriminate H].
    destruct ev as [f|].
    + intros H. injection H as _ H. right. exists f. exact (handle_fault_failed _ _ _ _ _ H).
    + destruct (call_aws t u w (service p) (action p) req) as [w1 [f|res]];
        intros H; injection H as _ H.
      * right. exists f. exact (handle_fault_failed _ _ _ _ _ H).
      * exfalso. exact (handle_result_not_failed _ _ _ _ _ _ H).
  - intros H. injection H as _ H. unfold leave in H.
    destruct (nextState st); discriminate H.
  - intros H. injection H as _ <- <-. left.
    assert (Hin : cur ∈ (fun kv : string * State => fst kv) <$>
                  filter (fun kv => is_fail (snd kv) = true) (map_to_list graph)).
    { apply (list_elem_of_fmap_2' _ _ (cur, st)); [|reflexivity].
      apply list_elem_of_filter. split.
      - unfold is_fail. cbn [snd]. rewrite Hk. reflexivity.
      - apply elem_of_map_to_list. exact Hst. }
    rewrite fail_state_names in Hin.
    apply list_elem_of_singleton in Hin as ->.
    destruct (end_states "Fail" st Hst) as [[E _] | [_ Hf]].
    + rewrite graph_Fail in Hst. injection Hst as <-. reflexivity.
    + discriminate E.
    + rewrite Hk in Hf. injection Hf as -> ->. auto.
Qed.

(** A run that fails carries the error and cause of an uncaught fault, or
    it carries nothing: then it ended at [Fail], which is entered from
    the rollback only. *)
Lemma run_failed_shape schedule :
  forall w cur doc w' e c,
    cur <> "Fail" ->
    run t u graph schedule w cur doc = (w', Failed e c) ->
    (exists f, e = Some (Error f) /\ c = Some (Cause f)) \/
    (e = None /\ c = None /\ "RollbackUser" ∈ visited schedule w cur doc).
Proof.
  induction schedule as [|ev rest IH]; intros w cur doc w' e c Hne; cbn [run visited].
  - intros H. discriminate H.
  - destruct (step t u graph ev w cur doc) as [w1 [n d|o|e0 c0|a]] eqn:E.
    + intros H. destruct (String.string_dec n "Fail") as [->|Hn].
      * right.
        destruct (step_along_saga_edge _ _ _ _ _ _ _ E) as [via Hv].
        edge_cases Hv.
        destruct rest as [|ev' rest']; cbn [run] in H; [discriminate H|].
        rewrite step_Fail in H. injection H as _ <- <-.
        split; [reflexivity|]. split; [reflexivity|]. apply list_elem_of_here.
      * destruct (IH _ _ _ _ _ _ Hn H) as [Hf | (He & Hc & Hin)].
        -- left. exact Hf.
        -- right. split; [exact He|]. split; [exact Hc|].
           apply list_elem_of_further. exact Hin.
    + intros H. discriminate H.
    + intros H. injection H as _ <- <-.
      destruct (step_failed _ _ _ _ _ _ _ E) as [[Hc _] | Hf].
      * exfalso. exact (Hne Hc).
      * left. exact Hf.
    + intros H. discriminate H.
Qed.

(** *** Where a run can be *)

Lemma handle_fault_stage st doc f a : handle_fault st doc f = Aborted a -> a = AtResultPath.
Proof.
  unfold handle_fault. destruct (find_catcher (catches st) f) as [[cp h]|].
  - destruct (Asl.apply_result_path _ _ _); intros H; [discriminate H|].
    injection H as <-. reflexivity.
  - intros H. discriminate H.
Qed.

Lemma handle_result_stage p st doc res a :
  handle_result p st doc res = Aborted a -> a = AtResultSelector \/ a = AtResultPath.
Proof.
  unfold handle_result.
  destruct (match resultSelector p with Some _ => _ | None => _ end).
  - destruct (Asl.apply_result_path _ _ _).
    + unfold leave. destruct (nextState st); intros H; discriminate H.
    + intros H. injection H as <-. right. reflexivity.
  - intros H. injection H as <-. left. reflexivity.
Qed.

(** Only a state that is not in the graph aborts the execution at
    [AtState]. *)
Lemma step_aborted_at_state ev w cur doc w' :
  step t u graph ev w cur doc = (w', Aborted AtState) -> graph !! cur = None.
Proof.
  unfold step. destruct (graph !! cur) as [st|]; [|reflexivity].
  unfold step_state. destruct (kind st) as [p| |e0 c0].
  - destruct (Asl.eval_template (parameters p) doc) as [req|]; [|intros H; discriminate H].
    destruct ev as [f|].
    + intros H. injection H as _ H. apply handle_fault_stage in H. discriminate H.
    + destruct (call_aws t u w (service p) (action p) req) as [w1 [f|res]];
        intros H; injection H as _ H.
      * apply handle_fault_stage in H. discriminate H.
      * apply handle_result_stage in H. destruct H as [H|H]; discriminate H.
  - intros H. injection H as _ H. unfold leave in H.
    destruct (nextState st); discriminate H.
  - intros H. discriminate H.
Qed.

Lemma saga_edge_target a via b : (a, via, b) ∈ saga_edges -> is_Some (graph !! b).
Proof.
  intros H. edge_cases H.
  all: first [ rewrite graph_FindLastId | rewrite graph_CreateDynamoDBUser
             | rewrite graph_CreateCognitoUser | rewrite graph_CorrectLastId
             | rewrite graph_RollbackUser | rewrite graph_Pass | rewrite graph_Fail ].
  all: eexists; reflexivity.
Qed.

(** A run stays within the graph: an unfinished run stands at a state of
    the graph, and no run is aborted for want of a state. *)
Lemma run_within_graph schedule :
  forall w cur doc w' s,
    is_Some (graph !! cur) ->
    run t u graph schedule w cur doc = (w', s) ->
    match s with
    | Running n _ => is_Some (graph !! n)
    | Aborted a => a <> AtState
    | _ => True
    end.
Proof.
  induction schedule as [|ev rest IH]; intros w cur doc w' s Hcur; cbn [run].
  - intros H. injection H as _ <-. exact Hcur.
  - destruct (step t u graph ev w cur doc) as [w1 [n d|o|e0 c0|a]] eqn:E.
    + apply IH. destruct (step_along_saga_edge _ _ _ _ _ _ _ E) as [via Hv].
      exact (saga_edge_target _ _ _ Hv).
    + intros H. injection H as _ <-. exact I.
    + intros H. injection H as _ <-. exact I.
    + intros H. injection H as _ <-. intros ->.
      apply step_aborted_at_state in E. rewrite E in Hcur.
      destruct Hcur as [x Hx]. discriminate Hx.
Qed.

(** *** Every run ends *)

Lemma terminates_CorrectLastId w doc : terminates w "CorrectLastId" doc.
Proof.
  apply terminates_from. intros w' n d H.
  destruct (step_along_saga_edge _ _ _ _ _ _ _ H) as [via Hv].
  edge_cases Hv. apply saga_terminates.
Qed.

Lemma terminates_CreateDynamoDBUser w doc : terminates w "CreateDynamoDBUser" doc.
Proof.
  apply terminates_from. intros w' n d H.
  destruct (step_along_saga_edge _ _ _ _ _ _ _ H) as [via Hv].
  edge_cases Hv; [apply terminates_CreateCognitoUser | apply terminates_CorrectLastId].
Qed.

(** Left alone, the execution ends from wherever it stands. *)
Lemma terminates_everywhere w cur doc : terminates w cur doc.
Proof.
  destruct (graph_states cur) as [Hin | Hnone].
  - apply elem_of_cons in Hin. destruct Hin as [->|Hin]; [apply terminates_CorrectLastId|].
    apply elem_of_cons in Hin. destruct Hin as [->|Hin]; [apply terminates_CreateCognitoUser|].
    apply elem_of_cons in Hin. destruct Hin as [->|Hin]; [apply terminates_CreateDynamoDBUser|].
    apply elem_of_cons in Hin. destruct Hin as [->|Hin]; [apply saga_terminates|].
    apply elem_of_cons in Hin. destruct Hin as [->|Hin]; [apply terminates_Fail|].
    apply elem_of_cons in Hin. destruct Hin as [->|Hin]; [apply terminates_RollbackUser|].
    apply elem_of_cons in Hin. destruct Hin as [->|Hin]; [apply terminates_Pass|].
    exfalso. exact (not_elem_of_nil _ Hin).
  - apply (terminates_final w cur doc w (Aborted AtState)); [|reflexivity].
    unfold step. rewrite Hnone. reflexivity.
Qed.

(** Once the environment stops raising faults the execution ends, whatever
    it raised before. *)
Lemma run_ends schedule :
  forall w cur doc,
    exists N, forall k,
      is_final (snd (run t u graph (schedule ++ repeat None (N + k)) w cur doc)) = true.
Proof.
  induction schedule as [|ev rest IH]; intros w cur doc.
  - destruct (terminates_everywhere w cur doc) as [N HN]. exists N. intros k.
    cbn [app]. rewrite repeat_app, run_final_stable by exact HN. exact HN.
  - cbn [app run].
    destruct (step t u graph ev w cur doc) as [w1 [n d|o|e0 c0|a]].
    + apply IH.
    + exists 0%nat. intros k. reflexivity.
    + exists 0%nat. intros k. reflexivity.
    + exists 0%nat. intros k. reflexivity.
Qed.


(** ** The writer within a run, and the outcome of a run *)

(** C1 as the specification words its consequence: every successful run
    leaves the counter at the value it had before plus exactly one. *)
Definition successful_run_adds_one : Prop :=
  forall schedule w input w' out c,
    counter w = Some c ->
    run t u graph schedule w "FindLastId" input = (w', Succeeded out) ->
    counter w' = Some (c + 1).

(** C1, amended. Profile Writer: with the ids the allocator left the task
    issues one [transactWriteItems] call whose two members decode to (a) a
    put of the profile item under the key of [userId] on condition
    [attribute_not_exists(PK)] and (b) the update [SET LastId = userId] of
    the counter record on condition [LastId = previousUserId]; the call is
    all or nothing, and when it goes through the counter went from
    [previousUserId] to [previousUserId + 1] and the profile record of the
    new id is there and was not before. For a run as a whole the counter
    does not always end one above where it began: every cancelled write
    sends the run through the corrector, which advances the counter by one
    before the allocation is tried again. A successful run that began with
    the counter at [c] ends with the counter at [c + 1] plus the number of
    times it went through the corrector (so at [c + 1] exactly when no
    write of the run was cancelled); that value is the id the run
    allocated: it is the username of the output, its profile record holds
    the four fields of the request, its account is added to the pool, and
    no other record of the table but the counter has changed: the ids
    passed over by corrections get no profile. *)
Theorem writer_is_one_atomic_transaction :
  (forall w doc p fn ln em ph,
     has_context doc (Dec.show p) (Dec.show (p + 1)) ->
     has_profile doc fn ln em ph ->
     let uid := Dec.show (p + 1) in
     let r := step t u graph None w "CreateDynamoDBUser" doc in
     (exists pr put upd,
        kind CreateDynamoDBUser = Task pr /\
        service pr = "dynamodb" /\ action pr = "transactWriteItems" /\
        Asl.eval_template (parameters pr) doc =
          Some (JObj [("TransactItems",
                       JArr [JObj [("Put", put)]; JObj [("Update", upd)]])]) /\
        decode_put put = Some (profile_put uid fn ln em ph) /\
        decode_update upd = Some (counter_update p (p + 1))) /\
     (snd r = Running "CreateCognitoUser" doc ->
        counter w = Some p /\
        counter (fst r) = Some (p + 1) /\
        fresh (table w) (profile_key uid) = true /\
        (keyed (table w) -> table w !! profile_key uid = None) /\
        table (fst r) !! profile_key uid = Some (profile_item uid fn ln em ph) /\
        (forall k, k <> profile_key uid -> k <> metadata_key ->
                   table (fst r) !! k = table w !! k) /\
        pool (fst r) = pool w) /\
     (snd r <> Running "CreateCognitoUser" doc -> fst r = w) /\
     (snd r = Running "CreateCognitoUser" doc <->
        fresh (table w) (profile_key uid) = true /\ counter w = Some p)) /\
  (forall schedule w input w' out c,
     counter w = Some c ->
     run t u graph schedule w "FindLastId" input = (w', Succeeded out) ->
     let n := c + 1 + Z.of_nat (corrections schedule w "FindLastId" input) in
     counter w' = Some n /\
     (corrections schedule w "FindLastId" input = 0%nat <-> counter w' = Some (c + 1)) /\
     get_path ["User"; "Username"] out = Some (JStr (Dec.show n)) /\
     exists fn ln em ph,
       has_profile input fn ln em ph /\
       table w' !! profile_key (Dec.show n) = Some (profile_item (Dec.show n) fn ln em ph) /\
       (forall k, k <> metadata_key -> k <> profile_key (Dec.show n) ->
                  table w' !! k = table w !! k) /\
       pool w' = <[Dec.show n := account em]> (pool w)).
Proof.
  split; [exact writer_transaction|].
  intros schedule w0 input w' out c Hc Hrun n.
  assert (Hdue : due input (table w0) (pool w0) w0 c "FindLastId" input).
  { apply due_allocation; [exact Hc | split; [intros k _|]; reflexivity |].
    repeat split. }
  destruct (run_counts_corrections _ _ _ _ _ _ _ _ _ _ Hdue Hrun)
    as (fn & ln & em & ph & -> & Hn & Hin & [Hitem Hrest] & Hpool).
  fold n in Hn, Hitem, Hrest, Hpool |- *.
  split; [exact Hn|]. split; [|split].
  - rewrite Hn. unfold n. split.
    + intros ->. f_equal. lia.
    + intros H. injection H as H. lia.
  - reflexivity.
  - exists fn, ln, em, ph. auto.
Qed.

(** C6 as the specification words it: the outcome of an execution is a
    success that carries the user id, or a failure that carries a reason:
    an error or a cause, or the stage at which the platform ended the
    execution. *)
Definition outcome_success_or_reasoned_failure : Prop :=
  forall schedule w input w' s,
    run t u graph schedule w "FindLastId" input = (w', s) ->
    is_final s = true ->
    (exists out uid, s = Succeeded out /\
                     get_path ["User"; "Username"] out = Some (JStr uid)) \/
    (exists e c, s = Failed e c /\ (is_Some e \/ is_Some c)) \/
    (exists a, s = Aborted a).

(** C6, amended. Outcome of an invocation. Once the environment stops
    raising faults the execution ends, whatever was raised before. It
    ends in one of four ways. A success: the output is the response of
    the identity service for the allocated user id; its username is the
    decimal text of the id the counter was advanced to, the profile record
    of that id is in the table, and the account is in the pool. A failure
    with the error and cause of a fault that no catcher of its task names.
    A failure with no error and no cause: the [Fail] state names none, and
    the run then went through the rollback. Or the execution is ended at a
    data-flow failure of a state of the graph. Both a success and the
    failure without a reason do occur: with the four fields in the request, the
    profile key and the username of the next id unused, four steps without
    a fault end in the success for the next id; with the username taken,
    five steps end in the failure without error or cause. *)
Theorem saga_outcome :
  (forall schedule w input,
     exists N, forall k,
       is_final (snd (run t u graph (schedule ++ repeat None (N + k))
                          w "FindLastId" input)) = true) /\
  (forall schedule w input w' s,
     run t u graph schedule w "FindLastId" input = (w', s) ->
     match s with
     | Running n _ => is_Some (graph !! n)
     | Succeeded out =>
         exists n attrs,
           out = user_response (Dec.show n) attrs /\
           get_path ["User"; "Username"] out = Some (JStr (Dec.show n)) /\
           counter w' = Some n /\
           is_Some (table w' !! profile_key (Dec.show n)) /\
           pool w' !! Dec.show n = Some attrs
     | Failed e c =>
         (exists f, e = Some (Error f) /\ c = Some (Cause f)) \/
         (e = None /\ c = None /\
          "RollbackUser" ∈ visited schedule w "FindLastId" input)
     | Aborted a => a <> AtState
     end) /\
  (forall w kvs c fn ln em ph k,
     counter w = Some c ->
     has_profile (JObj kvs) fn ln em ph ->
     fresh (table w) (profile_key (Dec.show (c + 1))) = true ->
     pool w !! Dec.show (c + 1) = None ->
     snd (run t u graph (repeat None (4 + k)) w "FindLastId" (JObj kvs))
       = Succeeded (user_response (Dec.show (c + 1)) (account em))) /\
  (forall w kvs c fn ln em ph k,
     counter w = Some c ->
     has_profile (JObj kvs) fn ln em ph ->
     table w !! profile_key (Dec.show (c + 1)) = None ->
     is_Some (pool w !! Dec.show (c + 1)) ->
     snd (run t u graph (repeat None (5 + k)) w "FindLastId" (JObj kvs))
       = Failed None None).
Proof.
  split; [|split; [|split]].
  - intros schedule w input. apply run_ends.
  - intros schedule w input w' s H.
    assert (Hstart : is_Some (graph !! "FindLastId")).
    { rewrite graph_FindLastId. eexists. reflexivity. }
    pose proof (run_within_graph _ _ _ _ _ _ Hstart H) as Hin.
    destruct s as [n d|out|e c|a].
    + exact Hin.
    + assert (Hinv : run_invariant w "FindLastId" input).
      { split; [|split]; intros E; discriminate E. }
      destruct (run_invariant_run _ _ _ _ _ _ Hinv H) as (_ & _ & HP).
      destruct (HP eq_refl) as (n & attrs & -> & Hc & Hprof & Hpool).
      exists n, attrs. split; [reflexivity|]. split; [reflexivity|].
      split; [exact Hc|]. split; [exact Hprof | exact Hpool].
    + assert (Hne : "FindLastId" <> "Fail") by (intros E; discriminate E).
      exact (run_failed_shape _ _ _ _ _ _ _ Hne H).
    + exact Hin.
  - intros w kvs c fn ln em ph k Hc Hprof Hfresh Hfree.
    cbn [repeat Nat.add].
    rewrite (fault_free_success _ _ _ _ _ _ _ _ Hc Hprof Hfresh Hfree). reflexivity.
  - intros w kvs c fn ln em ph k Hc Hprof Habsent Htaken.
    cbn [repeat Nat.add].
    rewrite (fault_free_rollback _ _ _ _ _ _ _ _ Hc Hprof Habsent Htaken). reflexivity.
Qed.

End Machine.

(* ===================================================================== *)
(** * Scenarios *)
(* ===================================================================== *)

(** The deployed table and pool, and a caller's request. *)
Definition sample_table : ITable :=
  {| tableName := "SampleUsers";
     tableArn := "arn:aws:dynamodb:us-west-2:111122223333:table/SampleUsers" |}.

Definition sample_pool : IUserPool :=
  {| userPoolId := "us-west-2_SamplePool";
     userPoolArn := "arn:aws:cognito-idp:us-west-2:111122223333:userpool/us-west-2_SamplePool" |}.

Definition counter_record (n : Z) : list (string * attr) :=
  [("PK", AS "USERMETADATA"); ("SK", AS "USERMETADATA"); ("LastId", AN n)].

Definition request : list (string * json) :=
  [("firstName", JStr "Ada"); ("lastName", JStr "Lovelace");
   ("emailAddress", JStr "ada@example.com"); ("phoneNumber", JStr "555-0100")].

(** The table holds the counter record only. *)
Definition world_at (n : Z) : World :=
  {| table := {[ metadata_key := counter_record n ]}; replica := ∅; pool := ∅ |}.

(** Another invocation has committed id 42 in the meantime. *)
Definition world_after_rival : World :=
  {| table := <[profile_key "42" := profile_item "42" "Grace" "Hopper" "grace@example.com" "555-0199"]>
                {[ metadata_key := counter_record 42 ]};
     replica := ∅;
     pool := {[ "42" := account "grace@example.com" ]} |}.

(** The username 42 is taken in the pool while the table is at 42 with the
    caller's profile written. *)
Definition world_taken : World :=
  {| table := <[profile_key "42" := profile_item "42" "Ada" "Lovelace" "ada@example.com" "555-0100"]>
                {[ metadata_key := counter_record 42 ]};
     replica := ∅;
     pool := {[ "42" := account "someone@example.com" ]} |}.

(** The username 42 is taken although the table is still at 41. *)
Definition world_name_taken : World :=
  {| table := {[ metadata_key := counter_record 41 ]};
     replica := ∅;
     pool := {[ "42" := account "someone@example.com" ]} |}.

(** The environment cancels the first write of a run and raises nothing
    else. *)
Definition cancelled_once : list (option Fault) :=
  [None; Some transaction_canceled; None; None; None; None; None].

Lemma request_profile :
  has_profile (JObj request) "Ada" "Lovelace" "ada@example.com" "555-0100".
Proof. repeat split; vm_compute; reflexivity. Defined.

(** The state input after the allocator read 41. *)
Definition allocated : list (string * json) :=
  assoc_set "context" (context "41" "42") request.

Definition conflict : list (string * json) :=
  assoc_set "error" (error_output transaction_canceled) allocated.

Lemma allocated_context : has_context (JObj allocated) (Dec.show 41) (Dec.show 42).
Proof. split; vm_compute; reflexivity. Defined.

Lemma allocated_profile :
  has_profile (JObj allocated) "Ada" "Lovelace" "ada@example.com" "555-0100".
Proof. repeat split; vm_compute; reflexivity. Defined.

Lemma conflict_context : has_context (JObj conflict) (Dec.show 41) (Dec.show 42).
Proof. split; vm_compute; reflexivity. Defined.

(** C3, at counter 41. *)
Lemma allocator_reads_counter_witness :
  counter (world_at 41) = Some 41 /\
  step sample_table sample_pool (graph sample_table sample_pool) None
       (world_at 41) "FindLastId" (JObj request) =
    (world_at 41,
     Running "CreateDynamoDBUser"
       (JObj (assoc_set "context"
                (JObj [("previousUserId", JStr (Dec.show 41));
                       ("userId", JStr (Dec.show (41 + 1)))]) request))).
Proof.
  assert (H : counter (world_at 41) = Some 41) by (vm_compute; reflexivity).
  split; [exact H|].
  exact (proj1 (proj2 (allocator_reads_counter sample_table sample_pool
                         (world_at 41) request 41 H))).
Defined.

(** C1's consequence as worded fails: the counter is at 41 and the
    environment cancels the first write of the run; the catcher hands over
    to the corrector, which advances the counter to 42; the allocator
    reads 42, the second write commits id 43 and the run succeeds. The
    counter ends at 43, two above where it began. *)
Lemma successful_run_adds_one_counterexample :
  ~ successful_run_adds_one sample_table sample_pool.
Proof.
  intros H.
  set (r := run sample_table sample_pool (graph sample_table sample_pool)
                cancelled_once (world_at 41) "FindLastId" (JObj request)).
  assert (Hrun : r = (fst r, Succeeded (user_response "43" (account "ada@example.com"))))
    by (vm_compute; reflexivity).
  assert (Hc : counter (world_at 41) = Some 41) by (vm_compute; reflexivity).
  pose proof (H cancelled_once (world_at 41) (JObj request) (fst r) _ 41 Hc Hrun) as H'.
  vm_compute in H'. discriminate H'.
Qed.

(** C1, amended, at counter 41: the write of id 42 on its own, and the
    run whose first write is cancelled, which ends with the counter at
    41 + 1 + 1. *)
Lemma writer_is_one_atomic_transaction_witness :
  counter (fst (step sample_table sample_pool (graph sample_table sample_pool) None
                     (world_at 41) "CreateDynamoDBUser" (JObj allocated)))
  = Some (41 + 1) /\
  corrections sample_table sample_pool cancelled_once (world_at 41) "FindLastId"
              (JObj request) = 1%nat /\
  counter (fst (run sample_table sample_pool (graph sample_table sample_pool)
                    cancelled_once (world_at 41) "FindLastId" (JObj request)))
  = Some 43.
Proof.
  destruct (writer_is_one_atomic_transaction sample_table sample_pool) as [Hstep Hrun].
  pose proof (Hstep (world_at 41) (JObj allocated) 41
                "Ada" "Lovelace" "ada@example.com" "555-0100"
                allocated_context allocated_profile) as H.
  cbv zeta in H. destruct H as (_ & H & _).
  split; [apply H; vm_compute; reflexivity|].
  split; [vm_compute; reflexivity|].
  set (r := run sample_table sample_pool (graph sample_table sample_pool)
                cancelled_once (world_at 41) "FindLastId" (JObj request)).
  assert (Hr : r = (fst r, Succeeded (user_response "43" (account "ada@example.com"))))
    by (vm_compute; reflexivity).
  assert (Hc : counter (world_at 41) = Some 41) by (vm_compute; reflexivity).
  destruct (Hrun cancelled_once (world_at 41) (JObj request) (fst r) _ 41 Hc Hr)
    as (Hn & _).
  rewrite Hn. vm_compute. reflexivity.
Defined.

(** C6 as worded fails: the username 42 is taken in the pool; the run
    writes the profile of 42, the registration is refused, the rollback
    deletes the profile and the execution ends at [Fail], which names no
    error and no cause: a failure without a reason. *)
Lemma outcome_success_or_reasoned_failure_counterexample :
  ~ outcome_success_or_reasoned_failure sample_table sample_pool.
Proof.
  intros H.
  set (r := run sample_table sample_pool (graph sample_table sample_pool)
                (repeat None 5) world_name_taken "FindLastId" (JObj request)).
  assert (Hr : r = (fst r, Failed None None)) by (vm_compute; reflexivity).
  destruct (H (repeat None 5) world_name_taken (JObj request) (fst r) _ Hr eq_refl)
    as [(out & uid & E & _) | [(e & c & E & Hreason) | (a & E)]].
  - discriminate E.
  - injection E as <- <-. destruct Hreason as [[x Hx] | [x Hx]]; discriminate Hx.
  - discriminate E.
Qed.

(** C6, amended, at counter 41: the success for id 42, and the failure
    without a reason when the username 42 is taken. *)
Lemma saga_outcome_witness :
  snd (run sample_table sample_pool (graph sample_table sample_pool)
           (repeat None 4) (world_at 41) "FindLastId" (JObj request))
  = Succeeded (user_response "42" (account "ada@example.com")) /\
  snd (run sample_table sample_pool (graph sample_table sample_pool)
           (repeat None 5) world_name_taken "FindLastId" (JObj request))
  = Failed None None.
Proof.
  destruct (saga_outcome sample_table sample_pool) as (_ & _ & Hok & Hdup).
  split.
  - apply (Hok (world_at 41) request 41 "Ada" "Lovelace" "ada@example.com" "555-0100" 0%nat).
    + vm_compute. reflexivity.
    + exact request_profile.
    + vm_compute. reflexivity.
    + vm_compute. reflexivity.
  - apply (Hdup world_name_taken request 41 "Ada" "Lovelace" "ada@example.com" "555-0100"
             0%nat).
    + vm_compute. reflexivity.
    + exact request_profile.
    + vm_compute. reflexivity.
    + exists (account "someone@example.com"). vm_compute. reflexivity.
Defined.

(** C8, with ids 41 and 42. *)
Lemma corrector_is_counter_half_witness :
  exists rc upd,
    field "Key" rc = Some (JObj [("PK", JObj [("S", JStr "USERMETADATA")]);
                                 ("SK", JObj [("S", JStr "USERMETADATA")])]) /\
    decode_update upd = decode_update rc.
Proof.
  destruct (corrector_is_counter_half sample_table (JObj allocated)
              (Dec.show 41) (Dec.show 42) allocated_context)
    as (pc & pw & rc & put & upd & _ & _ & _ & _ & _ & _ & _ & _ & Hkey & _ & _ & _ & Hdec & _).
  exists rc, upd. split; assumption.
Defined.

(** C9, registering id 42 in an empty pool. *)
Lemma registrar_creates_account_witness :
  step sample_table sample_pool (graph sample_table sample_pool) None
       (world_at 42) "CreateCognitoUser" (JObj allocated) =
    (with_pool (world_at 42)
       (<["42" := [("email", "ada@example.com"); ("email_verified", "true")]]>
          (pool (world_at 42))),
     Running "Pass"
       (user_response "42" [("email", "ada@example.com"); ("email_verified", "true")])).
Proof.
  apply (registrar_creates_account sample_table sample_pool (world_at 42)
           (JObj allocated) "42" "ada@example.com").
  - vm_compute. reflexivity.
  - vm_compute. reflexivity.
  - vm_compute. reflexivity.
Defined.

(** C4, with username 42 taken. *)
Lemma duplicate_identity_rolls_back_witness :
  run sample_table sample_pool (graph sample_table sample_pool)
      [None; None; None] world_taken "CreateCognitoUser" (JObj allocated)
  = (with_table world_taken (delete (profile_key "42") (table world_taken)),
     Failed None None).
Proof.
  assert (Hdup : (@None Fault = None /\ is_Some (pool world_taken !! "42")) \/
                 (exists f, @None Fault = Some f /\
                    Error f = "CognitoIdentityProvider.UsernameExistsException")).
  { left. split; [reflexivity|]. eexists. vm_compute. reflexivity. }
  pose proof (duplicate_identity_rolls_back sample_table sample_pool world_taken
                (JObj allocated) "42" "ada@example.com" None []
                ltac:(vm_compute; reflexivity) ltac:(vm_compute; reflexivity) Hdup) as H.
  cbv zeta in H. exact (proj1 (proj2 (proj2 H))).
Defined.

(** C10, at the write step after a rival committed id 42. *)
Lemma catch_keeps_state_witness :
  has_context (JObj conflict) "41" "42".
Proof.
  assert (Hstep : step sample_table sample_pool (graph sample_table sample_pool) None
                    world_after_rival "CreateDynamoDBUser" (JObj allocated)
                  = (world_after_rival, Running "CorrectLastId" (JObj conflict))).
  { vm_compute. reflexivity. }
  apply (proj2 (proj2 (catch_keeps_state sample_table sample_pool None
                         world_after_rival world_after_rival
                         "CreateDynamoDBUser" "CorrectLastId"
                         (JObj allocated) (JObj conflict)
                         (or_introl (conj eq_refl eq_refl)) Hstep))).
  split; vm_compute; reflexivity.
Defined.

(** C2 as worded fails: a rival has committed id 42, the write of this
    run is cancelled and caught, the corrector's condition fails, and the
    execution is over without the allocator being entered again. *)
Lemma conflict_returns_to_allocator_counterexample :
  ~ conflict_returns_to_allocator sample_table sample_pool.
Proof.
  intros H.
  destruct (H world_after_rival (JObj allocated) 41 42
              "Ada" "Lovelace" "ada@example.com" "555-0100" None (JObj conflict)
              allocated_context allocated_profile
              ltac:(vm_compute; reflexivity)) as (w' & d2 & Hrun).
  vm_compute in Hrun. discriminate Hrun.
Qed.

(** C2, amended, in the same scenario: the world is untouched by the
    cancelled write. *)
Lemma write_conflict_compensation_witness :
  fst (step sample_table sample_pool (graph sample_table sample_pool) None
           world_after_rival "CreateDynamoDBUser" (JObj allocated))
  = world_after_rival.
Proof.
  exact (proj1 (write_conflict_compensation sample_table sample_pool
                  world_after_rival (JObj allocated) 41 42
                  "Ada" "Lovelace" "ada@example.com" "555-0100" None (JObj conflict)
                  allocated_context allocated_profile
                  ltac:(vm_compute; reflexivity))).
Defined.

(** C5 as worded fails: the counter has moved to 42, the corrector is
    asked to move it from 41 to 42, and the execution fails there. *)
Lemma corrector_failure_is_ignored_counterexample :
  ~ corrector_failure_is_ignored sample_table sample_pool.
Proof.
  intros H.
  destruct (H world_after_rival (JObj conflict) 41 42 conflict_context
              ltac:(vm_compute; discriminate)) as (d & Hstep).
  vm_compute in Hstep. discriminate Hstep.
Qed.

(** C5, amended, in the same scenario. *)
Lemma corrector_on_moved_counter_witness :
  run sample_table sample_pool (graph sample_table sample_pool)
      [None] world_after_rival "CorrectLastId" (JObj conflict)
  = (world_after_rival,
     Failed (Some "DynamoDb.ConditionalCheckFailedException")
            (Some "The conditional request failed")).
Proof.
  exact (proj1 (corrector_on_moved_counter sample_table sample_pool
                  world_after_rival (JObj conflict) 41 42 conflict_context
                  ltac:(vm_compute; discriminate)) []).
Defined.

(** ** The further properties, at concrete inputs *)

(** The counter lags: the profile of 42 is there, the counter holds 41. *)
Definition world_lagging : World :=
  {| table := <[profile_key "42" := profile_item "42" "Grace" "Hopper" "grace@example.com" "555-0199"]>
                {[ metadata_key := counter_record 41 ]};
     replica := ∅;
     pool := ∅ |}.

(** No counter record at all. *)
Definition world_empty : World := {| table := ∅; replica := ∅; pool := ∅ |}.

Definition rival_request : list (string * json) :=
  assoc_set "context" (context "41" "42")
    [("firstName", JStr "Grace"); ("lastName", JStr "Hopper");
     ("emailAddress", JStr "grace@example.com"); ("phoneNumber", JStr "555-0199")].

Definition throttled : Fault :=
  {| Error := "CognitoIdentityProvider.TooManyRequestsException";
     Cause := "Rate exceeded" |}.

(** X6, at a concrete input. *)
Lemma counter_never_decreases_witness :
  exists c',
    counter (fst (run sample_table sample_pool (graph sample_table sample_pool)
                      [None; None; None; None] (world_at 41) "FindLastId" (JObj request)))
      = Some c' /\
    41 <= c' <= 41 + Z.of_nat (length [@None Fault; None; None; None]).
Proof.
  set (r := run sample_table sample_pool (graph sample_table sample_pool)
                [None; None; None; None] (world_at 41) "FindLastId" (JObj request)).
  apply (counter_never_decreases sample_table sample_pool
           [None; None; None; None] (world_at 41) (fst r) (JObj request) (snd r) 41).
  - apply surjective_pairing.
  - vm_compute. reflexivity.
Defined.

(** X7, at a concrete input. *)
Lemma run_keeps_existing_records_witness :
  pool (fst (run sample_table sample_pool (graph sample_table sample_pool)
                 [None; None; None; None; None] world_after_rival "FindLastId"
                 (JObj request))) !! "42"
  = Some (account "grace@example.com").
Proof.
  set (r := run sample_table sample_pool (graph sample_table sample_pool)
                [None; None; None; None; None] world_after_rival "FindLastId"
                (JObj request)).
  apply (proj2 (run_keeps_existing_records sample_table sample_pool
                  [None; None; None; None; None] world_after_rival (fst r)
                  (JObj request) (snd r) (surjective_pairing r))).
  vm_compute. reflexivity.
Defined.

(** X1, at a concrete input. *)
Lemma happy_path_witness :
  run sample_table sample_pool (graph sample_table sample_pool)
      [None; None; None; None] (world_at 41) "FindLastId" (JObj request) =
  ({| table := committed (table (world_at 41)) (Dec.show (41 + 1))
                 "Ada" "Lovelace" "ada@example.com" "555-0100" (41 + 1);
      replica := replica (world_at 41);
      pool := <[Dec.show (41 + 1) := account "ada@example.com"]> (pool (world_at 41)) |},
   Succeeded (user_response (Dec.show (41 + 1)) (account "ada@example.com"))).
Proof.
  apply (happy_path sample_table sample_pool (world_at 41) request 41
           "Ada" "Lovelace" "ada@example.com" "555-0100" []).
  - vm_compute. reflexivity.
  - exact request_profile.
  - vm_compute. reflexivity.
  - vm_compute. reflexivity.
Defined.

(** X3, at a concrete input. *)
Lemma unclassified_registration_fault_strands_profile_witness :
  counter (fst (run sample_table sample_pool (graph sample_table sample_pool)
                    [None; None; Some throttled] (world_at 41) "FindLastId" (JObj request)))
  = Some (41 + 1).
Proof.
  pose proof (unclassified_registration_fault_strands_profile sample_table sample_pool
                (world_at 41) request 41 "Ada" "Lovelace" "ada@example.com" "555-0100"
                throttled []
                ltac:(vm_compute; reflexivity) request_profile
                ltac:(vm_compute; reflexivity)
                ltac:(intros H; vm_compute in H; discriminate H)) as H.
  cbv zeta in H. exact (proj1 (proj2 (proj2 H))).
Defined.

(** X2, at a concrete input. *)
Lemma rollback_undoes_the_profile_write_witness :
  run sample_table sample_pool (graph sample_table sample_pool)
      [None; None; None; None; None] world_name_taken "FindLastId" (JObj request) =
  (with_table world_name_taken (advance (table world_name_taken) (41 + 1)),
   Failed None None).
Proof.
  apply (rollback_undoes_the_profile_write sample_table sample_pool world_name_taken
           request 41 "Ada" "Lovelace" "ada@example.com" "555-0100" []).
  - vm_compute. reflexivity.
  - exact request_profile.
  - vm_compute. reflexivity.
  - eexists. vm_compute. reflexivity.
Defined.

(** X4, at a concrete input. *)
Lemma lagging_counter_is_skipped_witness :
  snd (run sample_table sample_pool (graph sample_table sample_pool)
           [None; None; None; None; None; None; None] world_lagging "FindLastId"
           (JObj request))
  = Succeeded (user_response (Dec.show (41 + 2)) (account "ada@example.com")).
Proof.
  pose proof (lagging_counter_is_skipped sample_table sample_pool world_lagging
                request 41 "Ada" "Lovelace" "ada@example.com" "555-0100"
                (profile_item "42" "Grace" "Hopper" "grace@example.com" "555-0199") []
                ltac:(vm_compute; reflexivity) request_profile
                ltac:(vm_compute; reflexivity)
                ltac:(eexists; vm_compute; reflexivity)
                ltac:(vm_compute; reflexivity)
                ltac:(vm_compute; reflexivity)) as H.
  cbv zeta in H. exact (proj1 H).
Defined.

(** X5, at a concrete input. *)
Lemma concurrent_writers_one_winner_witness :
  run sample_table sample_pool (graph sample_table sample_pool) [None; None]
      (fst (step sample_table sample_pool (graph sample_table sample_pool) None
                 (world_at 41) "CreateDynamoDBUser" (JObj rival_request)))
      "CreateDynamoDBUser" (JObj allocated)
  = (fst (step sample_table sample_pool (graph sample_table sample_pool) None
               (world_at 41) "CreateDynamoDBUser" (JObj rival_request)),
     Failed (Some "DynamoDb.ConditionalCheckFailedException")
            (Some "The conditional request failed")).
Proof.
  pose proof (concurrent_writers_one_winner sample_table sample_pool (world_at 41)
                (JObj rival_request) allocated 41
                "Grace" "Hopper" "grace@example.com" "555-0199"
                "Ada" "Lovelace" "ada@example.com" "555-0100" []
                ltac:(split; vm_compute; reflexivity)
                ltac:(repeat split; vm_compute; reflexivity)
                allocated_context allocated_profile
                ltac:(vm_compute; reflexivity)) as H.
  cbv zeta in H. exact (proj1 (proj2 H)).
Defined.

(** X9, at a concrete input. *)
Lemma allocation_needs_counter_record_witness :
  run sample_table sample_pool (graph sample_table sample_pool)
      [None] world_empty "FindLastId" (JObj request)
    = (world_empty, Aborted AtResultSelector) /\
  run sample_table sample_pool (graph sample_table sample_pool)
      [None] (world_at 41) "FindLastId" (JStr "Ada")
    = (world_at 41, Aborted AtResultPath).
Proof.
  split.
  - apply (proj1 (allocation_needs_counter_record sample_table sample_pool world_empty
                    (JObj request) [])).
    vm_compute. reflexivity.
  - apply (proj2 (allocation_needs_counter_record sample_table sample_pool (world_at 41)
                    (JStr "Ada") [])).
    + exists 41. vm_compute. reflexivity.
    + reflexivity.
Defined.

(** X10, at a concrete input. *)
Lemma incomplete_request_writes_nothing_witness :
  exists s,
    run sample_table sample_pool (graph sample_table sample_pool)
        [None; None] (world_at 41) "FindLastId"
        (JObj [("firstName", JStr "Ada"); ("emailAddress", JStr "ada@example.com")])
    = (world_at 41, s) /\
    match s with
    | Aborted a =>
        a = AtParameters /\
        exists k, k ∈ request_fields /\
          get_path [k] (JObj [("firstName", JStr "Ada");
                              ("emailAddress", JStr "ada@example.com")]) = None
    | Failed e cause =>
        is_Some e /\ is_Some cause /\
        forall k, k ∈ request_fields ->
          is_Some (get_path [k] (JObj [("firstName", JStr "Ada");
                                       ("emailAddress", JStr "ada@example.com")]))
    | _ => False
    end.
Proof.
  apply (incomplete_request_writes_nothing sample_table sample_pool (world_at 41)
           [("firstName", JStr "Ada"); ("emailAddress", JStr "ada@example.com")] 41 []).
  - vm_compute. reflexivity.
  - intros fn ln em ph (_ & H & _). vm_compute in H. discriminate H.
Defined.

(** X11, at a concrete input. *)
Lemma allocated_ids_are_distinct_witness :
  Dec.read "42" = Some (41 + 1) /\ Dec.read "8" = Some (7 + 1).
Proof.
  exact (proj1 (allocated_ids_are_distinct sample_table sample_pool
                  (world_at 41) (world_at 7) request request 41 7
                  (JObj allocated)
                  (JObj (assoc_set "context" (context "7" "8") request))
                  "42" "8"
                  ltac:(vm_compute; reflexivity) ltac:(vm_compute; reflexivity)
                  ltac:(vm_compute; reflexivity) ltac:(vm_compute; reflexivity)
                  ltac:(vm_compute; reflexivity) ltac:(vm_compute; reflexivity))).
Defined.

(** X8, at a concrete input. *)
Lemma steps_touch_only_their_resource_witness :
  fst (step sample_table sample_pool (graph sample_table sample_pool) None
            (world_at 41) "FindLastId" (JObj request)) = world_at 41.
Proof.
  set (r := step sample_table sample_pool (graph sample_table sample_pool) None
                 (world_at 41) "FindLastId" (JObj request)).
  refine (proj2 (proj2 (proj2 (proj2
            (steps_touch_only_their_resource sample_table sample_pool None
               (world_at 41) (fst r) "FindLastId" (JObj request) (snd r)
               (on_track_start _) (surjective_pairing r))))) _).
  left. reflexivity.
Defined.

End Saga.
